(** * Blog platform: authentication and ownership-gated post operations

    A shallow embedding of the backend of the blog platform
    (middleware/auth.js, models/User.js, models/Post.js,
    controllers/authController.js, controllers/postController.js) and the
    properties of its identity resolution, ownership gate and list views.

    Conventions of the embedding:
    - JavaScript strings are [string]s, one [ascii] per code unit;
    - the integers of the store (row ids, epoch seconds) are [Z]; the
      numbers [parseInt] returns are [JS.number]s: the integers a double
      holds, and the two infinities;
    - what the body and query parsers deliver is a [value]: null, a
      boolean, a number, a string, an array or an object;
    - [undefined] fields are [option]s;
    - exceptions and the SQLite store are threaded through the monad [M];
    - the wall clock is an explicit argument [now] (epoch seconds);
    - the third-party packages (jsonwebtoken, bcryptjs, ms), the parts of
      the engine the backend touches only at odd inputs, and
      [process.env] are the fields of the class [Platform]. *)

From Stdlib Require Import ZArith List String Ascii Bool Lia DecimalString.
From Stdlib Require Import Permutation Sorted.
Import ListNotations.
Local Open Scope string_scope.
Local Open Scope Z_scope.

(* ===================================================================== *)
(** ** JavaScript string primitives used by the backend *)
(* ===================================================================== *)

Module JS.

(** White space as [String.prototype.trim], [parseInt] and the regular
    expression class [\s] see it, among the code units an [ascii] holds:
    tab to carriage return, space, and the no-break space. *)
Definition isSpace (c : ascii) : bool :=
  let n := nat_of_ascii c in
  (Nat.eqb n 32 || (Nat.leb 9 n && Nat.leb n 13) || Nat.eqb n 160)%bool.

Fixpoint trimStart (s : string) : string :=
  match s with
  | String c s' => if isSpace c then trimStart s' else s
  | EmptyString => EmptyString
  end.

(** Removes trailing white space: a character is dropped when it is white
    space and everything after it has been dropped. *)
Fixpoint trimEnd (s : string) : string :=
  match s with
  | EmptyString => EmptyString
  | String c s' =>
      match trimEnd s' with
      | EmptyString => if isSpace c then EmptyString else String c EmptyString
      | r => String c r
      end
  end.

(** [s.trim()] *)
Definition trim (s : string) : string := trimEnd (trimStart s).

(** [s === ''] *)
Definition isEmpty (s : string) : bool :=
  match s with EmptyString => true | _ => false end.

(** [s.length] *)
Definition length (s : string) : Z := Z.of_nat (String.length s).

(** The lower case of a code unit: [A]-[Z], and the capital letters of
    Latin-1 (192 to 222, the multiplication sign 215 apart). *)
Definition lowerChar (c : ascii) : ascii :=
  let n := nat_of_ascii c in
  if ((Nat.leb 65 n && Nat.leb n 90) ||
      (Nat.leb 192 n && Nat.leb n 222 && negb (Nat.eqb n 215)))%bool
  then ascii_of_nat (n + 32) else c.

(** [s.toLowerCase()] *)
Fixpoint toLowerCase (s : string) : string :=
  match s with
  | EmptyString => EmptyString
  | String c s' => String (lowerChar c) (toLowerCase s')
  end.

(** [s.startsWith(p)] *)
Definition startsWith (p s : string) : bool := String.prefix p s.

(** [s.includes(sub)] *)
Fixpoint includes (sub s : string) : bool :=
  (String.prefix sub s ||
   match s with
   | EmptyString => false
   | String _ s' => includes sub s'
   end)%bool.

(** [s.split(sep)] for a one-character separator: the pieces between the
    occurrences of [sep], empty pieces included; never the empty list. *)
Fixpoint split (sep : ascii) (s : string) : list string :=
  match s with
  | EmptyString => [EmptyString]
  | String c s' =>
      if Ascii.eqb c sep then EmptyString :: split sep s'
      else match split sep s' with
           | p :: ps => String c p :: ps
           | [] => [String c EmptyString]
           end
  end.

(** [s.lastIndexOf(c)] for a one-character needle, scanning from index [i]
    with [acc] the last match seen so far. *)
Fixpoint lastIndexOf_from (c : ascii) (s : string) (i acc : Z) : Z :=
  match s with
  | EmptyString => acc
  | String x s' => lastIndexOf_from c s' (i + 1) (if Ascii.eqb x c then i else acc)
  end.

(** [s.lastIndexOf(c)]: [-1] when [c] does not occur. *)
Definition lastIndexOf (c : ascii) (s : string) : Z := lastIndexOf_from c s 0 (-1).

(** [s.substring(a, b)]: both indices are clamped to [0 .. s.length] and
    swapped when [a > b]. *)
Definition substring (a b : Z) (s : string) : string :=
  let clamp x := Z.max 0 (Z.min x (length s)) in
  let lo := Z.min (clamp a) (clamp b) in
  let hi := Z.max (clamp a) (clamp b) in
  String.substring (Z.to_nat lo) (Z.to_nat (hi - lo)) s.

Definition isDigit (c : ascii) : bool :=
  let n := nat_of_ascii c in (Nat.leb 48 n && Nat.leb n 57)%bool.

Definition digitValue (c : ascii) : Z := Z.of_nat (nat_of_ascii c) - 48.

(** The longest prefix of decimal digits of [s], read as a number, starting
    from the value [acc]; [seen] tells whether a digit was read. *)
Fixpoint readDigits (s : string) (acc : Z) (seen : bool) : option Z :=
  match s with
  | String c s' =>
      if isDigit c then readDigits s' (10 * acc + digitValue c) true
      else if seen then Some acc else None
  | EmptyString => if seen then Some acc else None
  end.

(** A number that is not [NaN] and has no fraction: an integer a double
    holds exactly, or an infinity. *)
Inductive number : Type :=
| Int (z : Z)
| PosInfinity
| NegInfinity.

(** The double nearest to the natural number [n], ties to the even
    significand (53 bits); from [2 ^ 1024] on the result stands for an
    infinity. *)
Definition roundToDouble (n : Z) : Z :=
  if n <? 2 ^ 53 then n
  else
    let e := Z.log2 n - 52 in
    let q := Z.shiftr n e in
    let r := n - Z.shiftl q e in
    let half := 2 ^ (e - 1) in
    let q' := if ((half <? r) || ((r =? half) && Z.odd q))%bool then q + 1 else q in
    Z.shiftl q' e.

(** The number value of the integer [z]. *)
Definition toNumber (z : Z) : number :=
  let m := roundToDouble (Z.abs z) in
  if 2 ^ 1024 <=? m then (if z <? 0 then NegInfinity else PosInfinity)
  else Int (Z.sgn z * m).

(** [parseInt(s, 10)]: leading white space is skipped, one sign is read,
    then the longest run of digits, and the integer they spell is rounded
    to a double; [None] is [NaN]. *)
Definition parseInt (s : string) : option number :=
  option_map toNumber
    match trimStart s with
    | String "-" s' => option_map Z.opp (readDigits s' 0 false)
    | String "+" s' => readDigits s' 0 false
    | s' => readDigits s' 0 false
    end.

Definition digits (n : Z) : string := NilEmpty.string_of_int (Z.to_int n).

(** The number of decimal digits of a positive integer. *)
Definition digitCount (n : Z) : Z := Z.of_nat (String.length (digits n)).

(** The digits [s] (an integer of [k] digits, or [10 ^ k]) and the decimal
    exponent [p] of the shortest decimal that is read back as the double
    [x] of [p] digits, searched from [k] digits on with [fuel] lengths to
    try: among the neighbours of [x / 10 ^ (p - k)] the one nearer to [x],
    the even one when both are as near. *)
Fixpoint shortest (fuel : nat) (x p k : Z) : Z * Z :=
  match fuel with
  | O => (x, p)
  | S fuel' =>
      let unit := 10 ^ (p - k) in
      let lo := x / unit in
      let hi := lo + 1 in
      let okLo := ((10 ^ (k - 1) <=? lo) && (roundToDouble (lo * unit) =? x))%bool in
      let okHi := roundToDouble (hi * unit) =? x in
      let dLo := x - lo * unit in
      let dHi := hi * unit - x in
      let pick (s : Z) := if s =? 10 ^ k then (10 ^ (k - 1), p + 1) else (s, p) in
      if (okLo && okHi)%bool then
        (if dLo <? dHi then pick lo
         else if dHi <? dLo then pick hi
         else if Z.even lo then pick lo else pick hi)
      else if okLo then pick lo
      else if okHi then pick hi
      else shortest fuel' x p (k + 1)
  end.

(** [count] zeros. *)
Fixpoint zeros (count : nat) : string :=
  match count with
  | O => EmptyString
  | S count' => String "0" (zeros count')
  end.

(** [String(x)] for a positive integer double: the shortest digits that
    name it, filled up with zeros when the number is below [10 ^ 21], and
    with a decimal point after the first digit and the exponent from
    there on. Below [2 ^ 53] these are the digits of [x] itself. *)
Definition showPositive (x : Z) : string :=
  if x <? 2 ^ 53 then digits x
  else
    let (s, n) := shortest 17 x (digitCount x) 1 in
    let ds := digits s in
    if n <=? 21 then ds ++ zeros (Z.to_nat (n - digitCount s))
    else
      match ds with
      | String d EmptyString => String d EmptyString ++ "e+" ++ digits (n - 1)
      | String d rest => String d ("." ++ rest) ++ "e+" ++ digits (n - 1)
      | EmptyString => EmptyString
      end.

(** [n <= 0] *)
Definition nonPositive (n : number) : bool :=
  match n with
  | Int z => z <=? 0
  | PosInfinity => false
  | NegInfinity => true
  end.

(** [String(n)], as template literals print a number. *)
Definition numToString (n : number) : string :=
  match n with
  | Int z =>
      if z =? 0 then "0"
      else if z <? 0 then "-" ++ showPositive (- z)
      else showPositive z
  | PosInfinity => "Infinity"
  | NegInfinity => "-Infinity"
  end.

End JS.

(* ===================================================================== *)
(** ** JSON values, responses, errors *)
(* ===================================================================== *)

(** The values the handlers put into response bodies. An object is its list
    of fields in the order the source writes them. *)
#[warnings="-register-all"]
Inductive json : Type :=
| JNull
| JNum (n : Z)
| JStr (s : string)
| JArr (items : list json)
| JObj (fields : list (string * json)).

(** [res.status(code).json(body)]; [res.status(204).send()] has no body. *)
Record response : Type := mkResponse { status : Z; body : option json }.

Definition respond (code : Z) (fields : list (string * json)) : response :=
  mkResponse code (Some (JObj fields)).

(** The error payload shape of every handler: [{ error, details }]. *)
Definition errorResponse (code : Z) (err details : string) : response :=
  respond code [("error", JStr err); ("details", JStr details)].

(** The field [k] of an object, as [obj[k]] reads it. *)
Fixpoint field {A} (k : string) (fields : list (string * A)) : option A :=
  match fields with
  | [] => None
  | (k', v) :: rest => if String.eqb k k' then Some v else field k rest
  end.

Definition bodyField (k : string) (r : response) : option json :=
  match body r with
  | Some (JObj fields) => field k fields
  | _ => None
  end.

(** A JavaScript exception: the [name] and [message] of an [Error]. *)
Record error : Type := mkError { name : string; message : string }.

(** [new Error(msg)] *)
Definition Error (msg : string) : error := mkError "Error" msg.

Definition TypeError (msg : string) : error := mkError "TypeError" msg.

Inductive result (A : Type) : Type :=
| Ok (a : A)
| Throw (e : error).
Arguments Ok {A} a.
Arguments Throw {A} e.

(* ===================================================================== *)
(** ** The values of a request *)
(* ===================================================================== *)

(** What [express.json], [express.urlencoded] and the query parser put
    into the fields of [req.body] and [req.query]: the values of JSON. A
    number is given by the text [String(n)] shows for it (the backend does
    no arithmetic on the numbers of a request); an object by its own
    properties. A field that is absent is [None] ([undefined]). *)
#[warnings="-register-all"]
Inductive value : Type :=
| VNull
| VBool (b : bool)
| VNum (shown : string)
| VStr (s : string)
| VArr (items : list value)
| VObj (props : list (string * value)).

(** [!!x] *)
Definition truthy (x : option value) : bool :=
  match x with
  | None | Some VNull => false
  | Some (VBool b) => b
  | Some (VNum shown) => negb (String.eqb shown "0")
  | Some (VStr s) => negb (JS.isEmpty s)
  | Some (VArr _) | Some (VObj _) => true
  end.

(** [typeof x] *)
Definition typeOf (x : option value) : string :=
  match x with
  | None => "undefined"
  | Some (VBool _) => "boolean"
  | Some (VNum _) => "number"
  | Some (VStr _) => "string"
  | Some VNull | Some (VArr _) | Some (VObj _) => "object"
  end.

(** [x.method()] for a method [f] of strings, [x] written [what] in the
    source: a TypeError when [x] is not a string (no other value of a
    request has a function under that name). *)
Definition callOnString (what method : string) (f : string -> string)
           (x : option value) : result string :=
  match x with
  | Some (VStr s) => Ok (f s)
  | None =>
      Throw (TypeError ("Cannot read properties of undefined (reading '" ++ method ++ "')"))
  | Some VNull =>
      Throw (TypeError ("Cannot read properties of null (reading '" ++ method ++ "')"))
  | Some _ => Throw (TypeError (what ++ "." ++ method ++ " is not a function"))
  end.

(** [x.trim()] and [x.toLowerCase()] *)
Definition trimOf (what : string) (x : option value) : result string :=
  callOnString what "trim" JS.trim x.

Definition toLowerCaseOf (what : string) (x : option value) : result string :=
  callOnString what "toLowerCase" JS.toLowerCase x.

(** [String(v)]: an array is its elements joined by commas, [null] among
    them as the empty string; an object is [[object Object]], and cannot
    be converted when it has a property [toString] of its own (which is
    no function, so that [valueOf] is tried and returns the object). *)
Fixpoint toStringOf (v : value) : result string :=
  match v with
  | VNull => Ok "null"
  | VBool b => Ok (if b then "true" else "false")
  | VNum shown => Ok shown
  | VStr s => Ok s
  | VArr items =>
      (fix join (l : list value) : result string :=
         match l with
         | [] => Ok EmptyString
         | x :: rest =>
             match (match x with VNull => Ok EmptyString | _ => toStringOf x end) with
             | Throw e => Throw e
             | Ok a =>
                 match rest with
                 | [] => Ok a
                 | _ :: _ =>
                     match join rest with
                     | Throw e => Throw e
                     | Ok b => Ok (a ++ "," ++ b)
                     end
                 end
             end
         end) items
  | VObj props =>
      match field "toString" props with
      | Some _ => Throw (TypeError "Cannot convert object to primitive value")
      | None => Ok "[object Object]"
      end
  end.

(** [String(x)] for a field that may be absent. *)
Definition toStringOpt (x : option value) : result string :=
  match x with
  | Some v => toStringOf v
  | None => Ok "undefined"
  end.

(* ===================================================================== *)
(** ** The tables of models/database.js *)
(* ===================================================================== *)

(** A row of the table [users]. *)
Record userRow : Type := mkUserRow {
  user_id : Z;
  user_email : string;
  user_passwordHash : string;
  user_createdAt : Z
}.

(** A row of the table [posts]. *)
Record postRow : Type := mkPostRow {
  post_id : Z;
  post_title : string;
  post_content : string;
  post_authorId : Z;
  post_createdAt : Z
}.

(** The SQLite database: the two tables in rowid order, the AUTOINCREMENT
    counters of [sqlite_sequence], and [fault]: when it is [Some msg] every
    query is rejected with the error [msg] (store I/O failure). *)
Record db : Type := mkDb {
  users : list userRow;
  posts : list postRow;
  users_seq : Z;
  posts_seq : Z;
  fault : option string
}.

(* ===================================================================== *)
(** ** Effects: the store and exceptions *)
(* ===================================================================== *)

(** Computations of the backend: they read and write the store and may
    throw. A thrown exception keeps the writes made before it. The
    [await]s of the source are sequencing: one request runs at a time. *)
Definition M (A : Type) : Type := db -> result A * db.

Definition ret {A} (a : A) : M A := fun s => (Ok a, s).

Definition bind {A B} (m : M A) (k : A -> M B) : M B :=
  fun s => match m s with
           | (Ok a, s') => k a s'
           | (Throw e, s') => (Throw e, s')
           end.

Definition throw {A} (e : error) : M A := fun s => (Throw e, s).

(** [try { body } catch (e) { handler e }] *)
Definition try_catch {A} (body : M A) (handler : error -> M A) : M A :=
  fun s => match body s with
           | (Ok a, s') => (Ok a, s')
           | (Throw e, s') => handler e s'
           end.

Declare Scope js_scope.
Delimit Scope js_scope with js.
Notation "x <- c ;; k" := (bind c (fun x => k))
  (at level 100, c at next level, right associativity) : js_scope.
Notation "c ;;; k" := (bind c (fun _ => k))
  (at level 100, right associativity) : js_scope.
Local Open Scope js_scope.

(** A computation that does not touch the store. *)
Definition lift {A} (r : result A) : M A :=
  match r with Ok a => ret a | Throw e => throw e end.

(** Wraps the errors of a method body:
    [catch (error) { throw new Error(`<prefix>: ${error.message}`) }]. *)
Definition rethrow {A} (prefix : string) (body : M A) : M A :=
  try_catch body (fun e => throw (Error (prefix ++ ": " ++ message e))).

(** A property of a request that is [undefined] until a middleware sets it,
    to [null] or to a value. *)
Inductive slot (A : Type) : Type :=
| Undefined
| Null
| Val (a : A).
Arguments Undefined {A}.
Arguments Null {A}.
Arguments Val {A} a.

(** JavaScript truthiness of an optional string (a header), of a number
    that may be [NaN] or [null] and of a slot holding a number. *)
Definition truthyStr (x : option string) : bool :=
  match x with Some (String _ _) => true | _ => false end.

Definition truthyNum (x : option JS.number) : bool :=
  match x with
  | Some (JS.Int n) => negb (n =? 0)
  | Some _ => true
  | None => false
  end.

Definition truthyId (x : slot Z) : bool :=
  match x with Val n => negb (n =? 0) | _ => false end.

(** The string behind a truthy optional string. *)
Definition str (x : option string) : string :=
  match x with Some s => s | None => EmptyString end.

(* ===================================================================== *)
(** ** models/database.js: the queries *)
(* ===================================================================== *)

Module Database.

(** What [runQuery] resolves to: [{ id: this.lastID, changes: this.changes }].
    The backend reads [id] after an INSERT and [changes] after a DELETE. *)
Record written : Type := mkWritten { lastID : Z; changes : Z }.

(** [getQuery(sql, params)]: the first row of a SELECT, given by what the
    statement selects from the store; rejected when the store is faulty. *)
Definition getQuery {A} (select : db -> option A) : M (option A) :=
  fun s => match fault s with
           | Some msg => (Throw (Error msg), s)
           | None => (Ok (select s), s)
           end.

(** [allQuery(sql, params)]: all the rows of a SELECT. *)
Definition allQuery {A} (select : db -> list A) : M (list A) :=
  fun s => match fault s with
           | Some msg => (Throw (Error msg), s)
           | None => (Ok (select s), s)
           end.

(** [runQuery(sql, params)]: a statement that writes, given by the store it
    leaves or the constraint it violates. *)
Definition runQuery (write : db -> result (written * db)) : M written :=
  fun s => match fault s with
           | Some msg => (Throw (Error msg), s)
           | None =>
               match write s with
               | Ok (w, s') => (Ok w, s')
               | Throw e => (Throw e, s)
               end
           end.

(** [SELECT * FROM users WHERE id = ?]; binding [undefined] or an
    infinity matches no row. *)
Definition selectUserById (id : option JS.number) (s : db) : option userRow :=
  match id with
  | Some (JS.Int i) => find (fun u => user_id u =? i) (users s)
  | _ => None
  end.

(** [SELECT * FROM users WHERE email = ?] *)
Definition selectUserByEmail (email : string) (s : db) : option userRow :=
  find (fun u => String.eqb (user_email u) email) (users s).

(** The next AUTOINCREMENT key: one more than the largest key ever used. *)
Definition nextId (seq : Z) (ids : list Z) : Z :=
  fold_right Z.max seq ids + 1.

(** [INSERT INTO users (email, passwordHash) VALUES (?, ?)]: the column
    [email] is UNIQUE; [createdAt] defaults to the current time. *)
Definition insertUser (now : Z) (email passwordHash : string) (s : db)
  : result (written * db) :=
  if existsb (fun u => String.eqb (user_email u) email) (users s)
  then Throw (Error "SQLITE_CONSTRAINT: UNIQUE constraint failed: users.email")
  else
    let id := nextId (users_seq s) (map user_id (users s)) in
    Ok (mkWritten id 1,
        mkDb (users s ++ [mkUserRow id email passwordHash now]) (posts s)
             id (posts_seq s) (fault s)).

(** [posts LEFT JOIN users ON posts.authorId = users.id]: the row with
    the author's email, [None] (NULL) when the author has no row. *)
Definition joinAuthor (s : db) (p : postRow) : postRow * option string :=
  (p, option_map user_email (find (fun u => user_id u =? post_authorId p) (users s))).

(** [SELECT ... FROM posts LEFT JOIN users ... WHERE posts.id = ?];
    binding an infinity matches no row. *)
Definition selectPostById (id : JS.number) (s : db) : option (postRow * option string) :=
  match id with
  | JS.Int i => option_map (joinAuthor s) (find (fun p => post_id p =? i) (posts s))
  | _ => None
  end.

(** Insertion of a row in front of a list ordered by [createdAt], newest
    first: the row goes before the first row that is not newer than it,
    so that it stays before the rows of its own time. *)
Fixpoint insertNewestFirst (p : postRow) (l : list postRow) : list postRow :=
  match l with
  | [] => [p]
  | q :: l' =>
      if post_createdAt q <=? post_createdAt p then p :: l
      else q :: insertNewestFirst p l'
  end.

(** [ORDER BY posts.createdAt DESC]. SQLite leaves the order of rows with
    equal [createdAt] open; here they stay in rowid order. *)
Definition orderByCreatedAtDesc (l : list postRow) : list postRow :=
  fold_right insertNewestFirst [] l.

(** [SELECT ... FROM posts LEFT JOIN users ... ORDER BY posts.createdAt
    DESC], with [WHERE posts.authorId = ?] when [authorId] is given; no
    row has an infinite [authorId]. *)
Definition selectPosts (authorId : option JS.number) (s : db)
  : list (postRow * option string) :=
  let rows := match authorId with
              | Some (JS.Int a) => filter (fun p => post_authorId p =? a) (posts s)
              | Some _ => []
              | None => posts s
              end in
  map (joinAuthor s) (orderByCreatedAtDesc rows).

(** [INSERT INTO posts (title, content, authorId) VALUES (?, ?, ?)].
    Foreign keys are not enforced (SQLite's default). *)
Definition insertPost (now : Z) (title content : string) (authorId : Z) (s : db)
  : result (written * db) :=
  let id := nextId (posts_seq s) (map post_id (posts s)) in
  Ok (mkWritten id 1,
      mkDb (users s) (posts s ++ [mkPostRow id title content authorId now])
           (users_seq s) id (fault s)).

(** [SET title = ?, content = ?] on the row [id]. *)
Definition updatePostRow (title content : string) (id : Z) (p : postRow) : postRow :=
  if post_id p =? id
  then mkPostRow (post_id p) title content (post_authorId p) (post_createdAt p)
  else p.

(** [UPDATE posts SET title = ?, content = ? WHERE id = ?] *)
Definition updatePost (title content : string) (id : Z) (s : db)
  : result (written * db) :=
  Ok (mkWritten 0 (Z.of_nat (List.length (filter (fun p => post_id p =? id) (posts s)))),
      mkDb (users s) (map (updatePostRow title content id) (posts s))
           (users_seq s) (posts_seq s) (fault s)).

(** [DELETE FROM posts WHERE id = ?] *)
Definition deletePost (id : Z) (s : db) : result (written * db) :=
  let kept := filter (fun p => negb (post_id p =? id)) (posts s) in
  Ok (mkWritten 0 (Z.of_nat (List.length (posts s)) - Z.of_nat (List.length kept)),
      mkDb (users s) kept (users_seq s) (posts_seq s) (fault s)).

End Database.

(* ===================================================================== *)
(** ** The jsonwebtoken package and the platform *)
(* ===================================================================== *)

(** The package jsonwebtoken is not part of the repository; [Jwt.sign] and
    [Jwt.verify] below follow its sign.js and verify.js (version 9) for the
    calls the backend makes: a string secret, an object payload, and the
    options [expiresIn], [issuer] and [audience]. *)

(** The claims of a token: the subject the backend writes ([userId]) and
    the registered claims of RFC 7519. *)
Record payload : Type := mkPayload {
  userId : option Z;
  iat : option Z;
  nbf : option Z;
  exp : option Z;
  iss : option string;
  aud : option string
}.

(** A decoded token. The signature is symbolic: [signedWith = Some k] when
    the signature part is the MAC of header and payload under the key [k]
    (it verifies under [k] and under no other key); [None] when the
    signature part is empty. *)
Record jws : Type := mkJws { signedWith : option string; claims : payload }.

(** The value of the option [expiresIn]: a number of seconds or a string
    for the package ms. *)
Inductive timespan : Type :=
| Seconds (n : Z)
| Span (s : string).

(** The options object of [jwt.sign] and [jwt.verify] (the fields this
    backend could set). *)
Record options : Type := mkOptions {
  expiresIn : option timespan;
  issuer : option string;
  audience : option string
}.

Definition noOptions : options := mkOptions None None None.

(** What the backend takes from outside its own code. *)
Class Platform : Type := {
  (** [process.env.JWT_SECRET]; the empty string when it is not set (both
      are falsy, and the package treats them alike). *)
  JWT_SECRET : string;
  (** The compact serialization of a token and its decoding; [jws_decode]
      is [None] on a string that is not three well-formed parts or whose
      registered claims are not numbers. *)
  jws_encode : jws -> string;
  jws_decode : string -> option jws;
  (** The package ms: a time span in milliseconds, [None] when the string
      is not a time span. *)
  ms : string -> option Z;
  (** [bcrypt.hash(password, rounds)] with the salt this call draws, and
      [bcrypt.compare(password, digest)]. *)
  bcrypt_hash : string -> Z -> result string;
  bcrypt_compare : string -> string -> result bool;
  (** The engine's comparison [v < n] of a value with an integer (the
      backend meets it where a body field is an object with a property
      [length]). *)
  js_less : value -> Z -> result bool;
  (** [new Date(createdAt).getTime()] for the timestamp SQLite wrote at
      the second [t], in milliseconds: the engine reads the text as local
      time; [None] is an invalid date. *)
  date_parse : Z -> option Z
}.

Module Jwt.

Section WithPlatform.
Context {P : Platform}.

Definition dq : string := String "034"%char EmptyString.

Definition JsonWebTokenError (msg : string) : error := mkError "JsonWebTokenError" msg.
Definition TokenExpiredError : error := mkError "TokenExpiredError" "jwt expired".
Definition NotBeforeError : error := mkError "NotBeforeError" "jwt not active".

(** lib/timespan.js: the expiry for a span starting at [timestamp]. *)
Definition expiryOf (span : timespan) (timestamp : Z) : option Z :=
  match span with
  | Seconds n => Some (timestamp + n)
  | Span s => option_map (fun millis => timestamp + millis / 1000) (ms s)
  end.

(** [jwt.sign(payload, secret, options)] at clock [now]: [iat] is the
    payload's own when it is truthy and the clock otherwise, [exp] is set
    from [expiresIn], issuer and audience are copied from the options. An
    option whose claim the payload already has is refused. *)
Definition sign (now : Z) (p : payload) (secret : string) (o : options) : result string :=
  if JS.isEmpty secret then Throw (Error "secretOrPrivateKey must have a value")
  else
    let timestamp := match iat p with
                     | Some t => if t =? 0 then now else t
                     | None => now
                     end in
    let badOption k c :=
      Error ("Bad " ++ dq ++ "options." ++ k ++ dq ++ " option. The payload already has an "
             ++ dq ++ c ++ dq ++ " property.") in
    let expClaim :=
      match expiresIn o, exp p with
      | None, e => Ok e
      | Some _, Some _ =>
          Throw (Error ("Bad " ++ dq ++ "options.expiresIn" ++ dq ++
                        " option the payload already has an " ++ dq ++ "exp" ++ dq
                        ++ " property."))
      | Some (Span EmptyString), None =>
          Throw (Error (dq ++ "expiresIn" ++ dq ++
                        " should be a number of seconds or string representing a timespan"))
      | Some span, None =>
          match expiryOf span timestamp with
          | Some e => Ok (Some e)
          | None =>
              Throw (Error (dq ++ "expiresIn" ++ dq ++
                            " should be a number of seconds or string representing a timespan eg: "
                            ++ dq ++ "1d" ++ dq ++ ", " ++ dq ++ "20h" ++ dq ++ ", 60"))
          end
      end in
    match expClaim with
    | Throw e => Throw e
    | Ok e =>
        match issuer o, iss p, audience o, aud p with
        | Some _, Some _, _, _ => Throw (badOption "issuer" "iss")
        | _, _, Some _, Some _ => Throw (badOption "audience" "aud")
        | i, i', a, a' =>
            Ok (jws_encode
                  (mkJws (Some secret)
                     (mkPayload (userId p) (Some timestamp) (nbf p) e
                        (match i with Some _ => i | None => i' end)
                        (match a with Some _ => a | None => a' end))))
        end
    end.

(** [jwt.verify(token, secret, options)] at clock [now]: the checks in the
    package's order: the token decodes, the signature is the secret's (an
    unsigned token is refused with or without a secret, as no option
    names the algorithm [none]), the token is active ([nbf]), it has not
    expired ([clock >= exp] is expired), then audience and issuer, each
    compared only when the options name the expected value. *)
Definition verify (now : Z) (token : string) (secret : string) (o : options) : result payload :=
  if JS.isEmpty token then Throw (JsonWebTokenError "jwt must be provided")
  else
    match jws_decode token with
    | None => Throw (JsonWebTokenError "jwt malformed")
    | Some t =>
        let signatureCheck :=
          match signedWith t with
          | None =>
              if JS.isEmpty secret
              then Throw (JsonWebTokenError
                            ("please specify " ++ dq ++ "none" ++ dq ++ " in " ++ dq ++
                             "algorithms" ++ dq ++ " to verify unsigned tokens"))
              else Throw (JsonWebTokenError "jwt signature is required")
          | Some k =>
              if JS.isEmpty secret
              then Throw (JsonWebTokenError "secret or public key must be provided")
              else if String.eqb k secret then Ok tt
              else Throw (JsonWebTokenError "invalid signature")
          end in
        let p := claims t in
        match signatureCheck with
        | Throw e => Throw e
        | Ok _ =>
            if match nbf p with Some n => now <? n | None => false end
            then Throw NotBeforeError
            else if match exp p with Some e => e <=? now | None => false end
            then Throw TokenExpiredError
            else if match audience o with
                    | Some a => negb (match aud p with Some a' => String.eqb a a' | None => false end)
                    | None => false
                    end
            then Throw (JsonWebTokenError "jwt audience invalid")
            else if match issuer o with
                    | Some i => negb (match iss p with Some i' => String.eqb i i' | None => false end)
                    | None => false
                    end
            then Throw (JsonWebTokenError "jwt issuer invalid")
            else Ok p
        end
    end.

End WithPlatform.
End Jwt.

(* ===================================================================== *)
(** ** The bcryptjs package *)
(* ===================================================================== *)

(** [bcrypt.hash(s, rounds)] and [bcrypt.compare(s, hash)] as the package
    guards them: both reject with an [Error] that names the types of the
    arguments unless [s] is a string; on strings they are the functions
    of the platform. *)
Module Bcrypt.

Section WithPlatform.
Context {P : Platform}.

Definition hash (s : option value) (rounds : Z) : result string :=
  match s with
  | Some (VStr password) => bcrypt_hash password rounds
  | _ => Throw (Error ("Illegal arguments: " ++ typeOf s ++ ", number"))
  end.

Definition compare (s : option value) (digest : string) : result bool :=
  match s with
  | Some (VStr password) => bcrypt_compare password digest
  | _ => Throw (Error ("Illegal arguments: " ++ typeOf s ++ ", string"))
  end.

End WithPlatform.
End Bcrypt.

(* ===================================================================== *)
(** ** models/User.js *)
(* ===================================================================== *)

Module User.

(** A [User] object has the fields of its row:
    [new User(row.id, row.email, row.passwordHash, row.createdAt)]. *)
Definition t : Type := userRow.

Section WithPlatform.
Context {P : Platform}.

Definition findById (id : option JS.number) : M (option t) :=
  rethrow "Failed to find user by ID"
    (row <- Database.getQuery (Database.selectUserById id) ;;
     match row with
     | None => ret None
     | Some r => ret (Some r)
     end).

Definition findByEmail (email : string) : M (option t) :=
  rethrow "Failed to find user by email"
    (row <- Database.getQuery (Database.selectUserByEmail email) ;;
     match row with
     | None => ret None
     | Some r => ret (Some r)
     end).

Definition create (now : Z) (email : string) (password : option value) : M (option t) :=
  rethrow "Failed to create user"
    (existingUser <- findByEmail email ;;
     match existingUser with
     | Some _ => throw (Error "User with this email already exists")
     | None =>
         let saltRounds := 12 in
         passwordHash <- lift (Bcrypt.hash password saltRounds) ;;
         result <- Database.runQuery (Database.insertUser now email passwordHash) ;;
         findById (Some (JS.Int (Database.lastID result)))
     end).

Definition verifyPassword (u : t) (password : option value) : M bool :=
  rethrow "Failed to verify password"
    (lift (Bcrypt.compare password (user_passwordHash u))).

End WithPlatform.

(** [toSafeObject()] *)
Definition toSafeObject (u : t) : json :=
  JObj [("id", JNum (user_id u));
        ("email", JStr (user_email u));
        ("createdAt", JNum (user_createdAt u))].

End User.

(* ===================================================================== *)
(** ** models/Post.js *)
(* ===================================================================== *)

Module Post.

(** A [Post] object: the row and the author's email from the join. *)
Record t : Type := mk {
  id : Z;
  title : string;
  content : string;
  authorId : Z;
  createdAt : Z;
  authorEmail : option string
}.

Definition ofRow (r : postRow * option string) : t :=
  mk (post_id (fst r)) (post_title (fst r)) (post_content (fst r))
     (post_authorId (fst r)) (post_createdAt (fst r)) (snd r).

(** [!x || x.trim().length === 0], [x] written [what] in the source; the
    call of [trim] throws when [x] is truthy and no string. *)
Definition blank (what : string) (x : option value) : result bool :=
  if negb (truthy x) then Ok true
  else match trimOf what x with
       | Ok trimmed => Ok (JS.length trimmed =? 0)
       | Throw e => Throw e
       end.

Definition findById (id : JS.number) : M (option t) :=
  rethrow "Failed to find post"
    (row <- Database.getQuery (Database.selectPostById id) ;;
     match row with
     | None => ret None
     | Some r => ret (Some (ofRow r))
     end).

Definition create (now : Z) (title content : option value) (authorId : slot Z)
  : M (option t) :=
  rethrow "Failed to create post"
    (noTitle <- lift (blank "title" title) ;;
     if noTitle then throw (Error "Title is required")
     else
       noContent <- lift (blank "content" content) ;;
       if noContent then throw (Error "Content is required")
       else match authorId with
            | Val a =>
                if a =? 0 then throw (Error "Author ID is required")
                else
                  trimmedTitle <- lift (trimOf "title" title) ;;
                  trimmedContent <- lift (trimOf "content" content) ;;
                  result <- Database.runQuery
                              (Database.insertPost now trimmedTitle trimmedContent a) ;;
                  findById (JS.Int (Database.lastID result))
            | _ => throw (Error "Author ID is required")
            end).

Definition findAll (authorId : option JS.number) : M (list t) :=
  rethrow "Failed to fetch posts"
    (rows <- Database.allQuery
               (Database.selectPosts (if truthyNum authorId then authorId else None)) ;;
     ret (map ofRow rows)).

Definition findByAuthor (authorId : option JS.number) : M (list t) := findAll authorId.

(** [this.authorId !== requestingUserId] *)
Definition notAuthor (this : t) (requestingUserId : slot Z) : bool :=
  match requestingUserId with
  | Val r => negb (authorId this =? r)
  | _ => true
  end.

Definition update (this : t) (title content : option value) (requestingUserId : slot Z)
  : M t :=
  rethrow "Failed to update post"
    (if notAuthor this requestingUserId
     then throw (Error "You can only edit your own posts")
     else
       noTitle <- lift (blank "title" title) ;;
       if noTitle then throw (Error "Title is required")
       else
         noContent <- lift (blank "content" content) ;;
         if noContent then throw (Error "Content is required")
         else
           trimmedTitle <- lift (trimOf "title" title) ;;
           trimmedContent <- lift (trimOf "content" content) ;;
           Database.runQuery (Database.updatePost trimmedTitle trimmedContent (id this)) ;;;
           ret (mk (id this) trimmedTitle trimmedContent (authorId this) (createdAt this)
                   (authorEmail this))).

Definition delete (this : t) (requestingUserId : slot Z) : M bool :=
  rethrow "Failed to delete post"
    (if notAuthor this requestingUserId
     then throw (Error "You can only delete your own posts")
     else
       result <- Database.runQuery (Database.deletePost (id this)) ;;
       if Database.changes result =? 0
       then throw (Error "Post not found or already deleted")
       else ret true).

Definition emailJson (e : option string) : json :=
  match e with Some s => JStr s | None => JNull end.

Definition toObject (this : t) : json :=
  JObj [("id", JNum (id this));
        ("title", JStr (title this));
        ("content", JStr (content this));
        ("authorId", JNum (authorId this));
        ("authorEmail", emailJson (authorEmail this));
        ("createdAt", JNum (createdAt this))].

(** The preview text of [toSummary]. *)
Definition summary (maxContentLength : Z) (content : string) : string :=
  if maxContentLength <? JS.length content then
    let truncated := JS.substring 0 maxContentLength content in
    let lastSpace := JS.lastIndexOf " " truncated in
    JS.substring 0 lastSpace truncated ++ "..."
  else content.

Definition toSummary (maxContentLength : Z) (this : t) : json :=
  JObj [("id", JNum (id this));
        ("title", JStr (title this));
        ("content", JStr (summary maxContentLength (content this)));
        ("authorId", JNum (authorId this));
        ("authorEmail", emailJson (authorEmail this));
        ("createdAt", JNum (createdAt this))].

(** [obj.content] of a post object in a response. *)
Definition contentOf (j : json) : option string :=
  match j with
  | JObj fields =>
      match field "content" fields with
      | Some (JStr c) => Some c
      | _ => None
      end
  | _ => None
  end.

(** The preview the list views promise for a long text, in the words of
    the specification: the first 200 characters, cut at their last space,
    with the ellipsis appended; the ellipsis alone when they hold no
    space. *)
Definition cutAtLastSpace (content preview : string) : Prop :=
  exists truncated rest,
    content = truncated ++ rest /\ JS.length truncated = 200 /\
    ((JS.includes " " truncated = false /\ preview = "...") \/
     (exists pre post,
         truncated = pre ++ " " ++ post /\
         JS.includes " " post = false /\
         preview = pre ++ "...")).

End Post.

(* ===================================================================== *)
(** ** Requests *)
(* ===================================================================== *)

(** The parts of an Express request the backend reads, and the two
    properties identity resolution attaches. A header and a route
    parameter are strings; a field of the query or of the body is any
    value the parsers deliver, or absent ([req.body] is an object even
    when the request has no body). *)
Record request : Type := mkRequest {
  authorization : option string;      (* req.headers['authorization'] *)
  params_id : string;                 (* req.params.id *)
  query_author : option value;        (* req.query.author *)
  body_email : option value;          (* req.body.email *)
  body_password : option value;
  body_title : option value;
  body_content : option value;
  req_user : slot json;               (* req.user *)
  req_userId : slot Z                 (* req.userId *)
}.

(** [req.user = u; req.userId = i] *)
Definition attach (req : request) (u : slot json) (i : slot Z) : request :=
  mkRequest (authorization req) (params_id req) (query_author req)
            (body_email req) (body_password req) (body_title req) (body_content req)
            u i.

(** What a middleware does with a request: it answers, or it calls
    [next()] with the request as it has left it. *)
Inductive outcome : Type :=
| Respond (r : response)
| Next (req : request).

(* ===================================================================== *)
(** ** middleware/auth.js *)
(* ===================================================================== *)

Module Auth.

Section WithPlatform.
Context {P : Platform}.

(** [authHeader.split(' ')[1]] *)
Definition tokenOf (authHeader : string) : option string :=
  nth_error (JS.split " " authHeader) 1.

(** [!authHeader || !authHeader.startsWith('Bearer ')] *)
Definition noBearer (authHeader : option string) : bool :=
  (negb (truthyStr authHeader) || negb (JS.startsWith "Bearer " (str authHeader)))%bool.

(** The bearer value of a request: the token that passes the two guards
    at the head of both middlewares, [None] when one of them stops it. *)
Definition bearer (req : request) : option string :=
  if noBearer (authorization req) then None
  else if truthyStr (tokenOf (str (authorization req)))
       then tokenOf (str (authorization req))
       else None.

Definition authenticateToken (now : Z) (req : request) : M outcome :=
  try_catch
    (let authHeader := authorization req in
     if noBearer authHeader then
       ret (Respond (errorResponse 401
              "Access denied. No valid token provided."
              "Please include a valid JWT token in the Authorization header"))
     else
       let token := tokenOf (str authHeader) in
       if negb (truthyStr token) then
         ret (Respond (errorResponse 401
                "Access denied. Token format is invalid."
                "Token should be provided as: Bearer <your-token>"))
       else
         match Jwt.verify now (str token) JWT_SECRET noOptions with
         | Throw jwtError =>
             if String.eqb (name jwtError) "TokenExpiredError" then
               ret (Respond (errorResponse 401
                      "Token has expired"
                      "Please log in again to get a new token"))
             else if String.eqb (name jwtError) "JsonWebTokenError" then
               ret (Respond (errorResponse 401
                      "Invalid token"
                      "The provided token is malformed or invalid"))
             else
               ret (Respond (errorResponse 401
                      "Token verification failed"
                      (message jwtError)))
         | Ok decoded =>
             user <- User.findById (option_map JS.Int (userId decoded)) ;;
             match user with
             | None =>
                 ret (Respond (errorResponse 401
                        "User no longer exists"
                        "The account associated with this token has been removed"))
             | Some u =>
                 ret (Next (attach req (Val (User.toSafeObject u)) (Val (user_id u))))
             end
         end)
    (fun _ =>
       ret (Respond (errorResponse 500
              "Internal server error during authentication"
              "Please try again later"))).

Definition optionalAuth (now : Z) (req : request) : M outcome :=
  try_catch
    (let authHeader := authorization req in
     if noBearer authHeader then ret (Next (attach req Null Null))
     else
       let token := tokenOf (str authHeader) in
       if negb (truthyStr token) then ret (Next (attach req Null Null))
       else
         try_catch
           (decoded <- lift (Jwt.verify now (str token) JWT_SECRET noOptions) ;;
            user <- User.findById (option_map JS.Int (userId decoded)) ;;
            match user with
            | Some u =>
                ret (Next (attach req (Val (User.toSafeObject u)) (Val (user_id u))))
            | None => ret (Next (attach req Null Null))
            end)
           (fun _ => ret (Next (attach req Null Null))))
    (fun _ => ret (Next (attach req Null Null))).

(** [generateToken(userId, expiresIn = '7d')] *)
Definition generateToken (now : Z) (uid : Z) (ttl : timespan) : result string :=
  match Jwt.sign now
          (mkPayload (Some uid) (Some now) None None None None)
          JWT_SECRET
          (mkOptions (Some ttl) (Some "blog-platform") (Some "blog-platform-users"))
  with
  | Ok token => Ok token
  | Throw e => Throw (Error ("Failed to generate token: " ++ message e))
  end.

Definition defaultTtl : timespan := Span "7d".

(** The token [generateToken] signs for [uid] at time [now] when the
    expiry comes out as [e]. *)
Definition issued (now uid e : Z) : jws :=
  mkJws (Some JWT_SECRET)
        (mkPayload (Some uid) (Some now) None (Some e)
                   (Some "blog-platform") (Some "blog-platform-users")).

(** The answers of [authenticateToken] to a present bearer value: to a
    verification error, and to the subject the store resolves or not. *)
Definition onJwtError (jwtError : error) : response :=
  if String.eqb (name jwtError) "TokenExpiredError" then
    errorResponse 401 "Token has expired" "Please log in again to get a new token"
  else if String.eqb (name jwtError) "JsonWebTokenError" then
    errorResponse 401 "Invalid token" "The provided token is malformed or invalid"
  else
    errorResponse 401 "Token verification failed" (message jwtError).

Definition getUserIdFromToken (now : Z) (token : string) : option Z :=
  match Jwt.verify now token JWT_SECRET noOptions with
  | Ok decoded => userId decoded
  | Throw _ => None
  end.

End WithPlatform.
End Auth.

(* ===================================================================== *)
(** ** controllers/authController.js *)
(* ===================================================================== *)

Module authController.

(** No white space in [s] (no [@] either when [s] is a piece of a split
    on [@]). *)
Fixpoint noSpace (s : string) : bool :=
  match s with
  | EmptyString => true
  | String c s' => (negb (JS.isSpace c) && noSpace s')%bool
  end.

(** Some [.] of [s] has a character after it. *)
Fixpoint dotThenMore (s : string) : bool :=
  match s with
  | EmptyString => false
  | String c s' =>
      ((Ascii.eqb c "." && negb (JS.isEmpty s')) || dotThenMore s')%bool
  end.

(** [/^[^\s@]+@[^\s@]+\.[^\s@]+$/.test(email)]: exactly one [@], no white
    space, a non-empty local part, and in the domain a dot with at least one
    character before it and one after it. *)
Definition emailRegex_test (email : string) : bool :=
  match JS.split "@" email with
  | [l; d] =>
      (negb (JS.isEmpty l) && noSpace l && noSpace d &&
       match d with
       | String _ d' => dotThenMore d'
       | EmptyString => false
       end)%bool
  | _ => false
  end.

(** What the pattern says, piece by piece: [s] matches [[^\s@]+] when it
    is not empty and holds neither white space nor [@]; [email] matches
    the whole pattern when it is such a piece, [@], such a piece, a dot,
    and such a piece. *)
Definition classRun (s : string) : Prop :=
  s <> "" /\
  forall c, In c (list_ascii_of_string s) -> JS.isSpace c = false /\ c <> "@"%char.

Definition matchesEmailPattern (email : string) : Prop :=
  exists l a b,
    email = l ++ "@" ++ a ++ "." ++ b /\ classRun l /\ classRun a /\ classRun b.

Section WithPlatform.
Context {P : Platform}.

(** [user.id] and [user.toSafeObject()] on the result of [User.create]:
    a TypeError when it is [null]. *)
Definition deref (user : option User.t) : M User.t :=
  match user with
  | Some u => ret u
  | None => throw (mkError "TypeError" "Cannot read properties of null (reading 'id')")
  end.

(** [emailRegex.test(email)]: the pattern is tested on [String(email)]. *)
Definition emailRegex_testOn (email : option value) : result bool :=
  match toStringOpt email with
  | Ok shown => Ok (emailRegex_test shown)
  | Throw e => Throw e
  end.

(** [x.length < n]: the [length] of a string or an array; of an object
    its property of that name, compared by the engine; [undefined], which
    is below nothing, for a number or a boolean. *)
Definition lengthBelow (x : option value) (n : Z) : result bool :=
  match x with
  | Some (VStr s) => Ok (JS.length s <? n)
  | Some (VArr items) => Ok (Z.of_nat (List.length items) <? n)
  | Some (VObj props) =>
      match field "length" props with
      | Some v => js_less v n
      | None => Ok false
      end
  | Some (VNum _) | Some (VBool _) => Ok false
  | Some VNull => Throw (TypeError "Cannot read properties of null (reading 'length')")
  | None => Throw (TypeError "Cannot read properties of undefined (reading 'length')")
  end.

Definition register (now : Z) (req : request) : M response :=
  try_catch
    (let email := body_email req in
     let password := body_password req in
     if (negb (truthy email) || negb (truthy password))%bool then
       ret (errorResponse 400 "Missing required fields"
              "Both email and password are required")
     else
       wellFormed <- lift (emailRegex_testOn email) ;;
       if negb wellFormed then
         ret (errorResponse 400 "Invalid email format"
                "Please provide a valid email address")
       else
         tooShort <- lift (lengthBelow password 6) ;;
         if tooShort then
           ret (errorResponse 400 "Password too weak"
                  "Password must be at least 6 characters long")
         else
           lowered <- lift (toLowerCaseOf "email" email) ;;
           let normalizedEmail := JS.trim lowered in
           created <- User.create now normalizedEmail password ;;
           user <- deref created ;;
           token <- lift (Auth.generateToken now (user_id user) Auth.defaultTtl) ;;
           ret (respond 201 [("message", JStr "User registered successfully");
                             ("user", User.toSafeObject user);
                             ("token", JStr token)]))
    (fun error =>
       if JS.includes "already exists" (message error) then
         ret (errorResponse 409 "Email already registered"
                "An account with this email already exists. Try logging in instead.")
       else
         ret (errorResponse 500 "Registration failed"
                "An unexpected error occurred. Please try again later.")).

Definition login (now : Z) (req : request) : M response :=
  try_catch
    (let email := body_email req in
     let password := body_password req in
     if (negb (truthy email) || negb (truthy password))%bool then
       ret (errorResponse 400 "Missing credentials"
              "Both email and password are required")
     else
       lowered <- lift (toLowerCaseOf "email" email) ;;
       let normalizedEmail := JS.trim lowered in
       found <- User.findByEmail normalizedEmail ;;
       match found with
       | None =>
           ret (errorResponse 401 "Invalid credentials"
                  "Email or password is incorrect")
       | Some user =>
           isValidPassword <- User.verifyPassword user password ;;
           if negb isValidPassword then
             ret (errorResponse 401 "Invalid credentials"
                    "Email or password is incorrect")
           else
             token <- lift (Auth.generateToken now (user_id user) Auth.defaultTtl) ;;
             ret (respond 200 [("message", JStr "Login successful");
                               ("user", User.toSafeObject user);
                               ("token", JStr token)])
       end)
    (fun _ =>
       ret (errorResponse 500 "Login failed"
              "An unexpected error occurred. Please try again later.")).

Definition getCurrentUser (req : request) : M response :=
  match req_user req with
  | Val u =>
      ret (respond 200 [("message", JStr "User retrieved successfully"); ("user", u)])
  | _ =>
      ret (errorResponse 401 "Not authenticated"
             "No valid authentication token provided")
  end.

Definition logout (req : request) : M response :=
  ret (respond 200 [("message", JStr "Logout successful");
                    ("details", JStr "Please discard your authentication token")]).

Definition refreshToken (now : Z) (req : request) : M response :=
  try_catch
    (match req_userId req with
     | Val uid =>
         if uid =? 0 then
           ret (errorResponse 401 "Authentication required"
                  "Valid token required for refresh")
         else
           newToken <- lift (Auth.generateToken now uid Auth.defaultTtl) ;;
           ret (respond 200 [("message", JStr "Token refreshed successfully");
                             ("token", JStr newToken)])
     | _ =>
         ret (errorResponse 401 "Authentication required"
                "Valid token required for refresh")
     end)
    (fun _ =>
       ret (errorResponse 500 "Token refresh failed"
              "Unable to refresh authentication token")).

End WithPlatform.
End authController.

(* ===================================================================== *)
(** ** controllers/postController.js *)
(* ===================================================================== *)

Module postController.

Section WithPlatform.
Context {P : Platform}.

Definition unexpected (what : string) : response :=
  errorResponse 500 what "An unexpected error occurred. Please try again later.".

Definition invalidPostId : response :=
  errorResponse 400 "Invalid post ID" "Post ID must be a positive number".

Definition postNotFound (postId : JS.number) : response :=
  errorResponse 404 "Post not found" ("No post found with ID " ++ JS.numToString postId).

(** [isNaN(n) || n <= 0] on the result of [parseInt]. *)
Definition notPositive (n : option JS.number) : bool :=
  match n with Some k => JS.nonPositive k | None => true end.

(** [post.toObject()] on the result of a model call: a TypeError when it
    is [null]. *)
Definition deref (post : option Post.t) : M Post.t :=
  match post with
  | Some p => ret p
  | None => throw (TypeError "Cannot read properties of null (reading 'toObject')")
  end.

Definition createPost (now : Z) (req : request) : M response :=
  try_catch
    (let title := body_title req in
     let content := body_content req in
     if negb (truthyId (req_userId req)) then
       ret (errorResponse 401 "Authentication required"
              "You must be logged in to create a post")
     else if (negb (truthy title) || negb (truthy content))%bool then
       ret (errorResponse 400 "Missing required fields"
              "Both title and content are required")
     else
       trimmedTitle <- lift (trimOf "title" title) ;;
       if JS.length trimmedTitle <? 3 then
         ret (errorResponse 400 "Title too short"
                "Title must be at least 3 characters long")
       else
         trimmedContent <- lift (trimOf "content" content) ;;
         if JS.length trimmedContent <? 10 then
           ret (errorResponse 400 "Content too short"
                  "Content must be at least 10 characters long")
         else
           created <- Post.create now title content (req_userId req) ;;
           post <- deref created ;;
           ret (respond 201 [("message", JStr "Post created successfully");
                             ("post", Post.toObject post)]))
    (fun _ => ret (unexpected "Failed to create post")).

(** A number as [res.json] writes it: an infinity is written [null]. *)
Definition numJson (n : JS.number) : json :=
  match n with JS.Int z => JNum z | _ => JNull end.

(** [author ? parseInt(author, 10) : null]: [parseInt] reads
    [String(author)]; [None] is [NaN] or [null]. *)
Definition authorIdOf (author : option value) : result (option JS.number) :=
  if truthy author then
    match toStringOpt author with
    | Ok shown => Ok (JS.parseInt shown)
    | Throw e => Throw e
    end
  else Ok None.

Definition getAllPosts (req : request) : M response :=
  try_catch
    (let author := query_author req in
     authorId <- lift (authorIdOf author) ;;
     if (truthy author && notPositive authorId)%bool then
       ret (errorResponse 400 "Invalid author ID"
              "Author ID must be a positive number")
     else
       let list :=
         posts <- Post.findAll authorId ;;
         let postSummaries := map (Post.toSummary 200) posts in
         ret (respond 200
                ([("message",
                   JStr (match authorId with
                         | Some n =>
                             if truthyNum authorId
                             then "Posts by author " ++ JS.numToString n
                                  ++ " retrieved successfully"
                             else "All posts retrieved successfully"
                         | None => "All posts retrieved successfully"
                         end));
                  ("posts", JArr postSummaries);
                  ("count", JNum (Z.of_nat (List.length postSummaries)))]
                 ++ (match authorId with
                     | Some n => if truthyNum authorId then [("authorId", numJson n)] else []
                     | None => []
                     end))) in
       match authorId with
       | Some n =>
           if truthyNum authorId then
             authorUser <- User.findById authorId ;;
             match authorUser with
             | None =>
                 ret (errorResponse 404 "Author not found"
                        ("No user found with ID " ++ JS.numToString n))
             | Some _ => list
             end
           else list
       | None => list
       end)
    (fun _ => ret (unexpected "Failed to retrieve posts")).

Definition getPostById (req : request) : M response :=
  try_catch
    (let postId := JS.parseInt (params_id req) in
     match postId with
     | Some i =>
         if JS.nonPositive i then ret invalidPostId
         else
           found <- Post.findById i ;;
           match found with
           | None => ret (postNotFound i)
           | Some post =>
               ret (respond 200 [("message", JStr "Post retrieved successfully");
                                 ("post", Post.toObject post)])
           end
     | None => ret invalidPostId
     end)
    (fun _ => ret (unexpected "Failed to retrieve post")).

(** The [catch] clause of [updatePost]. *)
Definition onUpdateError (error : error) : M response :=
  if JS.includes "only edit your own posts" (message error) then
    ret (errorResponse 403 "Permission denied" "You can only edit your own posts")
  else ret (unexpected "Failed to update post").

Definition updatePost (req : request) : M response :=
  try_catch
    (let title := body_title req in
     let content := body_content req in
     if negb (truthyId (req_userId req)) then
       ret (errorResponse 401 "Authentication required"
              "You must be logged in to update a post")
     else
       match JS.parseInt (params_id req) with
       | Some postId =>
           if JS.nonPositive postId then ret invalidPostId
           else if (negb (truthy title) || negb (truthy content))%bool then
             ret (errorResponse 400 "Missing required fields"
                    "Both title and content are required")
           else
             found <- Post.findById postId ;;
             match found with
             | None => ret (postNotFound postId)
             | Some post =>
                 updatedPost <- Post.update post title content (req_userId req) ;;
                 ret (respond 200 [("message", JStr "Post updated successfully");
                                   ("post", Post.toObject updatedPost)])
             end
       | None => ret invalidPostId
       end)
    onUpdateError.

(** The [catch] clause of [deletePost]. *)
Definition onDeleteError (error : error) : M response :=
  if JS.includes "only delete your own posts" (message error) then
    ret (errorResponse 403 "Permission denied" "You can only delete your own posts")
  else ret (unexpected "Failed to delete post").

Definition deletePost (req : request) : M response :=
  try_catch
    (if negb (truthyId (req_userId req)) then
       ret (errorResponse 401 "Authentication required"
              "You must be logged in to delete a post")
     else
       match JS.parseInt (params_id req) with
       | Some postId =>
           if JS.nonPositive postId then ret invalidPostId
           else
             found <- Post.findById postId ;;
             match found with
             | None => ret (postNotFound postId)
             | Some post =>
                 Post.delete post (req_userId req) ;;;
                 ret (mkResponse 204 None)
             end
       | None => ret invalidPostId
       end)
    onDeleteError.

Definition getMyPosts (req : request) : M response :=
  try_catch
    (match req_userId req with
     | Val uid =>
         if uid =? 0 then
           ret (errorResponse 401 "Authentication required"
                  "You must be logged in to view your posts")
         else
           posts <- Post.findByAuthor (Some (JS.Int uid)) ;;
           let postSummaries := map (Post.toSummary 200) posts in
           ret (respond 200 [("message", JStr "Your posts retrieved successfully");
                             ("posts", JArr postSummaries);
                             ("count", JNum (Z.of_nat (List.length postSummaries)))])
     | _ =>
         ret (errorResponse 401 "Authentication required"
                "You must be logged in to view your posts")
     end)
    (fun _ => ret (unexpected "Failed to retrieve your posts")).

(** One entry of [authorStats]: [{ authorId, authorEmail, postCount }]. *)
Record authorStat : Type := mkAuthorStat {
  stat_authorId : Z;
  stat_authorEmail : option string;
  stat_postCount : Z
}.

(** The keys an object enumerates first, in ascending order: the array
    indices. The other keys follow in the order of their insertion. *)
Definition isArrayIndex (k : Z) : bool := ((0 <=? k) && (k <? 2 ^ 32 - 1))%bool.

(** [authorStats[authorId] = entry] for a new key, the entries kept in
    the order [Object.values] enumerates them. *)
Fixpoint place (entry : authorStat) (stats : list authorStat) : list authorStat :=
  match stats with
  | [] => [entry]
  | x :: rest =>
      if (isArrayIndex (stat_authorId entry) &&
          (negb (isArrayIndex (stat_authorId x)) ||
           (stat_authorId entry <? stat_authorId x)))%bool
      then entry :: stats
      else x :: place entry rest
  end.

(** The body of the [forEach]: the entry of the post's author is created
    with the email of this post when it is missing, and counts one more. *)
Definition countPost (stats : list authorStat) (post : Post.t) : list authorStat :=
  let authorId := Post.authorId post in
  let present :=
    if existsb (fun e => stat_authorId e =? authorId) stats then stats
    else place (mkAuthorStat authorId (Post.authorEmail post) 0) stats in
  map (fun e =>
         if stat_authorId e =? authorId
         then mkAuthorStat (stat_authorId e) (stat_authorEmail e) (stat_postCount e + 1)
         else e)
      present.

(** [.sort((a, b) => b.postCount - a.postCount)]: the sort is stable. *)
Fixpoint insertByCount (e : authorStat) (sorted : list authorStat) : list authorStat :=
  match sorted with
  | [] => [e]
  | x :: rest =>
      if stat_postCount x <=? stat_postCount e then e :: sorted
      else x :: insertByCount e rest
  end.

Definition sortByCount (stats : list authorStat) : list authorStat :=
  fold_right insertByCount [] stats.

Definition statJson (e : authorStat) : json :=
  JObj [("authorId", JNum (stat_authorId e));
        ("authorEmail", Post.emailJson (stat_authorEmail e));
        ("postCount", JNum (stat_postCount e))].

(** [new Date(post.createdAt) > oneDayAgo]: an invalid date is newer
    than nothing. *)
Definition newerThan (oneDayAgo : Z) (post : Post.t) : bool :=
  match date_parse (Post.createdAt post) with
  | Some t => oneDayAgo <? t
  | None => false
  end.

(** The clock is read in whole seconds: [new Date().getTime()] is
    [1000 * now]. *)
Definition getPostStats (now : Z) (req : request) : M response :=
  try_catch
    (allPosts <- Post.findAll None ;;
     let totalPosts := Z.of_nat (List.length allPosts) in
     let authorStats := fold_left countPost allPosts [] in
     let topAuthors := firstn 5 (sortByCount authorStats) in
     let oneDayAgo := 1000 * now - 24 * 60 * 60 * 1000 in
     let recentPosts := Z.of_nat (List.length (filter (newerThan oneDayAgo) allPosts)) in
     ret (respond 200
            [("message", JStr "Post statistics retrieved successfully");
             ("stats",
              JObj [("totalPosts", JNum totalPosts);
                    ("postsLast24Hours", JNum recentPosts);
                    ("topAuthors", JArr (map statJson topAuthors));
                    ("totalAuthors", JNum (Z.of_nat (List.length authorStats)))])]))
    (fun _ => ret (unexpected "Failed to retrieve post statistics")).

End WithPlatform.
End postController.

(* ===================================================================== *)
(** ** routes/auth.js and routes/posts.js *)
(* ===================================================================== *)

Module Routes.

Section WithPlatform.
Context {P : Platform}.

(** [router.verb(path, authenticateToken, handler)]: the handler runs on
    the request the middleware passes on, or the middleware answers. *)
Definition protected (now : Z) (handler : request -> M response) (req : request)
  : M response :=
  o <- Auth.authenticateToken now req ;;
  match o with
  | Respond r => ret r
  | Next req' => handler req'
  end.

(** [router.param('id', ...)]: runs before the handlers of a route with
    [:id], the identity resolution included. *)
Definition withParamId (handler : request -> M response) (req : request) : M response :=
  if postController.notPositive (JS.parseInt (params_id req))
  then ret postController.invalidPostId
  else handler req.

Inductive route : Type :=
| POST_auth_register
| POST_auth_login
| GET_auth_me
| POST_auth_logout
| POST_auth_refresh
| GET_posts
| GET_posts_stats
| GET_posts_my
| POST_posts
| GET_posts_id
| PUT_posts_id
| DELETE_posts_id.

Definition handle (now : Z) (r : route) : request -> M response :=
  match r with
  | POST_auth_register => authController.register now
  | POST_auth_login => authController.login now
  | GET_auth_me => protected now authController.getCurrentUser
  | POST_auth_logout => protected now authController.logout
  | POST_auth_refresh => protected now (authController.refreshToken now)
  | GET_posts => postController.getAllPosts
  | GET_posts_stats => postController.getPostStats now
  | GET_posts_my => protected now postController.getMyPosts
  | POST_posts => protected now (postController.createPost now)
  | GET_posts_id => withParamId postController.getPostById
  | PUT_posts_id => withParamId (protected now postController.updatePost)
  | DELETE_posts_id => withParamId (protected now postController.deletePost)
  end.

End WithPlatform.
End Routes.

(* ===================================================================== *)
(** ** Sequences of update operations *)
(* ===================================================================== *)

(** The posts of [s'] are the posts of [s] up to title and content: the
    same ids, owners and creation times, row by row. *)
Definition sameIdentity (s s' : db) : Prop :=
  map post_id (posts s') = map post_id (posts s) /\
  map post_authorId (posts s') = map post_authorId (posts s) /\
  map post_createdAt (posts s') = map post_createdAt (posts s).

(** [updates s s']: the store [s'] is reached from [s] by update
    operations only, each one a call of the model method [Post.update] or
    of the handler [updatePost], whatever their arguments and outcome. *)
Inductive updates : db -> db -> Prop :=
| updates_none : forall s, updates s s
| updates_model : forall s s1 s2 this title content requester r,
    updates s s1 ->
    Post.update this title content requester s1 = (r, s2) ->
    updates s s2
| updates_handler : forall s s1 s2 req r,
    updates s s1 ->
    postController.updatePost req s1 = (r, s2) ->
    updates s s2.

(* ===================================================================== *)
(** ** What a request may do to the tables *)
(* ===================================================================== *)

(** [effect s s']: the tables of [s'] are those of [s], or those of [s]
    after one of the four writes of the backend: a user appended under a
    key above all keys and with an email no row has, a post appended under
    a key above all keys, the title and content of the posts of one key
    rewritten, the posts of one key removed. *)
Inductive effect (s s' : db) : Prop :=
| effect_none :
    users s' = users s -> posts s' = posts s -> effect s s'
| effect_user : forall u,
    users s' = (users s ++ [u])%list -> posts s' = posts s ->
    (forall v, In v (users s) ->
               user_id v < user_id u /\ user_email v <> user_email u) ->
    effect s s'
| effect_post : forall row,
    users s' = users s -> posts s' = (posts s ++ [row])%list ->
    (forall p, In p (posts s) -> post_id p < post_id row) ->
    effect s s'
| effect_update : forall title content id,
    users s' = users s ->
    posts s' = map (Database.updatePostRow title content id) (posts s) ->
    effect s s'
| effect_delete : forall id,
    users s' = users s ->
    posts s' = filter (fun p => negb (post_id p =? id)) (posts s) ->
    effect s s'.

(** No two users share an id or an email, no two posts share an id. *)
Definition keysUnique (s : db) : Prop :=
  NoDup (map user_id (users s)) /\
  NoDup (map user_email (users s)) /\
  NoDup (map post_id (posts s)).

(* ===================================================================== *)
(** ** A concrete platform and store for the examples *)
(* ===================================================================== *)

Module Demo.

Definition secret : string :=
  "your-super-secret-jwt-key-minimum-32-characters-long-for-security".

Definition opt_eqb {A} (eqb : A -> A -> bool) (x y : option A) : bool :=
  match x, y with
  | Some a, Some b => eqb a b
  | None, None => true
  | _, _ => false
  end.

Definition payload_eqb (p q : payload) : bool :=
  (opt_eqb Z.eqb (userId p) (userId q) && opt_eqb Z.eqb (iat p) (iat q) &&
   opt_eqb Z.eqb (nbf p) (nbf q) && opt_eqb Z.eqb (exp p) (exp q) &&
   opt_eqb String.eqb (iss p) (iss q) && opt_eqb String.eqb (aud p) (aud q))%bool.

Definition jws_eqb (a b : jws) : bool :=
  (opt_eqb String.eqb (signedWith a) (signedWith b) && payload_eqb (claims a) (claims b))%bool.

(** The claims [generateToken] writes for [uid] at time [t] with expiry [e]. *)
Definition issuedClaims (uid t e : Z) : payload :=
  mkPayload (Some uid) (Some t) None (Some e)
            (Some "blog-platform") (Some "blog-platform-users").

(** The tokens of the examples, by the strings that stand for their
    compact serializations: two tokens issued at time 1000 for seven days,
    one for ten seconds, one signed with the secret for another issuer and
    audience, one signed with another key, one for a subject without a
    row, and one that is not active yet. *)
Definition tokens : list (string * jws) :=
  [("alice.7d.jwt", mkJws (Some secret) (issuedClaims 1 1000 605800));
   ("bob.7d.jwt", mkJws (Some secret) (issuedClaims 2 1000 605800));
   ("alice.10s.jwt", mkJws (Some secret) (issuedClaims 1 1000 1010));
   ("foreign.jwt",
    mkJws (Some secret)
          (mkPayload (Some 1) (Some 1000) None (Some 605800)
                     (Some "another-service") (Some "its-users")));
   ("forged.jwt", mkJws (Some "guessed-key") (issuedClaims 1 1000 605800));
   ("gone.jwt", mkJws (Some secret) (issuedClaims 99 1000 605800));
   ("early.jwt",
    mkJws (Some secret)
          (mkPayload (Some 1) (Some 1000) (Some 5000) (Some 605800) None None))].

Fixpoint encode (table : list (string * jws)) (j : jws) : string :=
  match table with
  | [] => "unlisted.jwt"
  | (s, j') :: rest => if jws_eqb j j' then s else encode rest j
  end.

Fixpoint decode (table : list (string * jws)) (s : string) : option jws :=
  match table with
  | [] => None
  | (s', j) :: rest => if String.eqb s s' then Some j else decode rest s
  end.

Definition digest (password : string) : string := "$2a$12$" ++ password.

Definition platform : Platform := {|
  JWT_SECRET := secret;
  jws_encode := encode tokens;
  jws_decode := decode tokens;
  ms := fun s => if String.eqb s "7d" then Some 604800000 else None;
  bcrypt_hash := fun password _ => Ok (digest password);
  bcrypt_compare := fun password hash => Ok (String.eqb hash (digest password));
  js_less := fun _ _ => Ok false;
  date_parse := fun t => Some (1000 * t)
|}.

(** The same platform without [JWT_SECRET] in the environment. *)
Definition unconfigured : Platform := {|
  JWT_SECRET := "";
  jws_encode := encode tokens;
  jws_decode := decode tokens;
  ms := fun s => if String.eqb s "7d" then Some 604800000 else None;
  bcrypt_hash := fun password _ => Ok (digest password);
  bcrypt_compare := fun password hash => Ok (String.eqb hash (digest password));
  js_less := fun _ _ => Ok false;
  date_parse := fun t => Some (1000 * t)
|}.

Definition alice : userRow := mkUserRow 1 "a@x.com" (digest "secret1") 900.
Definition bob : userRow := mkUserRow 2 "b@x.com" (digest "secret2") 950.

Definition hello : postRow := mkPostRow 1 "Hi There" "This is long enough" 1 1000.

Definition store : db := mkDb [alice; bob] [hello] 2 1 None.

(** A request with the given Authorization header and nothing else. *)
Definition withHeader (h : option string) : request :=
  mkRequest h "" None None None None None Undefined Undefined.

(** A request on the post [id] with a header and a body. *)
Definition onPost (h : string) (id : string) (title content : option string) : request :=
  mkRequest (Some h) id None None None (option_map VStr title) (option_map VStr content)
            Undefined Undefined.

(** A request with credentials in its body. *)
Definition credentials (email password : string) : request :=
  mkRequest None "" None (Some (VStr email)) (Some (VStr password)) None None
            Undefined Undefined.

(** A request that carries the email with a number in the place of the
    password. *)
Definition numericPassword (email shown : string) : request :=
  mkRequest None "" None (Some (VStr email)) (Some (VNum shown)) None None
            Undefined Undefined.

(** Two hundred and one characters without a space, and a text of more
    than two hundred characters whose character 199 is a space. *)
Fixpoint repeat (c : ascii) (n : nat) : string :=
  match n with
  | O => EmptyString
  | S n' => String c (repeat c n')
  end.

Definition longPost : Post.t :=
  Post.mk 7 "A long read" (repeat "a" 199 ++ " " ++ repeat "b" 50) 1 1500 (Some "a@x.com").

Definition noSpaces : string := repeat "a" 201.
Definition longText : string := repeat "a" 199 ++ " " ++ repeat "b" 50.

(** The request [req] as the middleware passes it on for the user [u]. *)
Definition attached (req : request) (u : userRow) : request :=
  attach req (Val (User.toSafeObject u)) (Val (user_id u)).

(** A request for the list of posts of the author [a]. *)
Definition byAuthor (a : string) : request :=
  mkRequest None "" (Some (VStr a)) None None None None Undefined Undefined.

(** The example store with three posts, written at different times. *)
Definition busy : db :=
  mkDb [alice; bob]
       [hello;
        mkPostRow 2 "Second" "Written last of the three" 2 3000;
        mkPostRow 3 "Third" "Written between the two" 1 2000]
       2 3 None.

(** The example store while the database file is locked. *)
Definition locked : db :=
  mkDb [alice; bob] [hello] 2 1 (Some "SQLITE_BUSY: database is locked").

(** The example store with a second post, of more than two hundred
    characters, by the first user. *)
Definition longRead : postRow := mkPostRow 7 "A long read" longText 1 1500.

Definition wordy : db := mkDb [alice; bob] [hello; longRead] 2 7 None.

(** A request for the post [id], without credentials. *)
Definition reading (id : string) : request :=
  mkRequest None id None None None None None Undefined Undefined.

End Demo.
Example trim_ex : JS.trim "  Hi There  " = "Hi There".
Proof. reflexivity. Qed.
Example trim_blank_ex : JS.trim "   " = "".
Proof. reflexivity. Qed.
Example split_ex : JS.split " " "Bearer abc def" = ["Bearer"; "abc"; "def"].
Proof. reflexivity. Qed.
Example split_ex2 : JS.split " " "Bearer " = ["Bearer"; ""].
Proof. reflexivity. Qed.
Example lastIndexOf_ex : JS.lastIndexOf " " "ab cd ef" = 5.
Proof. reflexivity. Qed.
Example lastIndexOf_none_ex : JS.lastIndexOf " " "abcdef" = -1.
Proof. reflexivity. Qed.
Example substring_ex : JS.substring 0 (-1) "abcdef" = "".
Proof. reflexivity. Qed.
Example substring_ex2 : JS.substring 0 3 "abcdef" = "abc".
Proof. reflexivity. Qed.
Example parseInt_ex : JS.parseInt " 42abc" = Some (JS.Int 42).
Proof. reflexivity. Qed.
Example parseInt_nan_ex : JS.parseInt "abc" = None.
Proof. reflexivity. Qed.
Example includes_ex : JS.includes "only edit your own posts" "Failed to update post: You can only edit your own posts" = true.
Proof. reflexivity. Qed.

(* ===================================================================== *)
(** ** Facts about the string primitives *)
(* ===================================================================== *)

Lemma length_app (a b : string) :
  String.length (a ++ b) = (String.length a + String.length b)%nat.
Proof. induction a as [|c a IH]; simpl; [reflexivity | now rewrite IH]. Qed.

Lemma app_assoc_str (a b c : string) : (a ++ b) ++ c = a ++ (b ++ c).
Proof. induction a as [|x a IH]; simpl; [reflexivity | now rewrite IH]. Qed.

(** The first [m] characters of a string and the rest. *)
Lemma take_split (m : nat) (s : string) :
  exists rest, s = String.substring 0 m s ++ rest /\
               String.length (String.substring 0 m s) = Nat.min m (String.length s).
Proof.
  revert s; induction m as [|m IH]; intros s.
  - exists s. destruct s; simpl; auto.
  - destruct s as [|c s]; simpl.
    + exists EmptyString; auto.
    + destruct (IH s) as [rest [E L]]. exists rest. split.
      * now rewrite <- E.
      * now rewrite L.
Qed.

Lemma take_prefix (pre rest : string) :
  String.substring 0 (String.length pre) (pre ++ rest) = pre.
Proof.
  induction pre as [|c pre IH]; simpl.
  - destruct rest; reflexivity.
  - now rewrite IH.
Qed.

Lemma substring_take (s : string) (n : Z) :
  0 <= n <= JS.length s ->
  exists rest, s = JS.substring 0 n s ++ rest /\ JS.length (JS.substring 0 n s) = n.
Proof.
  intros H. unfold JS.substring, JS.length in *.
  replace (Z.min (Z.max 0 (Z.min 0 (Z.of_nat (String.length s))))
                 (Z.max 0 (Z.min n (Z.of_nat (String.length s))))) with 0 by lia.
  replace (Z.max (Z.max 0 (Z.min 0 (Z.of_nat (String.length s))))
                 (Z.max 0 (Z.min n (Z.of_nat (String.length s)))) - 0) with n by lia.
  simpl (Z.to_nat 0).
  destruct (take_split (Z.to_nat n) s) as [rest [E L]].
  exists rest. split; [exact E | rewrite L; lia].
Qed.

Lemma substring_prefix (pre rest : string) :
  JS.substring 0 (JS.length pre) (pre ++ rest) = pre.
Proof.
  unfold JS.substring, JS.length. rewrite length_app.
  replace (Z.min _ _) with 0 by lia.
  replace (Z.max _ _ - 0) with (Z.of_nat (String.length pre)) by lia.
  rewrite Nat2Z.id. apply take_prefix.
Qed.

Lemma substring_nonpositive (s : string) (k : Z) :
  k <= 0 -> JS.substring 0 k s = "".
Proof.
  intros H. unfold JS.substring, JS.length.
  replace (Z.min _ _) with 0 by lia.
  replace (Z.max _ _ - 0) with 0 by lia.
  simpl. destruct s; reflexivity.
Qed.

Lemma includes_char_cons (c x : ascii) (s : string) :
  JS.includes (String c "") (String x s) =
  (Ascii.eqb x c || JS.includes (String c "") s)%bool.
Proof.
  cbn [JS.includes String.prefix].
  destruct (ascii_dec c x) as [->|N].
  - rewrite Ascii.eqb_refl. now destruct s.
  - destruct (Ascii.eqb_spec x c) as [->|_]; [congruence | reflexivity].
Qed.

(** [lastIndexOf] finds the last occurrence: either the character does not
    occur and the accumulator comes back, or the string splits around its
    last occurrence and the result is the index of that occurrence. *)
Lemma lastIndexOf_from_spec (c : ascii) (s : string) :
  forall i acc,
    (JS.includes (String c "") s = false /\ JS.lastIndexOf_from c s i acc = acc) \/
    (exists pre post,
        s = pre ++ String c post /\
        JS.includes (String c "") post = false /\
        JS.lastIndexOf_from c s i acc = i + JS.length pre).
Proof.
  induction s as [|x s IH]; intros i acc.
  - left. split; reflexivity.
  - cbn [JS.lastIndexOf_from]. rewrite includes_char_cons.
    destruct (IH (i + 1) (if Ascii.eqb x c then i else acc))
      as [[Hno Hr] | [pre [post [E [Hno Hr]]]]].
    + destruct (Ascii.eqb_spec x c) as [->|N].
      * right. exists "", s. repeat split; auto.
        rewrite Hr. unfold JS.length. simpl. lia.
      * left. split; [now rewrite Hno | exact Hr].
    + right. exists (String x pre), post. repeat split.
      * now rewrite E.
      * exact Hno.
      * rewrite Hr. unfold JS.length. simpl String.length. lia.
Qed.

Lemma lastIndexOf_spec (c : ascii) (s : string) :
  (JS.includes (String c "") s = false /\ JS.lastIndexOf c s = -1) \/
  (exists pre post,
      s = pre ++ String c post /\
      JS.includes (String c "") post = false /\
      JS.lastIndexOf c s = JS.length pre).
Proof.
  unfold JS.lastIndexOf.
  destruct (lastIndexOf_from_spec c s 0 (-1)) as [H | [pre [post [E [Hno Hr]]]]].
  - now left.
  - right. exists pre, post. repeat split; auto.
Qed.

(** The preview of a long text: the first 200 characters, cut before their
    last space, then the ellipsis. *)
Lemma summary_long (content : string) :
  200 < JS.length content ->
  Post.cutAtLastSpace content (Post.summary 200 content).
Proof.
  intros Hlen. unfold Post.summary, Post.cutAtLastSpace.
  destruct (Z.ltb_spec 200 (JS.length content)) as [_|]; [|lia].
  destruct (substring_take content 200 ltac:(lia)) as [rest [E L]].
  exists (JS.substring 0 200 content), rest.
  split; [exact E|]. split; [exact L|].
  destruct (lastIndexOf_spec " " (JS.substring 0 200 content))
    as [[Hno Hr] | [pre [post [Et [Hno Hr]]]]].
  - left. split; [exact Hno|]. rewrite Hr.
    now rewrite substring_nonpositive by lia.
  - right. exists pre, post. split; [exact Et|]. split; [exact Hno|].
    rewrite Hr. rewrite Et at 1. now rewrite substring_prefix.
Qed.

Lemma app_inv_head_str (a b c : string) : a ++ b = a ++ c -> b = c.
Proof. induction a as [|x a IH]; simpl; intros H; [exact H | injection H; auto]. Qed.

(** A cut text is never the text itself and is at most 202 characters
    long: at most 199 kept characters and the ellipsis. *)
Lemma cutAtLastSpace_bounds (content preview : string) :
  200 < JS.length content ->
  Post.cutAtLastSpace content preview ->
  preview <> content /\ JS.length preview <= 202.
Proof.
  intros Hlen [truncated [rest [E [L [[_ Hp] | [pre [post [Et [_ Hp]]]]]]]]].
  - subst preview. split; [|unfold JS.length; simpl; lia].
    intros C. rewrite <- C in Hlen. unfold JS.length in Hlen. simpl in Hlen. lia.
  - assert (Hpre : JS.length pre <= 199).
    { rewrite Et in L. unfold JS.length in *.
      rewrite !length_app in L. simpl String.length in L. lia. }
    split.
    + intros C. rewrite Hp, E, Et in C.
      rewrite !app_assoc_str in C. apply app_inv_head_str in C.
      simpl in C. discriminate C.
    + rewrite Hp. unfold JS.length in *. rewrite length_app. simpl String.length. lia.
Qed.

(* ===================================================================== *)
(** ** Running the monad *)
(* ===================================================================== *)

(** Unfolds the monad and splits on every test met on the way. *)
Ltac unfold_monad :=
  unfold rethrow, lift, Database.getQuery, Database.allQuery, Database.runQuery,
    try_catch, bind, ret, throw in *;
  cbv beta in *.

Ltac split_match :=
  match goal with
  | H : context [match ?x with _ => _ end] |- _ => destruct x eqn:?
  | H : context [if ?x then _ else _] |- _ => destruct x eqn:?
  | |- context [match ?x with _ => _ end] => destruct x eqn:?
  | |- context [if ?x then _ else _] => destruct x eqn:?
  end.

Ltac inv H := inversion H; subst; clear H.

(** Splits the run [H] of a handler into its cases, innermost test
    first. *)
Ltac handler_step H :=
  cbv beta iota in H;
  lazymatch type of H with
  | (_, _) = (_, _) => fail
  | context [match ?x with _ => _ end] =>
      match type of H with
      | context [match ?y with _ => _ end] =>
          lazymatch y with
          | context [match _ with _ => _ end] => fail
          | _ => destruct y eqn:?
          end
      end
  end.

Ltac handler_cases H :=
  unfold_monad; repeat handler_step H; cbv beta iota in H; inv H.

Section Properties.
Context {P : Platform}.

(** Reads leave the store as it is. *)
Lemma User_findById_reads (id : option JS.number) (s s' : db) (r : result (option User.t)) :
  User.findById id s = (r, s') -> s' = s.
Proof. unfold User.findById. intros H. handler_cases H; reflexivity. Qed.

Lemma User_findByEmail_reads (e : string) (s s' : db) (r : result (option User.t)) :
  User.findByEmail e s = (r, s') -> s' = s.
Proof. unfold User.findByEmail. intros H. handler_cases H; reflexivity. Qed.

Lemma Post_findById_reads (i : JS.number) (s s' : db) (r : result (option Post.t)) :
  Post.findById i s = (r, s') -> s' = s.
Proof. unfold Post.findById. intros H. handler_cases H; reflexivity. Qed.

Lemma Post_findAll_reads (a : option JS.number) (s s' : db) (r : result (list Post.t)) :
  Post.findAll a s = (r, s') -> s' = s.
Proof. unfold Post.findAll. intros H. handler_cases H; reflexivity. Qed.

(** The finders, as functions of the store. *)
Lemma Post_findById_eq (i : JS.number) (s : db) :
  Post.findById i s =
  (match fault s with
   | Some msg => Throw (Error ("Failed to find post: " ++ msg))
   | None => Ok (option_map Post.ofRow (Database.selectPostById i s))
   end, s).
Proof.
  unfold Post.findById. unfold_monad.
  destruct (fault s); [reflexivity|].
  destruct (Database.selectPostById i s); reflexivity.
Qed.

Lemma User_findById_eq (i : option JS.number) (s : db) :
  User.findById i s =
  (match fault s with
   | Some msg => Throw (Error ("Failed to find user by ID: " ++ msg))
   | None => Ok (Database.selectUserById i s)
   end, s).
Proof.
  unfold User.findById. unfold_monad.
  destruct (fault s); [reflexivity|].
  destruct (Database.selectUserById i s); reflexivity.
Qed.

Lemma User_findByEmail_eq (e : string) (s : db) :
  User.findByEmail e s =
  (match fault s with
   | Some msg => Throw (Error ("Failed to find user by email: " ++ msg))
   | None => Ok (Database.selectUserByEmail e s)
   end, s).
Proof.
  unfold User.findByEmail. unfold_monad.
  destruct (fault s); [reflexivity|].
  destruct (Database.selectUserByEmail e s); reflexivity.
Qed.

Lemma Post_findAll_eq (a : option JS.number) (s : db) :
  Post.findAll a s =
  (match fault s with
   | Some msg => Throw (Error ("Failed to fetch posts: " ++ msg))
   | None =>
       Ok (map Post.ofRow
             (Database.selectPosts (if truthyNum a then a else None) s))
   end, s).
Proof.
  unfold Post.findAll. unfold_monad. destruct (fault s); reflexivity.
Qed.

(** A user found by id or by email is a row of the table. *)
Lemma User_findById_stored (id : option JS.number) (s s' : db) (u : User.t) :
  User.findById id s = (Ok (Some u), s') ->
  In u (users s) /\ id = Some (JS.Int (user_id u)).
Proof.
  rewrite User_findById_eq. intros H.
  destruct (fault s); [discriminate H|]. injection H as F _.
  destruct id as [[i| |]|]; cbn in F; try discriminate F.
  apply find_some in F. destruct F as [Hin Hid].
  apply Z.eqb_eq in Hid. subst. auto.
Qed.

Lemma User_findByEmail_stored (e : string) (s s' : db) (u : User.t) :
  User.findByEmail e s = (Ok (Some u), s') ->
  In u (users s) /\ user_email u = e.
Proof.
  unfold User.findByEmail, Database.selectUserByEmail. intros H. handler_cases H.
  match goal with
  | F : find _ _ = Some _ |- _ => apply find_some in F; destruct F as [Hin Hid]
  end.
  apply String.eqb_eq in Hid. auto.
Qed.

(** A post found by id carries the fields of a row of the table. *)
Lemma Post_findById_stored (i : JS.number) (s s' : db) (p : Post.t) :
  Post.findById i s = (Ok (Some p), s') ->
  exists row, In row (posts s) /\ i = JS.Int (post_id row) /\
              p = Post.ofRow (Database.joinAuthor s row).
Proof.
  rewrite Post_findById_eq. intros H.
  destruct (fault s); [discriminate H|]. injection H as F _.
  destruct i as [i| |]; cbn in F; try discriminate F.
  destruct (find (fun p0 => post_id p0 =? i) (posts s)) as [row|] eqn:Hf;
    cbn in F; [|discriminate F].
  injection F as <-.
  apply find_some in Hf. destruct Hf as [Hin Hid]. apply Z.eqb_eq in Hid.
  exists row. subst. auto.
Qed.

End Properties.

(* ===================================================================== *)
(** ** Identity resolution *)
(* ===================================================================== *)

Section Resolution.
Context {P : Platform}.

Lemma bearer_none (req : request) :
  Auth.bearer req = None ->
  Auth.noBearer (authorization req) = true \/
  (Auth.noBearer (authorization req) = false /\
   truthyStr (Auth.tokenOf (str (authorization req))) = false).
Proof.
  unfold Auth.bearer. destruct (Auth.noBearer (authorization req)); [now left|].
  destruct (truthyStr (Auth.tokenOf (str (authorization req)))) eqn:T; [|now right].
  intros H. rewrite H in T. discriminate T.
Qed.

Lemma bearer_some (req : request) (tok : string) :
  Auth.bearer req = Some tok ->
  Auth.noBearer (authorization req) = false /\
  Auth.tokenOf (str (authorization req)) = Some tok /\
  truthyStr (Some tok) = true /\ JS.isEmpty tok = false.
Proof.
  unfold Auth.bearer. destruct (Auth.noBearer (authorization req)); [discriminate|].
  destruct (truthyStr (Auth.tokenOf (str (authorization req)))) eqn:T; [|discriminate].
  intros H. rewrite H in T. repeat split; auto. now destruct tok.
Qed.

(** What mandatory resolution does, case by case. The store is only read. *)
Lemma authenticateToken_eq (now : Z) (req : request) (s : db) :
  Auth.authenticateToken now req s =
  (Ok match Auth.bearer req with
      | None =>
          if Auth.noBearer (authorization req) then
            Respond (errorResponse 401
                       "Access denied. No valid token provided."
                       "Please include a valid JWT token in the Authorization header")
          else
            Respond (errorResponse 401
                       "Access denied. Token format is invalid."
                       "Token should be provided as: Bearer <your-token>")
      | Some tok =>
          match Jwt.verify now tok JWT_SECRET noOptions with
          | Throw e => Respond (Auth.onJwtError e)
          | Ok decoded =>
              match fst (User.findById (option_map JS.Int (userId decoded)) s) with
              | Ok (Some u) =>
                  Next (attach req (Val (User.toSafeObject u)) (Val (user_id u)))
              | Ok None =>
                  Respond (errorResponse 401
                             "User no longer exists"
                             "The account associated with this token has been removed")
              | Throw _ =>
                  Respond (errorResponse 500
                             "Internal server error during authentication"
                             "Please try again later")
              end
          end
      end, s).
Proof.
  unfold Auth.authenticateToken.
  destruct (Auth.bearer req) as [tok|] eqn:B.
  - apply bearer_some in B. destruct B as [B1 [B2 [B3 _]]].
    unfold try_catch, bind, ret. rewrite B1, B2, B3. cbn [negb str].
    destruct (Jwt.verify now tok JWT_SECRET noOptions) as [decoded|e].
    + destruct (User.findById (option_map JS.Int (userId decoded)) s) as [[[u|]|e] s1] eqn:F;
        apply User_findById_reads in F; subst s1; reflexivity.
    + unfold Auth.onJwtError.
      destruct (String.eqb (name e) "TokenExpiredError"); [reflexivity|].
      destruct (String.eqb (name e) "JsonWebTokenError"); reflexivity.
  - apply bearer_none in B. unfold try_catch, ret.
    destruct B as [B | [B1 B2]].
    + now rewrite B.
    + now rewrite B1, B2.
Qed.

(** What optional resolution does, case by case. *)
Lemma optionalAuth_eq (now : Z) (req : request) (s : db) :
  Auth.optionalAuth now req s =
  (Ok (Next match Auth.bearer req with
            | None => attach req Null Null
            | Some tok =>
                match Jwt.verify now tok JWT_SECRET noOptions with
                | Throw _ => attach req Null Null
                | Ok decoded =>
                    match fst (User.findById (option_map JS.Int (userId decoded)) s) with
                    | Ok (Some u) =>
                        attach req (Val (User.toSafeObject u)) (Val (user_id u))
                    | _ => attach req Null Null
                    end
                end
            end), s).
Proof.
  unfold Auth.optionalAuth.
  destruct (Auth.bearer req) as [tok|] eqn:B.
  - apply bearer_some in B. destruct B as [B1 [B2 [B3 _]]].
    unfold lift, try_catch, bind, ret, throw. rewrite B1, B2, B3. cbn [negb str].
    destruct (Jwt.verify now tok JWT_SECRET noOptions) as [decoded|e]; [|reflexivity].
    destruct (User.findById (option_map JS.Int (userId decoded)) s) as [[[u|]|e] s1] eqn:F;
      apply User_findById_reads in F; subst s1; reflexivity.
  - apply bearer_none in B. unfold try_catch, ret.
    destruct B as [B | [B1 B2]].
    + now rewrite B.
    + now rewrite B1, B2.
Qed.

(** C3 (amended). Mandatory identity resolution, for every request and
    every state of the store, answers or goes on without throwing and
    without writing, and which of the two is decided by this case
    analysis, in this order: no bearer value, 401 as a missing credential;
    the token fails verification as expired, 401 "Token has expired"; as
    malformed or forged, 401 "Invalid token"; for another reason (a token
    that is not active yet), 401 "Token verification failed"; the token
    verifies and the lookup of its subject fails, 500; the lookup finds
    no row, 401 "User no longer exists"; the lookup finds the row, the
    request goes on with [req.user] set to the safe view
    [{ id, email, createdAt }] of the row and [req.userId] to its id, and
    is otherwise as it came. *)
Theorem mandatory_resolution_cases (now : Z) (req : request) (s : db) :
  exists o,
    Auth.authenticateToken now req s = (Ok o, s) /\
    match Auth.bearer req with
    | None =>
        exists err details,
          o = Respond (errorResponse 401 err details) /\
          JS.startsWith "Access denied." err = true
    | Some tok =>
        match Jwt.verify now tok JWT_SECRET noOptions with
        | Throw e =>
            if String.eqb (name e) "TokenExpiredError" then
              o = Respond (errorResponse 401 "Token has expired"
                             "Please log in again to get a new token")
            else if String.eqb (name e) "JsonWebTokenError" then
              o = Respond (errorResponse 401 "Invalid token"
                             "The provided token is malformed or invalid")
            else
              o = Respond (errorResponse 401 "Token verification failed" (message e))
        | Ok decoded =>
            match fault s with
            | Some _ =>
                o = Respond (errorResponse 500
                               "Internal server error during authentication"
                               "Please try again later")
            | None =>
                match Database.selectUserById (option_map JS.Int (userId decoded)) s with
                | None =>
                    o = Respond (errorResponse 401 "User no longer exists"
                                   "The account associated with this token has been removed")
                | Some u =>
                    exists req',
                      o = Next req' /\
                      req_user req' = Val (JObj [("id", JNum (user_id u));
                                                 ("email", JStr (user_email u));
                                                 ("createdAt", JNum (user_createdAt u))]) /\
                      req_userId req' = Val (user_id u) /\
                      authorization req' = authorization req /\
                      params_id req' = params_id req /\
                      query_author req' = query_author req /\
                      body_email req' = body_email req /\
                      body_password req' = body_password req /\
                      body_title req' = body_title req /\
                      body_content req' = body_content req
                end
            end
        end
    end.
Proof.
  rewrite authenticateToken_eq. eexists. split; [reflexivity|].
  destruct (Auth.bearer req) as [tok|].
  - destruct (Jwt.verify now tok JWT_SECRET noOptions) as [decoded|e].
    + rewrite User_findById_eq. cbn [fst].
      destruct (fault s); [reflexivity|].
      destruct (Database.selectUserById (option_map JS.Int (userId decoded)) s) as [u|];
        [|reflexivity].
      eexists. split; [reflexivity|]. cbn. repeat split.
    + unfold Auth.onJwtError.
      destruct (String.eqb (name e) "TokenExpiredError"); [reflexivity|].
      destruct (String.eqb (name e) "JsonWebTokenError"); reflexivity.
  - destruct (Auth.noBearer (authorization req));
      eexists; eexists; split; reflexivity.
Qed.

(** C8. Optional identity resolution always goes on to the handler, with
    the store as it was; it never answers itself and never throws. The
    request it passes on is the request as it came but for [req.user] and
    [req.userId]: when mandatory resolution goes on, these are what that
    one attaches (the safe view and the id of the row found), and
    whenever that one answers instead (no bearer value, a token that is
    expired, malformed or fails otherwise, a subject without a row, a
    failing lookup), both are [null]. *)
Theorem optional_resolution_never_rejects (now : Z) (req : request) (s : db) :
  exists req',
    Auth.optionalAuth now req s = (Ok (Next req'), s) /\
    authorization req' = authorization req /\
    params_id req' = params_id req /\
    query_author req' = query_author req /\
    body_email req' = body_email req /\
    body_password req' = body_password req /\
    body_title req' = body_title req /\
    body_content req' = body_content req /\
    match Auth.authenticateToken now req s with
    | (Ok (Next resolved), _) =>
        req' = resolved /\
        exists u,
          In u (users s) /\
          req_user req' = Val (JObj [("id", JNum (user_id u));
                                     ("email", JStr (user_email u));
                                     ("createdAt", JNum (user_createdAt u))]) /\
          req_userId req' = Val (user_id u)
    | _ => req_user req' = Null /\ req_userId req' = Null
    end.
Proof.
  rewrite optionalAuth_eq, authenticateToken_eq. eexists. split; [reflexivity|].
  destruct (Auth.bearer req) as [tok|].
  - destruct (Jwt.verify now tok JWT_SECRET noOptions) as [decoded|e];
      [|cbn; repeat split].
    destruct (User.findById (option_map JS.Int (userId decoded)) s)
      as [[[u|]|e] s1] eqn:F; cbn [fst]; try (cbn; repeat split).
    apply User_findById_stored in F. destruct F as [Hin _].
    exists u. repeat split. exact Hin.
  - destruct (Auth.noBearer (authorization req)); cbn; repeat split.
Qed.

(* ===================================================================== *)
(** ** Tokens *)
(* ===================================================================== *)

(** A token that verifies (without options) decodes, carries the
    signature of the secret, which is not empty, is active and has not
    expired. *)
Lemma verify_ok_inv (now : Z) (tok secret : string) (p : payload) :
  Jwt.verify now tok secret noOptions = Ok p ->
  exists j,
    jws_decode tok = Some j /\ claims j = p /\ signedWith j = Some secret /\
    (forall e, exp p = Some e -> now < e) /\
    (forall n, nbf p = Some n -> n <= now).
Proof.
  unfold Jwt.verify.
  destruct (JS.isEmpty tok); [discriminate|].
  destruct (jws_decode tok) as [j|]; [|discriminate].
  destruct (signedWith j) as [k|] eqn:K;
    [|destruct (JS.isEmpty secret); discriminate].
  destruct (JS.isEmpty secret); [discriminate|].
  destruct (String.eqb_spec k secret) as [->|]; [|discriminate].
  set (nb := match nbf (claims j) with Some n => now <? n | None => false end).
  set (ex := match exp (claims j) with Some e => e <=? now | None => false end).
  destruct nb eqn:Nb; [discriminate|]. destruct ex eqn:Ex; [discriminate|].
  cbn. intros H; inv H. exists j. repeat split; auto.
  - intros e He. subst ex. rewrite He in Ex. now apply Z.leb_gt in Ex.
  - intros n Hn. subst nb. rewrite Hn in Nb. now apply Z.ltb_ge in Nb.
Qed.

(** Every answer of [authenticateToken] to a verification error is a 401. *)
Lemma onJwtError_401 (e : error) : status (Auth.onJwtError e) = 401.
Proof.
  unfold Auth.onJwtError.
  destruct (String.eqb (name e) "TokenExpiredError"); [reflexivity|].
  destruct (String.eqb (name e) "JsonWebTokenError"); reflexivity.
Qed.

(** C1 (amended). Before the subject of a token is trusted, mandatory
    identity resolution has checked its signature against the secret and
    its expiry against the clock: a bearer value that does not decode, whose
    signature is not the secret's, or whose expiry is at or before the
    current time is answered with a 401 and nothing is attached; whenever
    an identity is attached, the token is signed with the secret, has not
    expired, and its subject is the id of the row whose safe view and id
    are attached. *)
Theorem signature_and_expiry_gate (now : Z) (req : request) (s : db) :
  (forall tok,
      Auth.bearer req = Some tok ->
      (jws_decode tok = None \/
       exists j, jws_decode tok = Some j /\
                 (signedWith j <> Some JWT_SECRET \/
                  exists e, exp (claims j) = Some e /\ e <= now)) ->
      exists r, Auth.authenticateToken now req s = (Ok (Respond r), s) /\
                status r = 401) /\
  (forall req' s',
      Auth.authenticateToken now req s = (Ok (Next req'), s') ->
      exists tok j u,
        Auth.bearer req = Some tok /\ jws_decode tok = Some j /\
        signedWith j = Some JWT_SECRET /\
        (forall e, exp (claims j) = Some e -> now < e) /\
        In u (users s) /\ userId (claims j) = Some (user_id u) /\
        req' = attach req (Val (User.toSafeObject u)) (Val (user_id u)) /\
        req_user req' = Val (User.toSafeObject u) /\
        req_userId req' = Val (user_id u)).
Proof.
  rewrite authenticateToken_eq. split.
  - intros tok B Bad. rewrite B.
    destruct (Jwt.verify now tok JWT_SECRET noOptions) as [p|err] eqn:V.
    + exfalso. destruct (verify_ok_inv _ _ _ _ V) as [j [D [C [K [E _]]]]].
      destruct Bad as [N | [j' [D' [K' | [e [E' L]]]]]].
      * congruence.
      * rewrite D in D'. inv D'. contradiction.
      * rewrite D in D'. inv D'. specialize (E _ E'). lia.
    + eexists. split; [reflexivity | apply onJwtError_401].
  - intros req' s' H.
    destruct (Auth.bearer req) as [tok|] eqn:B.
    + destruct (Jwt.verify now tok JWT_SECRET noOptions) as [p|err] eqn:V; [|inv H].
      destruct (User.findById (option_map JS.Int (userId p)) s)
        as [[[u|]|err] s1] eqn:F; cbn [fst] in H; inv H.
      destruct (verify_ok_inv _ _ _ _ V) as [j [D [C [K [E _]]]]].
      apply User_findById_stored in F. destruct F as [Hin Hid].
      exists tok, j, u. subst p.
      destruct (userId (claims j)) as [i|]; [|discriminate Hid]. inv Hid.
      repeat split; auto.
    + destruct (Auth.noBearer (authorization req)); inv H.
Qed.

(** C9. The token [generateToken] issues for [uid] with a time to live
    verifies with subject [uid] at every time strictly before its expiry,
    and at or after its expiry verification fails with the expired error,
    which mandatory resolution answers as expired, not as invalid. *)
Theorem issue_then_verify (now uid : Z) (ttl : timespan) (e : Z) :
  JS.isEmpty JWT_SECRET = false ->
  ttl <> Span "" ->
  Jwt.expiryOf ttl now = Some e ->
  JS.isEmpty (jws_encode (Auth.issued now uid e)) = false ->
  jws_decode (jws_encode (Auth.issued now uid e)) = Some (Auth.issued now uid e) ->
  Auth.generateToken now uid ttl = Ok (jws_encode (Auth.issued now uid e)) /\
  (forall t, t < e ->
     exists p, Jwt.verify t (jws_encode (Auth.issued now uid e)) JWT_SECRET noOptions = Ok p /\
               userId p = Some uid) /\
  (forall t, e <= t ->
     Jwt.verify t (jws_encode (Auth.issued now uid e)) JWT_SECRET noOptions
     = Throw Jwt.TokenExpiredError) /\
  (forall t req s, e <= t ->
     Auth.bearer req = Some (jws_encode (Auth.issued now uid e)) ->
     Auth.authenticateToken t req s =
     (Ok (Respond (errorResponse 401 "Token has expired"
                     "Please log in again to get a new token")), s)).
Proof.
  intros Hs Httl He Hne Hdec.
  assert (Hexpired : forall t, e <= t ->
     Jwt.verify t (jws_encode (Auth.issued now uid e)) JWT_SECRET noOptions
     = Throw Jwt.TokenExpiredError).
  { intros t Ht. unfold Jwt.verify. rewrite Hne, Hdec, Hs. cbn.
    rewrite String.eqb_refl.
    destruct (Z.leb_spec e t); [reflexivity | lia]. }
  split; [|split; [|split]].
  - unfold Auth.generateToken, Jwt.sign. rewrite Hs. cbn.
    replace (if now =? 0 then now else now) with now by (destruct (now =? 0); reflexivity).
    destruct ttl as [n | sp].
    + cbn in He |- *. inv He. reflexivity.
    + destruct sp as [|c sp]; [congruence|].
      rewrite He. reflexivity.
  - intros t Ht. unfold Jwt.verify. rewrite Hne, Hdec, Hs. cbn.
    rewrite String.eqb_refl.
    destruct (Z.leb_spec e t); [lia|]. eexists. split; reflexivity.
  - exact Hexpired.
  - intros t req s Ht B. rewrite authenticateToken_eq, B, (Hexpired t Ht). reflexivity.
Qed.

End Resolution.

(* ===================================================================== *)
(** ** The ownership gate *)
(* ===================================================================== *)

Section Ownership.
Context {P : Platform}.

Lemma notAuthor_other (this : Post.t) (B : Z) :
  Post.authorId this <> B -> Post.notAuthor this (Val B) = true.
Proof. intros H. unfold Post.notAuthor. now apply Z.eqb_neq in H; rewrite H. Qed.

Lemma update_forbidden (this : Post.t) (B : Z) (title content : option value) (s : db) :
  Post.authorId this <> B ->
  Post.update this title content (Val B) s =
  (Throw (Error "Failed to update post: You can only edit your own posts"), s).
Proof.
  intros H. unfold Post.update. unfold_monad. now rewrite (notAuthor_other _ _ H).
Qed.

Lemma delete_forbidden (this : Post.t) (B : Z) (s : db) :
  Post.authorId this <> B ->
  Post.delete this (Val B) s =
  (Throw (Error "Failed to delete post: You can only delete your own posts"), s).
Proof.
  intros H. unfold Post.delete. unfold_monad. now rewrite (notAuthor_other _ _ H).
Qed.

(** C2. For a post of owner [A] and a requesting identity [B] other than
    [A], [update] (whatever the title and content) and [delete] throw the
    ownership error, which the handlers answer with 403 Permission denied
    (not the 404 of a missing post nor the 401 of a missing identity), and
    the store, hence the post's title, content and owner, is as before the
    call. The handlers [updatePost] (given a title and a content) and
    [deletePost] answer such a request with that 403 and leave the store
    as it was. *)
Theorem non_owner_is_forbidden (this : Post.t) (B : Z) (s : db) :
  Post.authorId this <> B ->
  (forall title content,
      exists e,
        Post.update this title content (Val B) s = (Throw e, s) /\
        postController.onUpdateError e s =
        (Ok (errorResponse 403 "Permission denied" "You can only edit your own posts"), s)) /\
  (exists e,
      Post.delete this (Val B) s = (Throw e, s) /\
      postController.onDeleteError e s =
      (Ok (errorResponse 403 "Permission denied" "You can only delete your own posts"), s)) /\
  (forall req,
      req_userId req = Val B -> B <> 0 ->
      JS.parseInt (params_id req) = Some (JS.Int (Post.id this)) -> 0 < Post.id this ->
      Post.findById (JS.Int (Post.id this)) s = (Ok (Some this), s) ->
      postController.deletePost req s =
      (Ok (errorResponse 403 "Permission denied" "You can only delete your own posts"), s) /\
      (truthy (body_title req) = true -> truthy (body_content req) = true ->
       postController.updatePost req s =
       (Ok (errorResponse 403 "Permission denied" "You can only edit your own posts"), s))).
Proof.
  intros HB. split; [|split].
  - intros title content. eexists. split; [now apply update_forbidden | reflexivity].
  - eexists. split; [now apply delete_forbidden | reflexivity].
  - intros req Hu H0 Hid Hpos Hfind.
    assert (T : truthyId (req_userId req) = true).
    { rewrite Hu. cbn. now apply Z.eqb_neq in H0; rewrite H0. }
    assert (L : JS.nonPositive (JS.Int (Post.id this)) = false)
      by (cbn; apply Z.leb_gt; lia).
    split.
    + unfold postController.deletePost. unfold try_catch, bind.
      rewrite T, Hid, L. cbn [negb]. rewrite Hfind, Hu.
      rewrite (delete_forbidden _ _ _ HB). reflexivity.
    + intros Ht Hc.
      unfold postController.updatePost. unfold try_catch, bind.
      rewrite T, Hid, L, Ht, Hc. cbn [negb orb]. rewrite Hfind, Hu.
      rewrite (update_forbidden _ _ _ _ _ HB). reflexivity.
Qed.

(** Rewriting title and content keeps the other columns of every row. *)
Lemma updatePostRow_keeps (title content : string) (i : Z) (l : list postRow) :
  map post_id (map (Database.updatePostRow title content i) l) = map post_id l /\
  map post_authorId (map (Database.updatePostRow title content i) l) = map post_authorId l /\
  map post_createdAt (map (Database.updatePostRow title content i) l) = map post_createdAt l.
Proof.
  rewrite !map_map. repeat split; apply map_ext; intros p;
    unfold Database.updatePostRow; destruct (post_id p =? i); reflexivity.
Qed.

Lemma sameIdentity_refl (s : db) : sameIdentity s s.
Proof. repeat split. Qed.

Lemma sameIdentity_trans (s1 s2 s3 : db) :
  sameIdentity s1 s2 -> sameIdentity s2 s3 -> sameIdentity s1 s3.
Proof.
  intros [A [B C]] [A' [B' C']]. repeat split; congruence.
Qed.

(** A call of [trim] that returns was made on a string. *)
Lemma trimOf_ok (what : string) (x : option value) (r : string) :
  trimOf what x = Ok r -> exists t, x = Some (VStr t) /\ r = JS.trim t.
Proof.
  unfold trimOf, callOnString. destruct x as [[]|]; intros H; inv H. eauto.
Qed.

(** Whatever its outcome, [Post.update] keeps users, ids, owners and
    creation times. *)
Lemma update_frame (this : Post.t) (title content : option value) (requester : slot Z)
      (s s' : db) (r : result Post.t) :
  Post.update this title content requester s = (r, s') ->
  users s' = users s /\ sameIdentity s s'.
Proof.
  unfold Post.update, Database.updatePost. intros H.
  handler_cases H; (split; [reflexivity|]); try apply sameIdentity_refl.
  all: unfold sameIdentity; cbn [posts]; apply updatePostRow_keeps.
Qed.

(** A successful [Post.update] was given strings, and returns the post
    with its id, owner and creation time, and the trimmed title and
    content. *)
Lemma update_result (this this' : Post.t) (title content : option value)
      (requester : slot Z) (s s' : db) :
  Post.update this title content requester s = (Ok this', s') ->
  exists t c,
    title = Some (VStr t) /\ content = Some (VStr c) /\
    this' = Post.mk (Post.id this) (JS.trim t) (JS.trim c)
                    (Post.authorId this) (Post.createdAt this) (Post.authorEmail this) /\
    requester = Val (Post.authorId this) /\
    posts s' = map (Database.updatePostRow (JS.trim t) (JS.trim c) (Post.id this)) (posts s).
Proof.
  unfold Post.update, Database.updatePost. intros H. handler_cases H.
  repeat match goal with
         | T : trimOf _ _ = Ok _ |- _ => apply trimOf_ok in T; destruct T as [? [? ?]]
         end.
  subst. do 2 eexists. repeat split.
  match goal with
  | N : Post.notAuthor _ ?r = false |- _ =>
      unfold Post.notAuthor in N; destruct r as [| |r']; try discriminate N;
      apply negb_false_iff, Z.eqb_eq in N; now subst
  end.
Qed.

Lemma updatePost_frame (req : request) (s s' : db) (r : result response) :
  postController.updatePost req s = (r, s') ->
  users s' = users s /\ sameIdentity s s'.
Proof.
  unfold postController.updatePost, postController.onUpdateError. intros H.
  handler_cases H;
    repeat match goal with
           | F : Post.findById _ _ = _ |- _ => apply Post_findById_reads in F; subst
           end;
    try (split; [reflexivity | apply sameIdentity_refl]).
  all: match goal with
       | U : Post.update _ _ _ _ _ = _ |- _ => exact (update_frame _ _ _ _ _ _ _ U)
       end.
Qed.

(** C6. A successful update by the owner returns the post with the same
    id, owner and creation time and writes only the title and content of
    its row; and no sequence of update operations, successful or not,
    changes the id, the owner or the creation time of any post. *)
Theorem update_keeps_id_owner_created :
  (forall this this' title content requester s s',
      Post.update this title content requester s = (Ok this', s') ->
      Post.id this' = Post.id this /\
      Post.authorId this' = Post.authorId this /\
      Post.createdAt this' = Post.createdAt this /\
      posts s' = map (Database.updatePostRow (Post.title this') (Post.content this')
                                             (Post.id this)) (posts s) /\
      users s' = users s /\ sameIdentity s s') /\
  (forall s s', updates s s' -> sameIdentity s s').
Proof.
  split.
  - intros this this' title content requester s s' H.
    destruct (update_result _ _ _ _ _ _ _ H) as [t [c [_ [_ [E [_ Hp]]]]]].
    destruct (update_frame _ _ _ _ _ _ _ H) as [Hu Hf].
    subst this'. cbn. repeat split; auto; apply Hf.
  - intros s s' H. induction H as [s | s s1 s2 this title content requester r _ IH U
                                     | s s1 s2 req r _ IH U].
    + apply sameIdentity_refl.
    + apply update_frame in U. eapply sameIdentity_trans; [exact IH | apply U].
    + apply updatePost_frame in U. eapply sameIdentity_trans; [exact IH | apply U].
Qed.

End Ownership.

(* ===================================================================== *)
(** ** Credentials and the safe view *)
(* ===================================================================== *)

Section Credentials.
Context {P : Platform}.

Lemma verifyPassword_false (u : User.t) (password : string) (s : db) :
  bcrypt_compare password (user_passwordHash u) = Ok false ->
  User.verifyPassword u (Some (VStr password)) s = (Ok false, s).
Proof.
  intros H. unfold User.verifyPassword, Bcrypt.compare. unfold_monad. now rewrite H.
Qed.

(** X24. On strings, login answers an unknown email and a known email
    with a wrong password alike: whenever both fields are non-empty
    strings both failures are answered with the same 401 payload, [error]
    and [details] included, and the store is not written. *)
Lemma login_failures_alike_on_strings (now : Z) (req1 req2 : request) (s1 s2 : db)
      (u : userRow) (e1 p1 e2 p2 : string) :
  body_email req1 = Some (VStr e1) -> body_password req1 = Some (VStr p1) ->
  body_email req2 = Some (VStr e2) -> body_password req2 = Some (VStr p2) ->
  e1 <> "" -> p1 <> "" -> e2 <> "" -> p2 <> "" ->
  User.findByEmail (JS.trim (JS.toLowerCase e1)) s1 = (Ok None, s1) ->
  User.findByEmail (JS.trim (JS.toLowerCase e2)) s2 = (Ok (Some u), s2) ->
  bcrypt_compare p2 (user_passwordHash u) = Ok false ->
  authController.login now req1 s1 =
  (Ok (errorResponse 401 "Invalid credentials" "Email or password is incorrect"), s1) /\
  authController.login now req2 s2 =
  (Ok (errorResponse 401 "Invalid credentials" "Email or password is incorrect"), s2).
Proof.
  intros E1 P1 E2 P2 N1 N2 N3 N4 F1 F2 C.
  unfold authController.login. unfold try_catch, bind.
  rewrite E1, P1, E2, P2.
  destruct e1; [congruence|]. destruct p1; [congruence|].
  destruct e2; [congruence|]. destruct p2; [congruence|].
  cbn [truthy JS.isEmpty negb orb toLowerCaseOf callOnString lift ret].
  rewrite F1, F2. rewrite (verifyPassword_false _ _ _ C). split; reflexivity.
Qed.

(** C5. Login tells a known email from an unknown one when the password
    of the body is not a string: for an email the store does not know the
    answer is the 401 "Invalid credentials" of a failed login, and for an
    email the store knows, with the same body and a store in working
    order, it is 500 "Login failed", because [bcrypt.compare] rejects a
    password that is no string and [login] answers that error from its
    [catch] clause. *)
Theorem login_tells_known_emails_apart (now : Z) (req : request) (s1 s2 : db)
        (u : userRow) (email : string) :
  body_email req = Some (VStr email) -> email <> "" ->
  truthy (body_password req) = true ->
  (forall password, body_password req <> Some (VStr password)) ->
  fault s1 = None -> fault s2 = None ->
  Database.selectUserByEmail (JS.trim (JS.toLowerCase email)) s1 = None ->
  Database.selectUserByEmail (JS.trim (JS.toLowerCase email)) s2 = Some u ->
  authController.login now req s1 =
  (Ok (errorResponse 401 "Invalid credentials" "Email or password is incorrect"), s1) /\
  authController.login now req s2 =
  (Ok (errorResponse 500 "Login failed"
         "An unexpected error occurred. Please try again later."), s2).
Proof.
  intros E Ne T NS F1 F2 U1 U2.
  destruct email as [|c email]; [congruence|].
  split; unfold authController.login; unfold try_catch at 1; unfold bind at 1;
    rewrite E, T;
    cbn [truthy JS.isEmpty negb orb toLowerCaseOf callOnString lift ret];
    unfold bind at 1; rewrite User_findByEmail_eq.
  - rewrite F1, U1. reflexivity.
  - rewrite F2, U2.
    unfold User.verifyPassword, Bcrypt.compare. unfold_monad.
    destruct (body_password req) as [[| | | password | |]|]; try reflexivity.
    exfalso. now apply (NS password).
Qed.

Lemma logout_no_user (req : request) (s s' : db) (resp : response) :
  authController.logout req s = (Ok resp, s') -> bodyField "user" resp = None.
Proof. unfold authController.logout. intros H. handler_cases H. reflexivity. Qed.

Lemma refreshToken_no_user (now : Z) (req : request) (s s' : db) (resp : response) :
  authController.refreshToken now req s = (Ok resp, s') -> bodyField "user" resp = None.
Proof.
  unfold authController.refreshToken. intros H. handler_cases H; reflexivity.
Qed.

Lemma createPost_no_user (now : Z) (req : request) (s s' : db) (resp : response) :
  postController.createPost now req s = (Ok resp, s') -> bodyField "user" resp = None.
Proof.
  unfold postController.createPost, postController.deref. intros H.
  handler_cases H; reflexivity.
Qed.

Lemma getAllPosts_no_user (req : request) (s s' : db) (resp : response) :
  postController.getAllPosts req s = (Ok resp, s') -> bodyField "user" resp = None.
Proof.
  unfold postController.getAllPosts. cbv zeta. intros H.
  handler_cases H; reflexivity.
Qed.

Lemma getPostStats_no_user (now : Z) (req : request) (s s' : db) (resp : response) :
  postController.getPostStats now req s = (Ok resp, s') -> bodyField "user" resp = None.
Proof.
  unfold postController.getPostStats. intros H. handler_cases H; reflexivity.
Qed.

Lemma getMyPosts_no_user (req : request) (s s' : db) (resp : response) :
  postController.getMyPosts req s = (Ok resp, s') -> bodyField "user" resp = None.
Proof.
  unfold postController.getMyPosts. intros H. handler_cases H; reflexivity.
Qed.

Lemma getPostById_no_user (req : request) (s s' : db) (resp : response) :
  postController.getPostById req s = (Ok resp, s') -> bodyField "user" resp = None.
Proof.
  unfold postController.getPostById. intros H. handler_cases H; reflexivity.
Qed.

Lemma updatePost_no_user (req : request) (s s' : db) (resp : response) :
  postController.updatePost req s = (Ok resp, s') -> bodyField "user" resp = None.
Proof.
  unfold postController.updatePost, postController.onUpdateError. intros H.
  handler_cases H; reflexivity.
Qed.

Lemma deletePost_no_user (req : request) (s s' : db) (resp : response) :
  postController.deletePost req s = (Ok resp, s') -> bodyField "user" resp = None.
Proof.
  unfold postController.deletePost, postController.onDeleteError. intros H.
  handler_cases H; reflexivity.
Qed.

Lemma verifyPassword_reads (u : User.t) (password : option value) (s s' : db)
      (r : result bool) :
  User.verifyPassword u password s = (r, s') -> s' = s.
Proof.
  unfold User.verifyPassword. intros H. handler_cases H; reflexivity.
Qed.

(** The user [User.create] returns is a row of the table it leaves. *)
Lemma User_create_stored (now : Z) (email : string) (password : option value)
      (s s' : db) (u : User.t) :
  User.create now email password s = (Ok (Some u), s') -> In u (users s').
Proof.
  unfold User.create. intros H. handler_cases H.
  match goal with
  | F : User.findById _ _ = (Ok (Some u), _) |- _ =>
      pose proof (User_findById_reads _ _ _ _ F); subst;
      now apply User_findById_stored in F
  end.
Qed.

Lemma register_safe_view (now : Z) (req : request) (s s' : db) (resp : response) (v : json) :
  authController.register now req s = (Ok resp, s') ->
  bodyField "user" resp = Some v ->
  exists u, In u (users s') /\ v = User.toSafeObject u.
Proof.
  unfold authController.register, authController.deref. intros H Hv.
  handler_cases H; cbn in Hv; try discriminate.
  inv Hv.
  match goal with
  | C : User.create _ _ _ _ = (Ok (Some ?u), _) |- _ =>
      exists u; split; [now apply User_create_stored in C | reflexivity]
  end.
Qed.

Lemma login_safe_view (now : Z) (req : request) (s s' : db) (resp : response) (v : json) :
  authController.login now req s = (Ok resp, s') ->
  bodyField "user" resp = Some v ->
  exists u, In u (users s') /\ v = User.toSafeObject u.
Proof.
  unfold authController.login. intros H Hv.
  handler_cases H; cbn in Hv; try discriminate.
  inv Hv.
  match goal with
  | F : User.findByEmail _ _ = (Ok (Some ?u), _),
    V : User.verifyPassword _ _ _ = _ |- _ =>
      pose proof (User_findByEmail_reads _ _ _ _ F);
      pose proof (verifyPassword_reads _ _ _ _ _ V); subst;
      exists u; split; [now apply User_findByEmail_stored in F | reflexivity]
  end.
Qed.

(** What mandatory resolution attaches is the safe view and the id of a
    row of the table. *)
Lemma authenticateToken_attaches (now : Z) (req req' : request) (s s' : db) :
  Auth.authenticateToken now req s = (Ok (Next req'), s') ->
  s' = s /\
  exists u, In u (users s) /\
            req' = attach req (Val (User.toSafeObject u)) (Val (user_id u)).
Proof.
  rewrite authenticateToken_eq. intros H.
  destruct (Auth.bearer req) as [tok|].
  - destruct (Jwt.verify now tok JWT_SECRET noOptions) as [p|e]; [|inv H].
    destruct (User.findById (option_map JS.Int (userId p)) s) as [[[u|]|e] s1] eqn:F; cbn [fst] in H; inv H.
    split; [reflexivity|]. exists u. split; [|reflexivity].
    now apply User_findById_stored in F.
  - destruct (Auth.noBearer (authorization req)); inv H.
Qed.

(** When mandatory resolution answers, the answer is an error payload. *)
Lemma authenticateToken_answers (now : Z) (req : request) (s s' : db) (r : response) :
  Auth.authenticateToken now req s = (Ok (Respond r), s') ->
  s' = s /\ exists code err details, r = errorResponse code err details.
Proof.
  rewrite authenticateToken_eq. intros H.
  destruct (Auth.bearer req) as [tok|].
  - destruct (Jwt.verify now tok JWT_SECRET noOptions) as [p|e].
    + destruct (fst (User.findById (option_map JS.Int (userId p)) s)) as [[u|]|e]; inv H;
        (split; [reflexivity | repeat eexists]).
    + inv H. split; [reflexivity|]. unfold Auth.onJwtError.
      destruct (String.eqb (name e) "TokenExpiredError"); [repeat eexists|].
      destruct (String.eqb (name e) "JsonWebTokenError"); repeat eexists.
  - destruct (Auth.noBearer (authorization req)); inv H;
      (split; [reflexivity | repeat eexists]).
Qed.

(** A protected route answers with the middleware's error payload, or with
    the handler's answer on the request the middleware passed on. *)
Lemma protected_inv (now : Z) (h : request -> M response) (req : request)
      (s s' : db) (resp : response) :
  Routes.protected now h req s = (Ok resp, s') ->
  (s' = s /\ exists code err details, resp = errorResponse code err details) \/
  (exists u, In u (users s) /\
             h (attach req (Val (User.toSafeObject u)) (Val (user_id u))) s = (Ok resp, s')).
Proof.
  unfold Routes.protected, bind.
  destruct (Auth.authenticateToken now req s) as [[[r|req']|e] s1] eqn:A.
  - apply authenticateToken_answers in A. destruct A as [-> A].
    intros H. inv H. now left.
  - apply authenticateToken_attaches in A. destruct A as [-> [u [Hin ->]]].
    intros H. right. exists u. now split.
  - rewrite authenticateToken_eq in A. inv A.
Qed.

Lemma withParamId_inv (h : request -> M response) (req : request)
      (s s' : db) (resp : response) :
  Routes.withParamId h req s = (Ok resp, s') ->
  (s' = s /\ exists code err details, resp = errorResponse code err details) \/
  h req s = (Ok resp, s').
Proof.
  unfold Routes.withParamId.
  destruct (postController.notPositive (JS.parseInt (params_id req))); [|now right].
  intros H. inv H. left. split; [reflexivity | repeat eexists].
Qed.

(** C7. Wherever an identity leaves the backend it is the safe view
    [{ id, email, createdAt }] of a row of the users table, without the
    password digest: the [user] field of the answer of every route
    (registration, login, current identity and all the others), and the
    identity both middlewares attach to a request, together with the id of
    the same row. *)
Theorem identity_leaves_as_safe_view (now : Z) :
  (forall route req s resp s' v,
      Routes.handle now route req s = (Ok resp, s') ->
      bodyField "user" resp = Some v ->
      exists u, In u (users s') /\
                v = JObj [("id", JNum (user_id u));
                          ("email", JStr (user_email u));
                          ("createdAt", JNum (user_createdAt u))]) /\
  (forall req s req' s' v,
      Auth.authenticateToken now req s = (Ok (Next req'), s') \/
      Auth.optionalAuth now req s = (Ok (Next req'), s') ->
      req_user req' = Val v ->
      exists u, In u (users s') /\
                v = JObj [("id", JNum (user_id u));
                          ("email", JStr (user_email u));
                          ("createdAt", JNum (user_createdAt u))] /\
                req_userId req' = Val (user_id u)).
Proof.
  split.
  - intros route req s resp s' v H Hv.
    assert (Herr : forall code err details,
               bodyField "user" (errorResponse code err details) = Some v -> False)
      by (intros code err details C; discriminate C).
    assert (Hprot : forall h,
               (forall r0 s0 s1 resp0, h r0 s0 = (Ok resp0, s1) -> bodyField "user" resp0 = None) ->
               Routes.protected now h req s = (Ok resp, s') -> False).
    { intros h Hh Hp. apply protected_inv in Hp.
      destruct Hp as [[_ [code [err [details ->]]]] | [u [_ Hp]]].
      - eapply Herr; eassumption.
      - apply Hh in Hp. congruence. }
    destruct route; cbn [Routes.handle] in H.
    + eapply register_safe_view; eassumption.
    + eapply login_safe_view; eassumption.
    + apply protected_inv in H.
      destruct H as [[_ [code [err [details ->]]]] | [u [Hin H]]].
      * exfalso. eapply Herr; eassumption.
      * unfold authController.getCurrentUser, ret in H. cbn in H. inv H.
        cbn in Hv. inv Hv. exists u. split; [assumption | reflexivity].
    + exfalso. eapply Hprot; [|exact H]. intros; eapply logout_no_user; eassumption.
    + exfalso. eapply Hprot; [|exact H]. intros; eapply refreshToken_no_user; eassumption.
    + apply getAllPosts_no_user in H. congruence.
    + apply getPostStats_no_user in H. congruence.
    + exfalso. eapply Hprot; [|exact H]. intros; eapply getMyPosts_no_user; eassumption.
    + exfalso. eapply Hprot; [|exact H]. intros; eapply createPost_no_user; eassumption.
    + apply withParamId_inv in H.
      destruct H as [[_ [code [err [details ->]]]] | H].
      * exfalso. eapply Herr; eassumption.
      * apply getPostById_no_user in H. congruence.
    + apply withParamId_inv in H.
      destruct H as [[_ [code [err [details ->]]]] | H].
      * exfalso. eapply Herr; eassumption.
      * exfalso. eapply Hprot; [|exact H]. intros; eapply updatePost_no_user; eassumption.
    + apply withParamId_inv in H.
      destruct H as [[_ [code [err [details ->]]]] | H].
      * exfalso. eapply Herr; eassumption.
      * exfalso. eapply Hprot; [|exact H]. intros; eapply deletePost_no_user; eassumption.
  - intros req s req' s' v [H | H] Hv.
    + apply authenticateToken_attaches in H. destruct H as [-> [u [Hin ->]]].
      cbn in Hv. inv Hv. exists u. repeat split; assumption || reflexivity.
    + rewrite optionalAuth_eq in H. inv H.
      destruct (Auth.bearer req) as [tok|]; [|cbn in Hv; discriminate Hv].
      destruct (Jwt.verify now tok JWT_SECRET noOptions) as [p|e];
        [|cbn in Hv; discriminate Hv].
      destruct (User.findById (option_map JS.Int (userId p)) s') as [[[u|]|e] s1] eqn:F;
        cbn [fst] in Hv; try (cbn in Hv; discriminate Hv).
      apply User_findById_stored in F. destruct F as [Hin _].
      cbn in Hv. inv Hv. exists u. repeat split; assumption || reflexivity.
Qed.

End Credentials.

(* ===================================================================== *)
(** ** Validation on create and on update *)
(* ===================================================================== *)

(** X21. A create whose title is a string shorter than 3 characters
    after trimming, or whose title and content are strings and the content
    is shorter than 10 after trimming, is answered with a 4xx error (400,
    or 401 without an identity) and writes nothing. *)
Lemma createPost_rejects_short (now : Z) (req : request) (s s' : db)
      (r : result response) (title : string) :
  body_title req = Some (VStr title) ->
  JS.length (JS.trim title) < 3 \/
  (exists content,
      body_content req = Some (VStr content) /\ JS.length (JS.trim content) < 10) ->
  postController.createPost now req s = (r, s') ->
  s' = s /\ exists code err details,
              r = Ok (errorResponse code err details) /\ (code = 400 \/ code = 401).
Proof.
  intros Ht Hshort. unfold postController.createPost. unfold try_catch at 1.
  rewrite Ht. unfold ret at 1 2 3. intros Hrun.
  destruct (negb (truthyId (req_userId req)));
    [inv Hrun; split; [reflexivity | repeat eexists; auto]|].
  destruct (negb (truthy (Some (VStr title))) || negb (truthy (body_content req)))%bool;
    [inv Hrun; split; [reflexivity | repeat eexists; auto]|].
  unfold bind at 1 in Hrun. cbn [trimOf callOnString lift ret] in Hrun.
  destruct (Z.ltb_spec (JS.length (JS.trim title)) 3) as [L1|L1];
    [inv Hrun; split; [reflexivity | repeat eexists; auto]|].
  destruct Hshort as [L | [content [Hc L]]]; [lia|].
  rewrite Hc in Hrun. unfold bind at 1 in Hrun.
  cbn [trimOf callOnString lift ret] in Hrun.
  destruct (Z.ltb_spec (JS.length (JS.trim content)) 10) as [L2|L2]; [|lia].
  inv Hrun; split; [reflexivity | repeat eexists; auto].
Qed.

(** C4. The update path does not apply the minimum lengths of the create
    path: the owner's update of post 1 with the title [ab] and the content
    [short] is answered with 200 and written to the store, where a create
    with the same title and content is answered with 400 "Title too
    short"; and an update with a blank title is answered with 500, not with
    a validation error. *)
Theorem update_skips_minimum_lengths :
  Routes.handle (P := Demo.platform) 2000 Routes.PUT_posts_id
    (Demo.onPost "Bearer alice.7d.jwt" "1" (Some "ab") (Some "short")) Demo.store
  = (Ok (respond 200
           [("message", JStr "Post updated successfully");
            ("post", JObj [("id", JNum 1); ("title", JStr "ab");
                           ("content", JStr "short"); ("authorId", JNum 1);
                           ("authorEmail", JStr "a@x.com"); ("createdAt", JNum 1000)])]),
     mkDb [Demo.alice; Demo.bob] [mkPostRow 1 "ab" "short" 1 1000] 2 1 None) /\
  Routes.handle (P := Demo.platform) 2000 Routes.POST_posts
    (Demo.onPost "Bearer alice.7d.jwt" "" (Some "ab") (Some "short")) Demo.store
  = (Ok (errorResponse 400 "Title too short" "Title must be at least 3 characters long"),
     Demo.store) /\
  Routes.handle (P := Demo.platform) 2000 Routes.PUT_posts_id
    (Demo.onPost "Bearer alice.7d.jwt" "1" (Some "   ") (Some "short")) Demo.store
  = (Ok (errorResponse 500 "Failed to update post"
           "An unexpected error occurred. Please try again later."),
     Demo.store).
Proof. repeat split; vm_compute; reflexivity. Qed.

(* ===================================================================== *)
(** ** The properties at concrete requests *)
(* ===================================================================== *)

(** The scenario of the specification on the example store: the second
    identity may not update the first one's post, the owner deletes it, and
    reading it afterwards finds nothing. *)
Example ownership_scenario :
  let put := Demo.onPost "Bearer bob.7d.jwt" "1" (Some "Mine now") (Some "Rewritten by another user") in
  let del := Demo.onPost "Bearer alice.7d.jwt" "1" None None in
  let get := Demo.onPost "" "1" None None in
  let r1 := Routes.handle (P := Demo.platform) 2000 Routes.PUT_posts_id put Demo.store in
  let r2 := Routes.handle (P := Demo.platform) 2001 Routes.DELETE_posts_id del (snd r1) in
  let r3 := Routes.handle (P := Demo.platform) 2002 Routes.GET_posts_id get (snd r2) in
  r1 = (Ok (errorResponse 403 "Permission denied" "You can only edit your own posts"),
        Demo.store) /\
  fst r2 = Ok (mkResponse 204 None) /\
  posts (snd r2) = [] /\
  fst r3 = Ok (errorResponse 404 "Post not found" "No post found with ID 1").
Proof. vm_compute. repeat split. Qed.

(** Optional resolution on a forged token and on a good one. *)
Example optionalAuth_examples :
  fst (Auth.optionalAuth (P := Demo.platform) 2000
         (Demo.withHeader (Some "Bearer forged.jwt")) Demo.store)
  = Ok (Next (attach (Demo.withHeader (Some "Bearer forged.jwt")) Null Null)) /\
  fst (Auth.optionalAuth (P := Demo.platform) 2000
         (Demo.withHeader (Some "Bearer bob.7d.jwt")) Demo.store)
  = Ok (Next (attach (Demo.withHeader (Some "Bearer bob.7d.jwt"))
                     (Val (User.toSafeObject Demo.bob)) (Val 2))).
Proof. vm_compute. split; reflexivity. Qed.

(** A token signed with the secret for another issuer and audience, not
    expired, is accepted and its subject attached: identity resolution
    does not reject on issuer or audience. *)
Lemma issuer_and_audience_not_checked :
  ~ (forall (P : Platform) (now : Z) (req : request) (s : db) (tok : string) (j : jws),
        Auth.bearer req = Some tok ->
        jws_decode tok = Some j ->
        (signedWith j <> Some JWT_SECRET \/
         iss (claims j) <> Some "blog-platform" \/
         aud (claims j) <> Some "blog-platform-users" \/
         exists e, exp (claims j) = Some e /\ e <= now) ->
        exists r, Auth.authenticateToken now req s = (Ok (Respond r), s)).
Proof.
  intros H.
  destruct (H Demo.platform 2000 (Demo.withHeader (Some "Bearer foreign.jwt")) Demo.store
              "foreign.jwt"
              (mkJws (Some Demo.secret)
                     (mkPayload (Some 1) (Some 1000) None (Some 605800)
                                (Some "another-service") (Some "its-users")))
              eq_refl eq_refl) as [r Hr].
  - right. left. discriminate.
  - vm_compute in Hr. discriminate Hr.
Qed.


(* ===================================================================== *)
(** ** Keys, inserts and lookups *)
(* ===================================================================== *)

Lemma nextId_above (seq : Z) (ids : list Z) :
  seq < Database.nextId seq ids /\ forall i, In i ids -> i < Database.nextId seq ids.
Proof.
  unfold Database.nextId. induction ids as [|x ids [IH1 IH2]]; cbn [fold_right].
  - split; [lia | intros i []].
  - split; [lia|]. intros i [->|Hi]; [lia|]. specialize (IH2 i Hi). lia.
Qed.

Lemma find_app_last {A} (f : A -> bool) (l : list A) (x : A) :
  (forall y, In y l -> f y = false) -> f x = true -> find f (l ++ [x]) = Some x.
Proof.
  intros Hl Hx. induction l as [|y l IH]; cbn.
  - now rewrite Hx.
  - rewrite (Hl y (or_introl eq_refl)). apply IH. intros z Hz. apply Hl. now right.
Qed.

Lemma find_none_all {A} (f : A -> bool) (l : list A) :
  find f l = None -> forall y, In y l -> f y = false.
Proof. intros H y Hy. exact (find_none f l H y Hy). Qed.

Lemma existsb_find_none {A} (f : A -> bool) (l : list A) :
  find f l = None -> existsb f l = false.
Proof.
  induction l as [|y l IH]; cbn; [reflexivity|].
  destruct (f y); [discriminate | exact IH].
Qed.

Section Inserts.
Context {P : Platform}.

(** A field that is not blank is a string with something left after
    trimming. *)
Lemma blank_false (what : string) (x : option value) :
  Post.blank what x = Ok false ->
  exists t, x = Some (VStr t) /\ JS.trim t <> "".
Proof.
  unfold Post.blank, trimOf, callOnString.
  destruct x as [[| b | n | t | l | o]|]; cbn [truthy negb];
    try (match goal with |- context [if ?b then _ else _] => destruct b end);
    try discriminate.
  intros H. injection H as H. exists t. split; [reflexivity|].
  intros E. rewrite E in H. discriminate H.
Qed.

(** What a successful [Post.create] has done: the fields were strings,
    not blank, the author id was truthy, one row with the trimmed fields,
    that author and the current time was appended under a fresh key, and
    the post returned is that row read back. *)
Lemma Post_create_ok (now : Z) (title content : option value) (a : slot Z)
      (s s' : db) (created : option Post.t) :
  Post.create now title content a s = (Ok created, s') ->
  exists uid t c,
    a = Val uid /\ uid <> 0 /\
    title = Some (VStr t) /\ content = Some (VStr c) /\
    JS.trim t <> "" /\ JS.trim c <> "" /\ fault s = None /\
    let row := mkPostRow (Database.nextId (posts_seq s) (map post_id (posts s)))
                         (JS.trim t) (JS.trim c) uid now in
    posts s' = (posts s ++ [row])%list /\ users s' = users s /\ fault s' = None /\
    created = Some (Post.ofRow (Database.joinAuthor s row)).
Proof.
  unfold Post.create, Post.findById, Database.insertPost, Database.selectPostById.
  intros H. handler_cases H.
  all: cbn [posts users fault Database.lastID] in *.
  all: match goal with
       | Hm : option_map _ (find _ (posts ?s ++ [?row])) = _ |- _ =>
           rewrite (find_app_last _ (posts s) row) in Hm;
           [ cbn [option_map] in Hm
           | intros y Hy; apply Z.eqb_neq;
             pose proof (proj2 (nextId_above (posts_seq s) (map post_id (posts s)))
                           (post_id y) (in_map post_id _ _ Hy)); lia
           | cbn [post_id]; apply Z.eqb_refl ]
       end.
  all: match goal with
       | Hm : Some _ = None |- _ => discriminate Hm
       | Hm : Some _ = Some _ |- _ => inv Hm
       end.
  repeat match goal with
         | B : Post.blank _ _ = Ok false |- _ =>
             apply blank_false in B; destruct B as [? [? ?]]
         end.
  subst. cbn [trimOf callOnString] in *.
  repeat match goal with
         | T : Ok _ = Ok _ |- _ => inv T
         end.
  match goal with
  | Hz : (?u =? 0) = false |- _ => apply Z.eqb_neq in Hz; exists u
  end.
  do 2 eexists. cbn zeta. repeat split; try eassumption; reflexivity.
Qed.

(** X1. A create answered with 201 has appended exactly one row to the
    posts: its key is above every key in the table, its title and content
    are the trimmed fields of the body, which are strings (of at least 3
    and 10 characters after trimming), its owner is the identity attached
    to the request and its time the current one; the users are untouched,
    the answer carries that row, and reading the new key back finds it. *)
Theorem createPost_stores_and_returns (now : Z) (req : request) (s s' : db) (r : response) :
  postController.createPost now req s = (Ok r, s') -> status r = 201 ->
  exists uid title content,
    req_userId req = Val uid /\ uid <> 0 /\
    body_title req = Some (VStr title) /\
    body_content req = Some (VStr content) /\
    3 <= JS.length (JS.trim title) /\
    10 <= JS.length (JS.trim content) /\
    let row := mkPostRow (Database.nextId (posts_seq s) (map post_id (posts s)))
                         (JS.trim title) (JS.trim content) uid now in
    posts s' = (posts s ++ [row])%list /\ users s' = users s /\
    (forall p, In p (posts s) -> post_id p < post_id row) /\
    bodyField "post" r = Some (Post.toObject (Post.ofRow (Database.joinAuthor s row))) /\
    Post.findById (JS.Int (post_id row)) s' =
    (Ok (Some (Post.ofRow (Database.joinAuthor s row))), s').
Proof.
  unfold postController.createPost, postController.deref. intros H Hst.
  handler_cases H; try discriminate Hst.
  match goal with
  | C : Post.create _ _ _ _ _ = _ |- _ =>
      apply Post_create_ok in C;
      destruct C as [uid [ti [co [Hu [Hnz [Ht [Hc [_ [_ [_ C]]]]]]]]]]; cbn zeta in C;
      destruct C as [Hp [Hus [Hf Hcr]]]
  end.
  inv Hcr. rewrite Ht, Hc in *. cbn [trimOf callOnString] in *.
  repeat match goal with
         | T : Ok _ = Ok _ |- _ => inv T
         end.
  exists uid, ti, co.
  repeat match goal with
         | Hl : (_ <? _) = false |- _ => apply Z.ltb_ge in Hl
         end.
  cbn zeta. repeat split; try assumption.
  - intros p Hp'. cbn [post_id].
    exact (proj2 (nextId_above (posts_seq s) (map post_id (posts s)))
             (post_id p) (in_map post_id _ _ Hp')).
  - rewrite Post_findById_eq, Hf. unfold Database.selectPostById. rewrite Hp.
    cbn [post_id]. rewrite find_app_last.
    + cbn [option_map]. unfold Database.joinAuthor. now rewrite Hus.
    + intros y Hy. apply Z.eqb_neq.
      pose proof (proj2 (nextId_above (posts_seq s) (map post_id (posts s)))
                    (post_id y) (in_map post_id _ _ Hy)). lia.
    + apply Z.eqb_refl.
Qed.

(** What a successful [User.create] has done: the email was not in the
    table, the password was a string and was hashed with 12 rounds, and
    one row with the email, the digest and the current time was appended
    under a fresh key; the user returned is that row. *)
Lemma User_create_ok (now : Z) (email : string) (password : option value) (s s' : db)
      (created : option User.t) :
  User.create now email password s = (Ok created, s') ->
  exists p h,
    password = Some (VStr p) /\
    bcrypt_hash p 12 = Ok h /\ fault s = None /\
    Database.selectUserByEmail email s = None /\
    let u := mkUserRow (Database.nextId (users_seq s) (map user_id (users s)))
                       email h now in
    users s' = (users s ++ [u])%list /\ posts s' = posts s /\ fault s' = None /\
    created = Some u.
Proof.
  unfold User.create, Database.insertUser. intros H. handler_cases H.
  repeat match goal with
         | F : User.findById _ _ = _ |- _ => rewrite User_findById_eq in F; inv F
         | F : User.findByEmail _ _ = _ |- _ => rewrite User_findByEmail_eq in F; inv F
         end.
  cbn [users fault Database.lastID] in *.
  match goal with
  | Hf : fault ?d = None, Hm : match fault ?d with _ => _ end = _ |- _ =>
      rewrite Hf in Hm; inv Hm
  end.
  match goal with
  | Hb : Bcrypt.hash ?pw _ = Ok ?h |- _ =>
      unfold Bcrypt.hash in Hb;
      destruct pw as [[| | | p | |]|]; try discriminate Hb;
      exists p, h
  end.
  cbn zeta. repeat split; try assumption; try (symmetry; assumption).
  unfold Database.selectUserById. cbn [users].
  rewrite find_app_last; [reflexivity | | cbn [user_id]; apply Z.eqb_refl].
  intros y Hy. apply Z.eqb_neq.
  match goal with
  | |- user_id y <> Database.nextId ?q ?l =>
      pose proof (proj2 (nextId_above q l) (user_id y) (in_map user_id _ _ Hy)); lia
  end.
Qed.

(** Whether [generateToken] succeeds depends on the secret and the time
    span only, not on the clock or the subject. *)
Lemma generateToken_succeeds_again (now uid : Z) (ttl : timespan) (tok : string) :
  Auth.generateToken now uid ttl = Ok tok ->
  forall now2 uid2, exists tok2, Auth.generateToken now2 uid2 ttl = Ok tok2.
Proof.
  unfold Auth.generateToken, Jwt.sign. intros H now2 uid2.
  destruct (JS.isEmpty JWT_SECRET); [discriminate H|]. cbn in H |- *.
  destruct ttl as [n | sp].
  - cbn. eexists. reflexivity.
  - destruct sp as [|c sp]; [discriminate H|].
    unfold Jwt.expiryOf in H |- *.
    destruct (ms (String c sp)) as [m|]; [|discriminate H].
    cbn. eexists. reflexivity.
Qed.

(** A call of [toLowerCase] that returns was made on a string. *)
Lemma toLowerCaseOf_ok (what : string) (x : option value) (r : string) :
  toLowerCaseOf what x = Ok r -> exists e, x = Some (VStr e) /\ r = JS.toLowerCase e.
Proof.
  unfold toLowerCaseOf, callOnString. destruct x as [[]|]; intros H; inv H. eauto.
Qed.

(** X2. After a registration answered with 201, a login with the same
    body succeeds at any later time, given that the digest [bcrypt.hash]
    produced for the password compares equal to it: the email and the
    password of the body are strings, and the answer is 200 with the safe
    view the registration returned and a token issued for the id of the
    new row, whose email is the lower-cased, trimmed email of the body. *)
Theorem register_then_login (now now2 : Z) (req : request) (s s1 : db) (r : response) :
  authController.register now req s = (Ok r, s1) -> status r = 201 ->
  (forall password h,
      body_password req = Some (VStr password) ->
      bcrypt_hash password 12 = Ok h -> bcrypt_compare password h = Ok true) ->
  exists email password u tok,
    body_email req = Some (VStr email) /\
    body_password req = Some (VStr password) /\
    In u (users s1) /\
    user_email u = JS.trim (JS.toLowerCase email) /\
    bodyField "user" r = Some (User.toSafeObject u) /\
    Auth.generateToken now2 (user_id u) Auth.defaultTtl = Ok tok /\
    authController.login now2 req s1 =
    (Ok (respond 200 [("message", JStr "Login successful");
                      ("user", User.toSafeObject u);
                      ("token", JStr tok)]), s1).
Proof.
  unfold authController.register, authController.deref. intros H Hst Hcmp.
  handler_cases H; try discriminate Hst.
  match goal with
  | C : User.create _ _ _ _ = _ |- _ =>
      apply User_create_ok in C;
      destruct C as [pw [h [Hpw [Hh [_ [Hfree C]]]]]]; cbn zeta in C;
      destruct C as [Hus [_ [Hf Hc]]]
  end.
  inv Hc.
  match goal with
  | L : toLowerCaseOf _ _ = Ok _ |- _ =>
      apply toLowerCaseOf_ok in L; destruct L as [em [Hem ->]]
  end.
  match goal with
  | G : Auth.generateToken _ ?i _ = Ok _ |- _ =>
      destruct (generateToken_succeeds_again _ _ _ _ G now2 i) as [tok Htok]
  end.
  exists em, pw. eexists. exists tok.
  split; [exact Hem|]. split; [exact Hpw|].
  split; [|split; [|split; [|split]]].
  - rewrite Hus. apply in_or_app. right. left. reflexivity.
  - reflexivity.
  - reflexivity.
  - exact Htok.
  - unfold authController.login. unfold try_catch, bind.
    match goal with
    | Hb : (negb (truthy (body_email req)) || _)%bool = false |- _ => rewrite Hb
    end.
    rewrite Hem, Hpw. cbn [toLowerCaseOf callOnString lift ret].
    rewrite User_findByEmail_eq, Hf. unfold Database.selectUserByEmail. rewrite Hus.
    rewrite find_app_last.
    + unfold User.verifyPassword, Bcrypt.compare. unfold_monad.
      cbn [user_passwordHash].
      rewrite (Hcmp _ _ Hpw Hh). cbn [negb user_id] in *. rewrite Htok. reflexivity.
    + intros y Hy. unfold Database.selectUserByEmail in Hfree.
      exact (find_none _ _ Hfree y Hy).
    + cbn [user_email]. apply String.eqb_refl.
Qed.

(** [User.create] on a known email throws and writes nothing, whatever
    the password. *)
Lemma User_create_known (now : Z) (email : string) (password : option value)
      (s : db) (u : userRow) :
  fault s = None -> Database.selectUserByEmail email s = Some u ->
  User.create now email password s =
  (Throw (Error "Failed to create user: User with this email already exists"), s).
Proof.
  intros Hf Hk. unfold User.create. unfold rethrow, try_catch, bind.
  rewrite User_findByEmail_eq, Hf, Hk. reflexivity.
Qed.

(** [User.create] on a new email, when hashing succeeds. *)
Lemma User_create_new (now : Z) (email password h : string) (s : db) :
  fault s = None -> Database.selectUserByEmail email s = None ->
  bcrypt_hash password 12 = Ok h ->
  let id := Database.nextId (users_seq s) (map user_id (users s)) in
  let u := mkUserRow id email h now in
  User.create now email (Some (VStr password)) s =
  (Ok (Some u), mkDb (users s ++ [u]) (posts s) id (posts_seq s) None).
Proof.
  intros Hf Hn Hh. cbn zeta. unfold User.create. unfold rethrow, try_catch, bind.
  rewrite User_findByEmail_eq, Hf, Hn. unfold lift, Bcrypt.hash. rewrite Hh. unfold ret.
  unfold Database.runQuery, Database.insertUser. rewrite Hf.
  unfold Database.selectUserByEmail in Hn. rewrite (existsb_find_none _ _ Hn).
  cbn [Database.lastID]. rewrite User_findById_eq. cbn [fault].
  unfold Database.selectUserById. cbn [users].
  rewrite find_app_last; [reflexivity | | cbn [user_id]; apply Z.eqb_refl].
  intros y Hy. apply Z.eqb_neq.
  pose proof (proj2 (nextId_above (users_seq s) (map user_id (users s)))
                (user_id y) (in_map user_id _ _ Hy)). lia.
Qed.

(** The head of [register] on a well-formed body: the three guards pass
    and the email is normalized. *)
Lemma register_guards_pass (now : Z) (req : request) (s : db) (email : string) :
  body_email req = Some (VStr email) ->
  authController.emailRegex_test email = true ->
  truthy (body_password req) = true ->
  authController.lengthBelow (body_password req) 6 = Ok false ->
  authController.register now req s =
  try_catch
    (created <- User.create now (JS.trim (JS.toLowerCase email)) (body_password req) ;;
     user <- authController.deref created ;;
     token <- lift (Auth.generateToken now (user_id user) Auth.defaultTtl) ;;
     ret (respond 201 [("message", JStr "User registered successfully");
                       ("user", User.toSafeObject user);
                       ("token", JStr token)]))
    (fun error =>
       if JS.includes "already exists" (message error) then
         ret (errorResponse 409 "Email already registered"
                "An account with this email already exists. Try logging in instead.")
       else
         ret (errorResponse 500 "Registration failed"
                "An unexpected error occurred. Please try again later.")) s.
Proof.
  intros He Hr Hp Hl. unfold authController.register.
  rewrite He, Hp.
  assert (T : truthy (Some (VStr email)) = true)
    by (destruct email; [discriminate Hr | reflexivity]).
  rewrite T. cbn [negb orb]. unfold try_catch, bind.
  unfold authController.emailRegex_testOn. cbn [toStringOpt toStringOf lift ret].
  rewrite Hr, Hl. cbn [negb lift ret toLowerCaseOf callOnString]. reflexivity.
Qed.

(** A well-formed registration with a known email, run. *)
Lemma register_conflict_run (now : Z) (req : request) (s : db) (u : userRow)
      (email : string) :
  body_email req = Some (VStr email) ->
  authController.emailRegex_test email = true ->
  truthy (body_password req) = true ->
  authController.lengthBelow (body_password req) 6 = Ok false ->
  fault s = None ->
  Database.selectUserByEmail (JS.trim (JS.toLowerCase email)) s = Some u ->
  authController.register now req s =
  (Ok (errorResponse 409 "Email already registered"
         "An account with this email already exists. Try logging in instead."), s).
Proof.
  intros He Hr Hp Hl Hf Hk.
  rewrite (register_guards_pass _ _ _ _ He Hr Hp Hl). unfold try_catch, bind.
  rewrite (User_create_known _ _ _ _ _ Hf Hk). reflexivity.
Qed.

(** X3. A well-formed registration (an email that is a string of the
    accepted shape, a password that is present and does not fail the
    length test, as a string of 6 characters or more does not) whose
    email, lower-cased and trimmed, is already in the table is answered
    with 409 "Email already registered" and writes nothing. *)
Theorem register_known_email_conflicts (now : Z) (req : request) (s : db) (u : userRow)
        (email : string) :
  body_email req = Some (VStr email) ->
  authController.emailRegex_test email = true ->
  (exists password,
      body_password req = Some (VStr password) /\ 6 <= JS.length password) \/
  (truthy (body_password req) = true /\
   authController.lengthBelow (body_password req) 6 = Ok false) ->
  fault s = None ->
  Database.selectUserByEmail (JS.trim (JS.toLowerCase email)) s = Some u ->
  authController.register now req s =
  (Ok (errorResponse 409 "Email already registered"
         "An account with this email already exists. Try logging in instead."), s).
Proof.
  intros He Hr Hp Hf Hk.
  assert (Hpw : truthy (body_password req) = true /\
                authController.lengthBelow (body_password req) 6 = Ok false).
  { destruct Hp as [[password [E L]] | Hp]; [|exact Hp]. rewrite E. split.
    - destruct password; [cbn in L; lia | reflexivity].
    - cbn [authController.lengthBelow]. f_equal. apply Z.ltb_ge. exact L. }
  destruct Hpw as [Hp1 Hp2].
  rewrite (register_guards_pass _ _ _ _ He Hr Hp1 Hp2). unfold try_catch, bind.
  pose proof (User_create_known now _ (body_password req) _ _ Hf Hk) as C.
  rewrite C. reflexivity.
Qed.

(** X4. Registration is not atomic: when no token can be issued because
    [JWT_SECRET] is not set, a well-formed registration with a new email
    is answered with 500 "Registration failed" although the account has
    been written, and the same request sent again is answered with 409. *)
Theorem register_without_secret_keeps_account (now now2 : Z) (req : request) (s : db)
        (email password h : string) :
  JS.isEmpty JWT_SECRET = true ->
  body_email req = Some (VStr email) ->
  body_password req = Some (VStr password) ->
  authController.emailRegex_test email = true ->
  6 <= JS.length password ->
  fault s = None ->
  Database.selectUserByEmail (JS.trim (JS.toLowerCase email)) s = None ->
  bcrypt_hash password 12 = Ok h ->
  let id := Database.nextId (users_seq s) (map user_id (users s)) in
  let u := mkUserRow id (JS.trim (JS.toLowerCase email)) h now in
  let s' := mkDb (users s ++ [u]) (posts s) id (posts_seq s) None in
  authController.register now req s =
  (Ok (errorResponse 500 "Registration failed"
         "An unexpected error occurred. Please try again later."), s') /\
  authController.register now2 req s' =
  (Ok (errorResponse 409 "Email already registered"
         "An account with this email already exists. Try logging in instead."), s').
Proof.
  intros Hs He Hp Hr Hl Hf Hn Hh. cbn zeta.
  assert (Hp1 : truthy (body_password req) = true)
    by (rewrite Hp; destruct password; [cbn in Hl; lia | reflexivity]).
  assert (Hp2 : authController.lengthBelow (body_password req) 6 = Ok false)
    by (rewrite Hp; cbn [authController.lengthBelow]; f_equal; apply Z.ltb_ge; exact Hl).
  split.
  - rewrite (register_guards_pass _ _ _ _ He Hr Hp1 Hp2). unfold try_catch, bind.
    rewrite Hp. rewrite (User_create_new _ _ _ _ _ Hf Hn Hh).
    cbn [authController.deref ret].
    unfold lift, Auth.generateToken, Jwt.sign. rewrite Hs. reflexivity.
  - apply register_conflict_run with
      (u := mkUserRow (Database.nextId (users_seq s) (map user_id (users s)))
                      (JS.trim (JS.toLowerCase email)) h now) (email := email);
      try assumption; try reflexivity.
    unfold Database.selectUserByEmail in *. cbn [users].
    rewrite find_app_last; [reflexivity | | cbn [user_email]; apply String.eqb_refl].
    intros y Hy. exact (find_none _ _ Hn y Hy).
Qed.

End Inserts.

(* ===================================================================== *)
(** ** What the routes write *)
(* ===================================================================== *)

(** Replaces the stores that reads have passed through by the store they
    started from. *)
Ltac reads_done :=
  repeat match goal with
         | F : User.findById _ _ = _ |- _ => apply User_findById_reads in F; subst
         | F : User.findByEmail _ _ = _ |- _ => apply User_findByEmail_reads in F; subst
         | F : User.verifyPassword _ _ _ = _ |- _ => apply verifyPassword_reads in F; subst
         | F : Post.findById _ _ = _ |- _ => apply Post_findById_reads in F; subst
         | F : Post.findAll _ _ = _ |- _ => apply Post_findAll_reads in F; subst
         end.

Section Effects.
Context {P : Platform}.

Lemma effect_refl (s : db) : effect s s.
Proof. now apply effect_none. Qed.

Lemma User_create_effect (now : Z) (email : string) (password : option value)
      (s s' : db) (r : result (option User.t)) :
  User.create now email password s = (r, s') -> effect s s'.
Proof.
  unfold User.create, Database.insertUser. intros H. handler_cases H.
  all: repeat match goal with
              | F : User.findById _ _ = _ |- _ => rewrite User_findById_eq in F; inv F
              | F : User.findByEmail _ _ = _ |- _ => rewrite User_findByEmail_eq in F; inv F
              end.
  all: try apply effect_refl.
  all: repeat match goal with
              | Hm : Ok _ = Ok _ |- _ => inv Hm
              | Hm : Throw _ = Throw _ |- _ => inv Hm
              end.
  all: try apply effect_refl.
  eapply effect_user; cbn [users posts]; [reflexivity | reflexivity |].
  intros v Hv. cbn [user_id user_email]. split.
  - match goal with
    | |- _ < Database.nextId ?q ?l =>
        exact (proj2 (nextId_above q l) (user_id v) (in_map user_id _ _ Hv))
    end.
  - intros E.
    match goal with
    | Hb : existsb _ _ = false |- _ =>
        assert (Ht : existsb (fun u : userRow => String.eqb (user_email u) email)
                             (users d) = true)
          by (apply existsb_exists; exists v; split;
              [exact Hv | now apply String.eqb_eq]);
        rewrite Ht in Hb; discriminate Hb
    end.
Qed.

Lemma Post_create_effect (now : Z) (title content : option value) (a : slot Z)
      (s s' : db) (r : result (option Post.t)) :
  Post.create now title content a s = (r, s') -> effect s s'.
Proof.
  unfold Post.create, Database.insertPost. intros H. handler_cases H.
  all: repeat match goal with
              | F : Post.findById _ _ = _ |- _ => rewrite Post_findById_eq in F; inv F
              end.
  all: try apply effect_refl.
  all: repeat match goal with
              | Hm : Ok _ = Ok _ |- _ => inv Hm
              | Hm : Throw _ = Throw _ |- _ => inv Hm
              end.
  all: try apply effect_refl.
  all: eapply effect_post; cbn [users posts]; [reflexivity | reflexivity |].
  all: intros p Hp; cbn [post_id];
    match goal with
    | |- _ < Database.nextId ?q ?l =>
        exact (proj2 (nextId_above q l) (post_id p) (in_map post_id _ _ Hp))
    end.
Qed.

Lemma Post_update_effect (this : Post.t) (title content : option value)
      (requester : slot Z) (s s' : db) (r : result Post.t) :
  Post.update this title content requester s = (r, s') -> effect s s'.
Proof.
  unfold Post.update, Database.updatePost. intros H. handler_cases H.
  all: try apply effect_refl.
  all: repeat match goal with
              | Hm : Ok _ = Ok _ |- _ => inv Hm
              | Hm : Throw _ = Throw _ |- _ => inv Hm
              end.
  all: try apply effect_refl.
  all: eapply effect_update; cbn [users posts]; reflexivity.
Qed.

Lemma Post_delete_effect (this : Post.t) (requester : slot Z) (s s' : db) (r : result bool) :
  Post.delete this requester s = (r, s') -> effect s s'.
Proof.
  unfold Post.delete, Database.deletePost. intros H. handler_cases H.
  all: try apply effect_refl.
  all: repeat match goal with
              | Hm : Ok _ = Ok _ |- _ => inv Hm
              | Hm : Throw _ = Throw _ |- _ => inv Hm
              end.
  all: try apply effect_refl.
  all: eapply effect_delete; cbn [users posts]; reflexivity.
Qed.

(** The handlers that only read. *)
Lemma login_reads (now : Z) (req : request) (s s' : db) (r : result response) :
  authController.login now req s = (r, s') -> s' = s.
Proof.
  unfold authController.login. intros H. handler_cases H; reads_done; reflexivity.
Qed.

Lemma getCurrentUser_reads (req : request) (s s' : db) (r : result response) :
  authController.getCurrentUser req s = (r, s') -> s' = s.
Proof.
  unfold authController.getCurrentUser. intros H. handler_cases H; reflexivity.
Qed.

Lemma logout_reads (req : request) (s s' : db) (r : result response) :
  authController.logout req s = (r, s') -> s' = s.
Proof.
  unfold authController.logout. intros H. handler_cases H; reflexivity.
Qed.

Lemma refreshToken_reads (now : Z) (req : request) (s s' : db) (r : result response) :
  authController.refreshToken now req s = (r, s') -> s' = s.
Proof.
  unfold authController.refreshToken. intros H. handler_cases H; reflexivity.
Qed.

Lemma getAllPosts_reads (req : request) (s s' : db) (r : result response) :
  postController.getAllPosts req s = (r, s') -> s' = s.
Proof.
  unfold postController.getAllPosts. cbv zeta. intros H.
  handler_cases H; reads_done; reflexivity.
Qed.

Lemma getPostStats_reads (now : Z) (req : request) (s s' : db) (r : result response) :
  postController.getPostStats now req s = (r, s') -> s' = s.
Proof.
  unfold postController.getPostStats. intros H.
  handler_cases H; reads_done; reflexivity.
Qed.

Lemma getMyPosts_reads (req : request) (s s' : db) (r : result response) :
  postController.getMyPosts req s = (r, s') -> s' = s.
Proof.
  unfold postController.getMyPosts, Post.findByAuthor. intros H.
  handler_cases H; reads_done; reflexivity.
Qed.

Lemma getPostById_reads (req : request) (s s' : db) (r : result response) :
  postController.getPostById req s = (r, s') -> s' = s.
Proof.
  unfold postController.getPostById. intros H.
  handler_cases H; reads_done; reflexivity.
Qed.

(** The handlers that write. *)
Lemma register_effect (now : Z) (req : request) (s s' : db) (r : result response) :
  authController.register now req s = (r, s') -> effect s s'.
Proof.
  unfold authController.register, authController.deref. intros H.
  handler_cases H; try apply effect_refl.
  all: match goal with
       | C : User.create _ _ _ _ = _ |- _ => exact (User_create_effect _ _ _ _ _ _ C)
       end.
Qed.

Lemma createPost_effect (now : Z) (req : request) (s s' : db) (r : result response) :
  postController.createPost now req s = (r, s') -> effect s s'.
Proof.
  unfold postController.createPost, postController.deref. intros H.
  handler_cases H; try apply effect_refl.
  all: match goal with
       | C : Post.create _ _ _ _ _ = _ |- _ => exact (Post_create_effect _ _ _ _ _ _ _ C)
       end.
Qed.

Lemma updatePost_effect (req : request) (s s' : db) (r : result response) :
  postController.updatePost req s = (r, s') -> effect s s'.
Proof.
  unfold postController.updatePost, postController.onUpdateError. intros H.
  handler_cases H; reads_done; try apply effect_refl.
  all: match goal with
       | C : Post.update _ _ _ _ _ = _ |- _ => exact (Post_update_effect _ _ _ _ _ _ _ C)
       end.
Qed.

Lemma deletePost_effect (req : request) (s s' : db) (r : result response) :
  postController.deletePost req s = (r, s') -> effect s s'.
Proof.
  unfold postController.deletePost, postController.onDeleteError. intros H.
  handler_cases H; reads_done; try apply effect_refl.
  all: match goal with
       | C : Post.delete _ _ _ = _ |- _ => exact (Post_delete_effect _ _ _ _ _ C)
       end.
Qed.

Lemma createPost_keeps_users (now : Z) (req : request) (s s' : db) (r : result response) :
  postController.createPost now req s = (r, s') -> users s' = users s.
Proof.
  unfold postController.createPost, postController.deref, Post.create,
    Database.insertPost. intros H.
  handler_cases H; try reflexivity.
  all: repeat match goal with
              | F : Post.findById _ _ = _ |- _ => rewrite Post_findById_eq in F; inv F
              | Hm : Ok _ = Ok _ |- _ => inv Hm
              | Hm : Throw _ = Throw _ |- _ => inv Hm
              end; reflexivity.
Qed.

Lemma deletePost_keeps_users (req : request) (s s' : db) (r : result response) :
  postController.deletePost req s = (r, s') -> users s' = users s.
Proof.
  unfold postController.deletePost, postController.onDeleteError, Post.delete,
    Database.deletePost. intros H.
  handler_cases H; reads_done; try reflexivity.
  all: repeat match goal with
              | Hm : Ok _ = Ok _ |- _ => inv Hm
              | Hm : Throw _ = Throw _ |- _ => inv Hm
              end; reflexivity.
Qed.

(** Through the wrappers of the routes. *)
Lemma protected_run (now : Z) (h : request -> M response) (req : request)
      (s s' : db) (r : result response) :
  Routes.protected now h req s = (r, s') ->
  (s' = s /\ exists resp, r = Ok resp) \/
  (exists req', h req' s = (r, s')).
Proof.
  unfold Routes.protected, bind. rewrite authenticateToken_eq.
  match goal with
  | |- match ?o with Respond _ => _ | Next _ => _ end s = _ -> _ =>
      destruct o as [resp|req']
  end.
  - intros H. inv H. left. split; [reflexivity | now exists resp].
  - intros H. right. now exists req'.
Qed.

Lemma withParamId_run (h : request -> M response) (req : request)
      (s s' : db) (r : result response) :
  Routes.withParamId h req s = (r, s') ->
  (s' = s /\ exists resp, r = Ok resp) \/ h req s = (r, s').
Proof.
  unfold Routes.withParamId.
  destruct (postController.notPositive (JS.parseInt (params_id req))); [|now right].
  intros H. inv H. left. split; [reflexivity | eexists; reflexivity].
Qed.

(** What a route does to the store, whatever the request. *)
Lemma handle_effect (now : Z) (route : Routes.route) (req : request)
      (s s' : db) (r : result response) :
  Routes.handle now route req s = (r, s') -> effect s s'.
Proof.
  intros H.
  assert (Hprot : forall h,
             (forall q s0 s1 r0, h q s0 = (r0, s1) -> effect s0 s1) ->
             forall r0 s1, Routes.protected now h req s = (r0, s1) -> effect s s1).
  { intros h Hh r0 s1 Hp. apply protected_run in Hp.
    destruct Hp as [[-> _] | [req' Hp]]; [apply effect_refl | eauto]. }
  assert (Hread : forall (h : request -> M response),
             (forall q s0 s1 r0, h q s0 = (r0, s1) -> s1 = s0) ->
             forall q s0 s1 r0, h q s0 = (r0, s1) -> effect s0 s1).
  { intros h Hh q s0 s1 r0 Hq. apply Hh in Hq. subst. apply effect_refl. }
  destruct route; cbn [Routes.handle] in H.
  - exact (register_effect _ _ _ _ _ H).
  - apply login_reads in H. subst. apply effect_refl.
  - eapply Hprot; [|exact H]. apply Hread. intros; eapply getCurrentUser_reads; eassumption.
  - eapply Hprot; [|exact H]. apply Hread. intros; eapply logout_reads; eassumption.
  - eapply Hprot; [|exact H]. apply Hread. intros; eapply refreshToken_reads; eassumption.
  - apply getAllPosts_reads in H. subst. apply effect_refl.
  - apply getPostStats_reads in H. subst. apply effect_refl.
  - eapply Hprot; [|exact H]. apply Hread. intros; eapply getMyPosts_reads; eassumption.
  - eapply Hprot; [|exact H]. intros; eapply createPost_effect; eassumption.
  - apply withParamId_run in H. destruct H as [[-> _] | H]; [apply effect_refl|].
    apply getPostById_reads in H. subst. apply effect_refl.
  - apply withParamId_run in H. destruct H as [[-> _] | H]; [apply effect_refl|].
    eapply Hprot; [|exact H]. intros; eapply updatePost_effect; eassumption.
  - apply withParamId_run in H. destruct H as [[-> _] | H]; [apply effect_refl|].
    eapply Hprot; [|exact H]. intros; eapply deletePost_effect; eassumption.
Qed.

Lemma NoDup_snoc {A} (l : list A) (x : A) :
  NoDup l -> ~ In x l -> NoDup (l ++ [x]).
Proof.
  intros Hl Hx. apply NoDup_app; [exact Hl | constructor; [intros [] | constructor] |].
  intros a Ha [<-|[]]. contradiction.
Qed.

Lemma NoDup_map_filter {A B} (f : A -> B) (g : A -> bool) (l : list A) :
  NoDup (map f l) -> NoDup (map f (filter g l)).
Proof.
  induction l as [|a l IH]; cbn; [auto|].
  intros H. inversion H as [|? ? Hn Hl]; subst.
  destruct (g a); [|auto]. cbn. constructor; [|auto].
  intros Hin. apply Hn. apply in_map_iff in Hin. destruct Hin as [y [E Hy]].
  apply filter_In in Hy. apply in_map_iff. exists y. tauto.
Qed.

Lemma effect_keeps_keysUnique (s s' : db) :
  effect s s' -> keysUnique s -> keysUnique s'.
Proof.
  intros E [Hi [He Hp]]. unfold keysUnique.
  destruct E as [Hu Hq | u Hu Hq Hfresh | row Hu Hq Hfresh | title content id Hu Hq
                 | id Hu Hq]; rewrite Hu, Hq.
  - auto.
  - rewrite !map_app. cbn [map]. repeat split; [| |exact Hp].
    + apply NoDup_snoc; [exact Hi|]. intros Hin. apply in_map_iff in Hin.
      destruct Hin as [v [E Hv]]. destruct (Hfresh v Hv) as [L _]. lia.
    + apply NoDup_snoc; [exact He|]. intros Hin. apply in_map_iff in Hin.
      destruct Hin as [v [E Hv]]. destruct (Hfresh v Hv) as [_ N]. contradiction.
  - rewrite map_app. cbn [map]. repeat split; [exact Hi | exact He |].
    apply NoDup_snoc; [exact Hp|]. intros Hin. apply in_map_iff in Hin.
    destruct Hin as [p [E Hp']]. specialize (Hfresh p Hp'). lia.
  - repeat split; [exact Hi | exact He |].
    now rewrite (proj1 (updatePostRow_keeps title content id (posts s))).
  - repeat split; [exact Hi | exact He |]. now apply NoDup_map_filter.
Qed.

(** X5. Whatever the request and its outcome, a route of the two routers
    (the statistics of the posts included) leaves the tables as they are
    or makes one of the four writes of the backend (a user appended under
    a fresh id and email, a post appended under a fresh id, the title and
    content of one post rewritten, one post removed); only registration
    touches the users; and the eight routes other than registration and
    the create, update and delete of a post leave the store exactly as it
    was. *)
Theorem routes_write_only_their_rows (now : Z) (route : Routes.route) (req : request)
        (s s' : db) (r : result response) :
  Routes.handle now route req s = (r, s') ->
  effect s s' /\
  (route <> Routes.POST_auth_register -> users s' = users s) /\
  match route with
  | Routes.POST_auth_register | Routes.POST_posts
  | Routes.PUT_posts_id | Routes.DELETE_posts_id => True
  | _ => s' = s
  end.
Proof.
  intros H. destruct route; cbn [Routes.handle] in H.
  - split; [exact (register_effect _ _ _ _ _ H)|]. split; [congruence | exact I].
  - apply login_reads in H. subst. repeat split; apply effect_refl.
  - apply protected_run in H. destruct H as [[-> _] | [req' H]].
    + repeat split; apply effect_refl.
    + apply getCurrentUser_reads in H. subst. repeat split; apply effect_refl.
  - apply protected_run in H. destruct H as [[-> _] | [req' H]].
    + repeat split; apply effect_refl.
    + apply logout_reads in H. subst. repeat split; apply effect_refl.
  - apply protected_run in H. destruct H as [[-> _] | [req' H]].
    + repeat split; apply effect_refl.
    + apply refreshToken_reads in H. subst. repeat split; apply effect_refl.
  - apply getAllPosts_reads in H. subst. repeat split; apply effect_refl.
  - apply getPostStats_reads in H. subst. repeat split; apply effect_refl.
  - apply protected_run in H. destruct H as [[-> _] | [req' H]].
    + repeat split; apply effect_refl.
    + apply getMyPosts_reads in H. subst. repeat split; apply effect_refl.
  - apply protected_run in H. destruct H as [[-> _] | [req' H]].
    + repeat split; apply effect_refl.
    + split; [exact (createPost_effect _ _ _ _ _ H)|].
      split; [intros _; exact (createPost_keeps_users _ _ _ _ _ H) | exact I].
  - apply withParamId_run in H. destruct H as [[-> _] | H].
    + repeat split; apply effect_refl.
    + apply getPostById_reads in H. subst. repeat split; apply effect_refl.
  - apply withParamId_run in H. destruct H as [[-> _] | H];
      [repeat split; apply effect_refl|].
    apply protected_run in H. destruct H as [[-> _] | [req' H]].
    + repeat split; apply effect_refl.
    + split; [exact (updatePost_effect _ _ _ _ H)|].
      split; [intros _; exact (proj1 (updatePost_frame _ _ _ _ H)) | exact I].
  - apply withParamId_run in H. destruct H as [[-> _] | H];
      [repeat split; apply effect_refl|].
    apply protected_run in H. destruct H as [[-> _] | [req' H]].
    + repeat split; apply effect_refl.
    + split; [exact (deletePost_effect _ _ _ _ H)|].
      split; [intros _; exact (deletePost_keeps_users _ _ _ _ H) | exact I].
Qed.

(** X6. The keys stay unique: no request, on any of the twelve routes of
    the two routers, makes two users share an id or an email or two posts
    share an id, starting from the empty store or from any store where
    they do not. *)
Theorem keys_stay_unique (now : Z) (route : Routes.route) (req : request)
        (s s' : db) (r : result response) :
  keysUnique s ->
  Routes.handle now route req s = (r, s') ->
  keysUnique s'.
Proof.
  intros K H. apply handle_effect in H.
  exact (effect_keeps_keysUnique _ _ H K).
Qed.

(** Every handler answers: whatever is thrown inside is caught. *)
Ltac answers H := handler_cases H; eexists; reflexivity.

Lemma register_answers (now : Z) (req : request) (s s' : db) (r : result response) :
  authController.register now req s = (r, s') -> exists resp, r = Ok resp.
Proof. unfold authController.register, authController.deref. intros H. answers H. Qed.

Lemma login_answers (now : Z) (req : request) (s s' : db) (r : result response) :
  authController.login now req s = (r, s') -> exists resp, r = Ok resp.
Proof. unfold authController.login. intros H. answers H. Qed.

Lemma getCurrentUser_answers (req : request) (s s' : db) (r : result response) :
  authController.getCurrentUser req s = (r, s') -> exists resp, r = Ok resp.
Proof. unfold authController.getCurrentUser. intros H. answers H. Qed.

Lemma logout_answers (req : request) (s s' : db) (r : result response) :
  authController.logout req s = (r, s') -> exists resp, r = Ok resp.
Proof. unfold authController.logout. intros H. answers H. Qed.

Lemma refreshToken_answers (now : Z) (req : request) (s s' : db) (r : result response) :
  authController.refreshToken now req s = (r, s') -> exists resp, r = Ok resp.
Proof. unfold authController.refreshToken. intros H. answers H. Qed.

Lemma createPost_answers (now : Z) (req : request) (s s' : db) (r : result response) :
  postController.createPost now req s = (r, s') -> exists resp, r = Ok resp.
Proof. unfold postController.createPost, postController.deref. intros H. answers H. Qed.

Lemma getAllPosts_answers (req : request) (s s' : db) (r : result response) :
  postController.getAllPosts req s = (r, s') -> exists resp, r = Ok resp.
Proof. unfold postController.getAllPosts. cbv zeta. intros H. answers H. Qed.

Lemma getPostStats_answers (now : Z) (req : request) (s s' : db) (r : result response) :
  postController.getPostStats now req s = (r, s') -> exists resp, r = Ok resp.
Proof. unfold postController.getPostStats. intros H. answers H. Qed.

Lemma getMyPosts_answers (req : request) (s s' : db) (r : result response) :
  postController.getMyPosts req s = (r, s') -> exists resp, r = Ok resp.
Proof. unfold postController.getMyPosts. intros H. answers H. Qed.

Lemma getPostById_answers (req : request) (s s' : db) (r : result response) :
  postController.getPostById req s = (r, s') -> exists resp, r = Ok resp.
Proof. unfold postController.getPostById. intros H. answers H. Qed.

Lemma updatePost_answers (req : request) (s s' : db) (r : result response) :
  postController.updatePost req s = (r, s') -> exists resp, r = Ok resp.
Proof.
  unfold postController.updatePost, postController.onUpdateError. intros H. answers H.
Qed.

Lemma deletePost_answers (req : request) (s s' : db) (r : result response) :
  postController.deletePost req s = (r, s') -> exists resp, r = Ok resp.
Proof.
  unfold postController.deletePost, postController.onDeleteError. intros H. answers H.
Qed.

(** X7. No route of the two routers lets an exception escape: whatever
    the request (its body and query fields any values the parsers
    deliver, strings or not), the state of the store (a failing store
    included) and the behaviour of the hashing and token packages, each of
    the twelve routes ends with an answer. *)
Theorem routes_always_answer (now : Z) (route : Routes.route) (req : request) (s : db) :
  exists resp s', Routes.handle now route req s = (Ok resp, s').
Proof.
  destruct (Routes.handle now route req s) as [r s'] eqn:H.
  enough (exists resp, r = Ok resp) as [resp ->] by (exists resp, s'; reflexivity).
  assert (Hprot : forall h,
             (forall q s0 s1 r0, h q s0 = (r0, s1) -> exists resp, r0 = Ok resp) ->
             forall r0 s1, Routes.protected now h req s = (r0, s1) ->
                           exists resp, r0 = Ok resp).
  { intros h Hh r0 s1 Hp. apply protected_run in Hp.
    destruct Hp as [[_ Hp] | [req' Hp]]; [exact Hp | eauto]. }
  destruct route; cbn [Routes.handle] in H.
  - eapply register_answers; eassumption.
  - eapply login_answers; eassumption.
  - eapply Hprot; [|exact H]. intros; eapply getCurrentUser_answers; eassumption.
  - eapply Hprot; [|exact H]. intros; eapply logout_answers; eassumption.
  - eapply Hprot; [|exact H]. intros; eapply refreshToken_answers; eassumption.
  - eapply getAllPosts_answers; eassumption.
  - eapply getPostStats_answers; eassumption.
  - eapply Hprot; [|exact H]. intros; eapply getMyPosts_answers; eassumption.
  - eapply Hprot; [|exact H]. intros; eapply createPost_answers; eassumption.
  - apply withParamId_run in H. destruct H as [[_ H] | H]; [exact H|].
    eapply getPostById_answers; eassumption.
  - apply withParamId_run in H. destruct H as [[_ H] | H]; [exact H|].
    eapply Hprot; [|exact H]. intros; eapply updatePost_answers; eassumption.
  - apply withParamId_run in H. destruct H as [[_ H] | H]; [exact H|].
    eapply Hprot; [|exact H]. intros; eapply deletePost_answers; eassumption.
Qed.

End Effects.

(* ===================================================================== *)
(** ** The owner's update and delete *)
(* ===================================================================== *)

Lemma find_map_update (title content : string) (i : Z) (l : list postRow) (row : postRow) :
  find (fun p => post_id p =? i) l = Some row ->
  find (fun p => post_id p =? i) (map (Database.updatePostRow title content i) l)
  = Some (mkPostRow (post_id row) title content (post_authorId row) (post_createdAt row)).
Proof.
  induction l as [|p l IH]; cbn [find map]; [discriminate|].
  unfold Database.updatePostRow at 1 2.
  destruct (post_id p =? i) eqn:E.
  - cbn [post_id]. rewrite E. intros H. now inv H.
  - rewrite E. exact IH.
Qed.

Lemma filter_shorter {A} (g : A -> bool) (l : list A) (x : A) :
  In x l -> g x = false -> (List.length (filter g l) < List.length l)%nat.
Proof.
  induction l as [|a l IH]; cbn; [intros []|].
  intros [->|Hx] Hg.
  - rewrite Hg. pose proof (filter_length_le g l). lia.
  - specialize (IH Hx Hg). destruct (g a); cbn; lia.
Qed.

Lemma find_filter_out (i : Z) (l : list postRow) :
  find (fun p => post_id p =? i) (filter (fun p => negb (post_id p =? i)) l) = None.
Proof.
  induction l as [|p l IH]; cbn; [reflexivity|].
  destruct (post_id p =? i) eqn:E; cbn; [exact IH|]. now rewrite E.
Qed.

Section OwnerWrites.
Context {P : Platform}.

(** A string with something left after trimming is not blank. *)
Lemma blank_string (what t : string) :
  JS.trim t <> "" ->
  Post.blank what (Some (VStr t)) = Ok false /\ truthy (Some (VStr t)) = true.
Proof.
  intros N. assert (T : truthy (Some (VStr t)) = true).
  { destruct t; [now elim N | reflexivity]. }
  split; [|exact T]. unfold Post.blank. rewrite T. cbn [negb trimOf callOnString].
  f_equal. apply Z.eqb_neq. unfold JS.length.
  destruct (JS.trim t); [now elim N | cbn; lia].
Qed.

(** X8. An update by the owner with a title and a content that are
    strings and not blank is answered with 200 and the post with both
    fields trimmed; the row keeps its id, owner and creation time, the
    rows of other ids are untouched, and reading the post afterwards
    returns the new fields. *)
Theorem owner_update_round_trip (req : request) (s : db) (uid postId : Z) (row : postRow)
        (rawTitle rawContent : string) :
  req_userId req = Val uid -> uid <> 0 ->
  JS.parseInt (params_id req) = Some (JS.Int postId) -> 0 < postId ->
  body_title req = Some (VStr rawTitle) -> JS.trim rawTitle <> "" ->
  body_content req = Some (VStr rawContent) -> JS.trim rawContent <> "" ->
  fault s = None ->
  find (fun p => post_id p =? postId) (posts s) = Some row ->
  post_authorId row = uid ->
  let title := JS.trim rawTitle in
  let content := JS.trim rawContent in
  let row' := mkPostRow (post_id row) title content (post_authorId row) (post_createdAt row) in
  let s' := mkDb (users s) (map (Database.updatePostRow title content postId) (posts s))
                 (users_seq s) (posts_seq s) (fault s) in
  postController.updatePost req s =
  (Ok (respond 200 [("message", JStr "Post updated successfully");
                    ("post", Post.toObject (Post.ofRow (Database.joinAuthor s row')))]), s') /\
  Post.findById (JS.Int postId) s' =
  (Ok (Some (Post.ofRow (Database.joinAuthor s row'))), s') /\
  (forall p, In p (posts s) -> post_id p <> postId -> In p (posts s')).
Proof.
  intros Hu Hnz Hid Hpos Et Nt Ec Nc Hf Hfind Hown. cbn zeta.
  assert (Hrid : post_id row = postId).
  { apply find_some in Hfind. destruct Hfind as [_ E]. now apply Z.eqb_eq in E. }
  destruct (blank_string "title" _ Nt) as [Ht Htt].
  destruct (blank_string "content" _ Nc) as [Hc Htc].
  split; [|split].
  - unfold postController.updatePost. unfold try_catch at 1. unfold bind at 1.
    rewrite Hu. cbn [truthyId]. apply Z.eqb_neq in Hnz. rewrite Hnz. cbn [negb].
    rewrite Hid. cbn [JS.nonPositive]. destruct (Z.leb_spec postId 0); [lia|].
    rewrite Et, Ec, Htt, Htc. cbn [negb orb].
    rewrite Post_findById_eq, Hf. unfold Database.selectPostById. rewrite Hfind.
    cbn [option_map]. unfold bind.
    unfold Post.update. unfold rethrow, try_catch, bind.
    unfold Post.notAuthor. cbn [Post.authorId Post.ofRow Database.joinAuthor fst snd].
    rewrite Hown, Z.eqb_refl. cbn [negb]. rewrite Ht, Hc.
    cbn [lift ret trimOf callOnString].
    unfold Database.runQuery, Database.updatePost. rewrite Hf. unfold ret.
    cbn [Post.id Post.createdAt Post.authorEmail Post.authorId Post.ofRow
         Database.joinAuthor fst snd post_id post_authorId post_createdAt].
    rewrite ?Hrid, ?Hown. reflexivity.
  - rewrite Post_findById_eq. cbn [fault]. rewrite Hf.
    unfold Database.selectPostById. cbn [posts].
    rewrite (find_map_update _ _ _ _ _ Hfind). reflexivity.
  - intros p Hp Hne. cbn [posts]. apply in_map_iff. exists p. split; [|exact Hp].
    unfold Database.updatePostRow. apply Z.eqb_neq in Hne. now rewrite Hne.
Qed.

(** X9. A delete by the owner is answered with 204 and removes the post:
    the rows of other ids are kept, reading the id afterwards finds
    nothing and [getPostById] answers 404. *)
Theorem owner_delete_removes (req : request) (s : db) (uid postId : Z) (row : postRow) :
  req_userId req = Val uid -> uid <> 0 ->
  JS.parseInt (params_id req) = Some (JS.Int postId) -> 0 < postId ->
  fault s = None ->
  find (fun p => post_id p =? postId) (posts s) = Some row ->
  post_authorId row = uid ->
  let s' := mkDb (users s) (filter (fun p => negb (post_id p =? postId)) (posts s))
                 (users_seq s) (posts_seq s) (fault s) in
  postController.deletePost req s = (Ok (mkResponse 204 None), s') /\
  Post.findById (JS.Int postId) s' = (Ok None, s') /\
  postController.getPostById req s' =
  (Ok (postController.postNotFound (JS.Int postId)), s') /\
  (forall p, In p (posts s) -> post_id p <> postId -> In p (posts s')).
Proof.
  intros Hu Hnz Hid Hpos Hf Hfind Hown. cbn zeta.
  assert (Hrow : In row (posts s) /\ post_id row = postId).
  { apply find_some in Hfind. destruct Hfind as [Hin E]. now apply Z.eqb_eq in E. }
  destruct Hrow as [Hin Hrid].
  assert (Hgone : Post.findById (JS.Int postId)
                    (mkDb (users s) (filter (fun p => negb (post_id p =? postId)) (posts s))
                          (users_seq s) (posts_seq s) (fault s))
                  = (Ok None, mkDb (users s)
                                   (filter (fun p => negb (post_id p =? postId)) (posts s))
                                   (users_seq s) (posts_seq s) (fault s))).
  { rewrite Post_findById_eq. cbn [fault]. rewrite Hf.
    unfold Database.selectPostById. cbn [posts]. now rewrite find_filter_out. }
  split; [|split; [|split]].
  - unfold postController.deletePost. unfold try_catch at 1. unfold bind at 1.
    rewrite Hu. cbn [truthyId]. apply Z.eqb_neq in Hnz. rewrite Hnz. cbn [negb].
    rewrite Hid. cbn [JS.nonPositive]. destruct (Z.leb_spec postId 0); [lia|].
    rewrite Post_findById_eq, Hf. unfold Database.selectPostById. rewrite Hfind.
    cbn [option_map]. unfold bind.
    unfold Post.delete. unfold rethrow, try_catch, bind.
    unfold Post.notAuthor. cbn [Post.authorId Post.ofRow Database.joinAuthor fst snd].
    rewrite Hown, Z.eqb_refl. cbn [negb].
    unfold Database.runQuery, Database.deletePost. rewrite Hf. unfold ret, throw.
    cbn [Post.id Post.ofRow Database.joinAuthor fst post_id Database.changes].
    rewrite Hrid.
    assert (L : Nat.lt (List.length (filter (fun p => negb (post_id p =? postId)) (posts s)))
                       (List.length (posts s))).
    { apply filter_shorter with (x := row); [exact Hin|].
      rewrite Hrid, Z.eqb_refl. reflexivity. }
    destruct (Z.eqb_spec
                (Z.of_nat (List.length (posts s)) -
                 Z.of_nat (List.length (filter (fun p => negb (post_id p =? postId))
                                               (posts s)))) 0); [lia|].
    reflexivity.
  - exact Hgone.
  - unfold postController.getPostById. unfold try_catch, bind.
    rewrite Hid. cbn [JS.nonPositive]. destruct (Z.leb_spec postId 0); [lia|].
    rewrite Hgone. reflexivity.
  - intros p Hp Hne. cbn [posts]. apply filter_In. split; [exact Hp|].
    apply Z.eqb_neq in Hne. now rewrite Hne.
Qed.

End OwnerWrites.

(* ===================================================================== *)
(** ** Listing posts *)
(* ===================================================================== *)

Lemma insertNewestFirst_perm (p : postRow) (l : list postRow) :
  Permutation (Database.insertNewestFirst p l) (p :: l).
Proof.
  induction l as [|q l IH]; cbn; [reflexivity|].
  destruct (post_createdAt q <=? post_createdAt p); [reflexivity|].
  rewrite IH. apply perm_swap.
Qed.

Lemma orderByCreatedAtDesc_perm (l : list postRow) :
  Permutation (Database.orderByCreatedAtDesc l) l.
Proof.
  unfold Database.orderByCreatedAtDesc. induction l as [|p l IH]; cbn; [reflexivity|].
  rewrite insertNewestFirst_perm. now constructor.
Qed.

(** Inserting keeps a list ordered by [createdAt], newest first. *)
Lemma insertNewestFirst_sorted (p : postRow) (l : list postRow) :
  Sorted (fun a b => post_createdAt b <= post_createdAt a) l ->
  Sorted (fun a b => post_createdAt b <= post_createdAt a) (Database.insertNewestFirst p l).
Proof.
  induction l as [|q l IH]; cbn; intros H.
  - repeat constructor.
  - inversion H as [|? ? Hl Hq]; subst.
    destruct (Z.leb_spec (post_createdAt q) (post_createdAt p)).
    + constructor; [exact H|]. constructor. lia.
    + constructor; [now apply IH|].
      destruct l as [|q' l]; cbn.
      * constructor. lia.
      * inversion Hq; subst.
        destruct (post_createdAt q' <=? post_createdAt p); constructor; lia.
Qed.

Lemma orderByCreatedAtDesc_sorted (l : list postRow) :
  Sorted (fun a b => post_createdAt b <= post_createdAt a)
         (Database.orderByCreatedAtDesc l).
Proof.
  unfold Database.orderByCreatedAtDesc. induction l as [|p l IH]; cbn.
  - constructor.
  - now apply insertNewestFirst_sorted.
Qed.

Section Listing.
Context {P : Platform}.

(** Rows with the same [createdAt] keep the order of the table. *)
Lemma orderByCreatedAtDesc_ties (p q : postRow) :
  post_createdAt p = post_createdAt q ->
  Database.orderByCreatedAtDesc [p; q] = [p; q].
Proof.
  intros E. cbn. rewrite E, Z.leb_refl. reflexivity.
Qed.

(** X10. [Post.findAll(authorId)] returns the rows of the posts table,
    each with its author's email, newest first: all rows when [authorId]
    is falsy ([null], [NaN] or 0), exactly the rows of that author when it
    is another number, and none when it is an infinity. *)
Theorem findAll_newest_first (a : option JS.number) (s s' : db) (found : list Post.t) :
  Post.findAll a s = (Ok found, s') ->
  exists rows,
    found = map (fun r => Post.ofRow (Database.joinAuthor s r)) rows /\
    Sorted (fun p q => post_createdAt q <= post_createdAt p) rows /\
    Permutation rows
      (match a with
       | Some (JS.Int n) => if n =? 0 then posts s
                            else filter (fun p => post_authorId p =? n) (posts s)
       | Some _ => []
       | None => posts s
       end) /\
    (forall n, a = Some (JS.Int n) -> n <> 0 ->
               forall p, In p found -> Post.authorId p = n).
Proof.
  unfold Post.findAll, Database.selectPosts. intros H. handler_cases H.
  all: match goal with
       | |- exists rows, map ?f (map ?g (Database.orderByCreatedAtDesc ?l)) = _ /\ _ =>
           exists (Database.orderByCreatedAtDesc l)
       end.
  all: split; [now rewrite map_map|].
  all: split; [apply orderByCreatedAtDesc_sorted|].
  destruct a as [[n| |]|]; cbn [truthyNum].
  - destruct (Z.eqb_spec n 0) as [->|Hn]; cbn [negb].
    + split; [apply orderByCreatedAtDesc_perm|]. intros m Hm Hnz. inv Hm. contradiction.
    + split; [apply orderByCreatedAtDesc_perm|]. intros m Hm _. inv Hm.
      intros p Hp. rewrite map_map in Hp. apply in_map_iff in Hp.
      destruct Hp as [r [<- Hr]].
      apply (Permutation_in _ (orderByCreatedAtDesc_perm _)) in Hr.
      apply filter_In in Hr. destruct Hr as [_ E]. apply Z.eqb_eq in E.
      cbn [Post.authorId Post.ofRow Database.joinAuthor fst]. exact E.
  - split; [apply orderByCreatedAtDesc_perm|]. intros m Hm. discriminate Hm.
  - split; [apply orderByCreatedAtDesc_perm|]. intros m Hm. discriminate Hm.
  - split; [apply orderByCreatedAtDesc_perm|]. intros m Hm. discriminate Hm.
Qed.

(** What [findAll] returns for a non-zero author: posts of that author,
    as many as the table has. *)
Lemma findAll_of_author (n : Z) (s s' : db) (found : list Post.t) :
  n <> 0 ->
  Post.findAll (Some (JS.Int n)) s = (Ok found, s') ->
  (forall p, In p found -> Post.authorId p = n) /\
  List.length found = List.length (filter (fun p => post_authorId p =? n) (posts s)).
Proof.
  intros Hn. unfold Post.findAll, Database.selectPosts. cbn [truthyNum].
  apply Z.eqb_neq in Hn. rewrite Hn. cbn [negb]. intros H. handler_cases H. split.
  - intros p Hp. rewrite map_map in Hp. apply in_map_iff in Hp.
    destruct Hp as [r [<- Hr]].
    apply (Permutation_in _ (orderByCreatedAtDesc_perm _)) in Hr.
    apply filter_In in Hr. destruct Hr as [_ E]. apply Z.eqb_eq in E.
    cbn [Post.authorId Post.ofRow Database.joinAuthor fst]. exact E.
  - rewrite !length_map. apply Permutation_length, orderByCreatedAtDesc_perm.
Qed.

Lemma findAll_unfiltered (s s' : db) (found : list Post.t) :
  Post.findAll None s = (Ok found, s') ->
  List.length found = List.length (posts s).
Proof.
  unfold Post.findAll, Database.selectPosts. cbn [truthyNum].
  intros H. handler_cases H.
  rewrite !length_map. apply Permutation_length, orderByCreatedAtDesc_perm.
Qed.

(** X17. The list of all posts with an author filter. [parseInt] reads
    the filter as JavaScript prints it, and returns a double: an [author]
    that is not read as a positive number is answered with 400, and an
    author without a row with 404 and the number as JavaScript prints it;
    an answer of 200 to a filtered request lists only posts of the author
    that was read, all of them, with their number as [count] and the
    author as [authorId]; without a filter it lists as many posts as the
    table has. *)
Theorem getAllPosts_filters_by_author (req : request) (s s' : db) (r : response) :
  postController.getAllPosts req s = (Ok r, s') ->
  (forall shown,
      truthy (query_author req) = true ->
      toStringOpt (query_author req) = Ok shown ->
      postController.notPositive (JS.parseInt shown) = true ->
      r = errorResponse 400 "Invalid author ID" "Author ID must be a positive number") /\
  (forall shown n,
      truthy (query_author req) = true ->
      toStringOpt (query_author req) = Ok shown ->
      JS.parseInt shown = Some n -> JS.nonPositive n = false ->
      (fault s = None -> Database.selectUserById (Some n) s = None ->
       r = errorResponse 404 "Author not found"
             ("No user found with ID " ++ JS.numToString n)) /\
      (status r = 200 ->
       exists a found,
         n = JS.Int a /\ 0 < a /\
         bodyField "posts" r = Some (JArr (map (Post.toSummary 200) found)) /\
         bodyField "count" r = Some (JNum (Z.of_nat (List.length found))) /\
         bodyField "authorId" r = Some (JNum a) /\
         (forall p, In p found -> Post.authorId p = a) /\
         List.length found
         = List.length (filter (fun p => post_authorId p =? a) (posts s)))) /\
  (truthy (query_author req) = false -> status r = 200 ->
   exists found,
     bodyField "posts" r = Some (JArr (map (Post.toSummary 200) found)) /\
     bodyField "count" r = Some (JNum (Z.of_nat (List.length found))) /\
     bodyField "authorId" r = None /\
     List.length found = List.length (posts s)).
Proof.
  unfold postController.getAllPosts. cbv zeta. unfold try_catch at 1.
  unfold bind at 1. unfold postController.authorIdOf. intros H.
  split; [|split].
  - intros shown T Sh N. rewrite T, Sh in H. cbn [lift ret] in H. rewrite N in H.
    cbn [andb] in H. unfold ret in H. now inv H.
  - intros shown n T Sh Pa Hpos. rewrite T, Sh in H. cbn [lift ret] in H. rewrite Pa in H.
    cbn [postController.notPositive] in H. rewrite Hpos in H. cbn [andb] in H.
    assert (Tn : truthyNum (Some n) = true).
    { destruct n as [a| |]; cbn in *; try reflexivity.
      apply negb_true_iff, Z.eqb_neq. apply Z.leb_gt in Hpos. lia. }
    rewrite Tn in H.
    unfold bind at 1 in H. rewrite User_findById_eq in H. split.
    + intros Hf Hnone. rewrite Hf, Hnone in H. unfold ret in H. now inv H.
    + intros Hst. destruct (fault s); [inv H; discriminate Hst|].
      destruct (Database.selectUserById (Some n) s) eqn:U; [|inv H; discriminate Hst].
      destruct n as [a| |]; try discriminate U.
      cbn [JS.nonPositive] in Hpos. apply Z.leb_gt in Hpos.
      unfold bind, ret in H.
      destruct (Post.findAll (Some (JS.Int a)) s) as [[found|e] s1] eqn:F;
        [|inv H; discriminate Hst].
      inv H. exists a, found.
      destruct (findAll_of_author a s s' found ltac:(lia) F) as [Ha Hl].
      rewrite length_map. repeat split; assumption || reflexivity.
  - intros T Hst. rewrite T in H. cbn [lift ret andb truthyNum] in H.
    unfold bind, ret in H.
    destruct (Post.findAll None s) as [[found|e] s1] eqn:F; [|inv H; discriminate Hst].
    inv H. exists found. rewrite length_map.
    repeat split; try reflexivity. exact (findAll_unfiltered _ _ _ F).
Qed.

(** [?author=9007199254740993] is read as the double next to it. *)
Example author_filter_is_a_double :
  JS.parseInt "9007199254740993" = Some (JS.Int 9007199254740992) /\
  JS.numToString (JS.Int 9007199254740992) = "9007199254740992".
Proof. split; vm_compute; reflexivity. Qed.

End Listing.

(* ===================================================================== *)
(** ** Logging in, issuing and reading tokens *)
(* ===================================================================== *)

Section Tokens.
Context {P : Platform}.

(** X11. A login is answered with 200 only when the email and the
    password of the body are strings, for a stored user whose email is
    the lower-cased, trimmed email of the body and whose digest
    [bcrypt.compare] accepts for the password of the body; the answer
    carries that user's safe view and a token issued for its id, and the
    store is not written. *)
Theorem login_success_is_earned (now : Z) (req : request) (s s' : db) (r : response) :
  authController.login now req s = (Ok r, s') -> status r = 200 ->
  exists email password u tok,
    body_email req = Some (VStr email) /\
    body_password req = Some (VStr password) /\
    In u (users s) /\
    user_email u = JS.trim (JS.toLowerCase email) /\
    bcrypt_compare password (user_passwordHash u) = Ok true /\
    Auth.generateToken now (user_id u) Auth.defaultTtl = Ok tok /\
    r = respond 200 [("message", JStr "Login successful");
                     ("user", User.toSafeObject u);
                     ("token", JStr tok)] /\
    s' = s.
Proof.
  unfold authController.login, User.verifyPassword, Bcrypt.compare,
    toLowerCaseOf, callOnString.
  intros H Hst.
  destruct (body_email req) as [[| | |email| |]|];
    destruct (body_password req) as [[| | |password| |]|];
    handler_cases H; try discriminate Hst.
  match goal with
  | F : User.findByEmail _ _ = (Ok (Some ?u), _), T : Auth.generateToken _ _ _ = Ok ?t |- _ =>
      pose proof (User_findByEmail_reads _ _ _ _ F); subst;
      apply User_findByEmail_stored in F; destruct F as [Hin He];
      exists email, password, u, t
  end.
  repeat split; try assumption.
  match goal with
  | C : bcrypt_compare _ _ = Ok ?b, N : negb ?b = false |- _ =>
      destruct b; [exact C | discriminate N]
  end.
Qed.

(** What [generateToken] does, in full: it fails when the secret is empty
    or the time span is not one, and otherwise signs, with the secret, the
    subject, the clock as [iat], the expiry of the span, and the issuer
    and audience of the platform. *)
Lemma generateToken_eq (now uid : Z) (ttl : timespan) :
  Auth.generateToken now uid ttl =
  if JS.isEmpty JWT_SECRET
  then Throw (Error "Failed to generate token: secretOrPrivateKey must have a value")
  else match ttl with
       | Span EmptyString =>
           Throw (Error ("Failed to generate token: " ++ Jwt.dq ++ "expiresIn" ++ Jwt.dq ++
                         " should be a number of seconds or string representing a timespan"))
       | _ =>
           match Jwt.expiryOf ttl now with
           | Some e => Ok (jws_encode (Auth.issued now uid e))
           | None =>
               Throw (Error ("Failed to generate token: " ++ Jwt.dq ++ "expiresIn" ++ Jwt.dq ++
                             " should be a number of seconds or string representing a timespan eg: "
                             ++ Jwt.dq ++ "1d" ++ Jwt.dq ++ ", " ++ Jwt.dq ++ "20h" ++ Jwt.dq
                             ++ ", 60"))
           end
       end.
Proof.
  unfold Auth.generateToken, Jwt.sign.
  destruct (JS.isEmpty JWT_SECRET); [reflexivity|]. cbn.
  replace (if now =? 0 then now else now) with now by (destruct (now =? 0); reflexivity).
  destruct ttl as [n | [|c sp]]; cbn; try reflexivity.
  destruct (ms (String c sp)); reflexivity.
Qed.

(** X12. [generateToken] returns a token exactly when the secret is set
    and the time span is one (a number of seconds, or a non-empty string
    the package ms understands); the token then carries the subject, the
    clock as issue time, the clock plus the span as expiry, and the issuer
    "blog-platform" and audience "blog-platform-users". In every other
    case it throws an error whose message starts with "Failed to generate
    token: ". *)
Theorem generateToken_outcomes (now uid : Z) (ttl : timespan) :
  (forall tok,
      Auth.generateToken now uid ttl = Ok tok <->
      JS.isEmpty JWT_SECRET = false /\ ttl <> Span "" /\
      exists e, Jwt.expiryOf ttl now = Some e /\
                tok = jws_encode
                        (mkJws (Some JWT_SECRET)
                               (mkPayload (Some uid) (Some now) None (Some e)
                                          (Some "blog-platform")
                                          (Some "blog-platform-users")))) /\
  (forall err,
      Auth.generateToken now uid ttl = Throw err ->
      name err = "Error" /\ JS.startsWith "Failed to generate token: " (message err) = true).
Proof.
  rewrite generateToken_eq. split.
  - intros tok. split.
    + destruct (JS.isEmpty JWT_SECRET); [discriminate|].
      destruct ttl as [n | [|c sp]]; try discriminate.
      * cbn. intros H. inv H. repeat split; [discriminate|]. eexists. split; reflexivity.
      * destruct (Jwt.expiryOf (Span (String c sp)) now) as [e|] eqn:E; [|discriminate].
        intros H. inv H. repeat split; [discriminate|]. exists e. split; reflexivity.
    + intros [Hs [Hn [e [He ->]]]]. rewrite Hs.
      destruct ttl as [n | [|c sp]]; [| congruence |]; now rewrite He.
  - intros err. destruct (JS.isEmpty JWT_SECRET).
    + intros H. inv H. split; reflexivity.
    + destruct ttl as [n | [|c sp]].
      * cbn. discriminate.
      * intros H. inv H. split; reflexivity.
      * destruct (Jwt.expiryOf (Span (String c sp)) now); [discriminate|].
        intros H. inv H. split; reflexivity.
Qed.

(** X13. [getUserIdFromToken] never throws and consults no store: it
    returns a subject only for a token that decodes, is signed with the
    secret and has not expired, and whenever mandatory resolution attaches
    an identity for a bearer token, it returns the id of that identity. *)
Theorem getUserIdFromToken_sound (now : Z) (tok : string) :
  (forall uid,
      Auth.getUserIdFromToken now tok = Some uid ->
      exists j, jws_decode tok = Some j /\ signedWith j = Some JWT_SECRET /\
                userId (claims j) = Some uid /\
                (forall e, exp (claims j) = Some e -> now < e)) /\
  (forall req req' s s',
      Auth.bearer req = Some tok ->
      Auth.authenticateToken now req s = (Ok (Next req'), s') ->
      exists uid, Auth.getUserIdFromToken now tok = Some uid /\
                  req_userId req' = Val uid).
Proof.
  split.
  - intros uid. unfold Auth.getUserIdFromToken.
    destruct (Jwt.verify now tok JWT_SECRET noOptions) as [p|e] eqn:V; [|discriminate].
    intros Hu. destruct (verify_ok_inv _ _ _ _ V) as [j [D [C [K [E _]]]]].
    exists j. subst p. repeat split; assumption.
  - intros req req' s s' B. rewrite authenticateToken_eq, B.
    unfold Auth.getUserIdFromToken.
    destruct (Jwt.verify now tok JWT_SECRET noOptions) as [p|e]; [|intros H; inv H].
    destruct (User.findById (option_map JS.Int (userId p)) s) as [[[u|]|e] s1] eqn:F;
      cbn [fst]; intros H; inv H.
    apply User_findById_stored in F. destruct F as [_ F].
    exists (user_id u). split; [|reflexivity].
    destruct (userId p); [|discriminate F]. now injection F as ->.
Qed.

(** When mandatory resolution answers, it is with 401 or 500. *)
Lemma authenticateToken_answer_status (now : Z) (req : request) (s s' : db) (r : response) :
  Auth.authenticateToken now req s = (Ok (Respond r), s') ->
  status r = 401 \/ status r = 500.
Proof.
  rewrite authenticateToken_eq. intros H.
  destruct (Auth.bearer req) as [tok|].
  - destruct (Jwt.verify now tok JWT_SECRET noOptions) as [p|e].
    + destruct (fst (User.findById (option_map JS.Int (userId p)) s)) as [[u|]|e]; inv H; auto.
    + inv H. left. apply onJwtError_401.
  - destruct (Auth.noBearer (authorization req)); inv H; auto.
Qed.

(** X14. A refresh answered with 200 carries a token newly issued, at the
    current time and for the default span of seven days, for the id of
    the stored user the bearer token resolved to; the store is not
    written. *)
Theorem refresh_reissues_for_same_subject (now : Z) (req : request) (s s' : db)
        (r : response) :
  Routes.handle now Routes.POST_auth_refresh req s = (Ok r, s') -> status r = 200 ->
  exists u tok,
    In u (users s) /\
    Auth.authenticateToken now req s =
    (Ok (Next (attach req (Val (User.toSafeObject u)) (Val (user_id u)))), s) /\
    Auth.generateToken now (user_id u) (Span "7d") = Ok tok /\
    r = respond 200 [("message", JStr "Token refreshed successfully");
                     ("token", JStr tok)] /\
    s' = s.
Proof.
  cbn [Routes.handle]. unfold Routes.protected, bind. intros H Hst.
  destruct (Auth.authenticateToken now req s) as [[[resp|req']|e] s1] eqn:A;
    [| |discriminate H].
  - apply authenticateToken_answer_status in A. inv H.
    destruct A as [A|A]; rewrite A in Hst; discriminate Hst.
  - apply authenticateToken_attaches in A. destruct A as [-> [u [Hin ->]]].
    unfold authController.refreshToken in H. cbn [req_userId attach] in H.
    handler_cases H; try discriminate Hst.
    exists u. eexists. repeat split; try eassumption; reflexivity.
Qed.

End Tokens.

(* ===================================================================== *)
(** ** The Authorization header and the order of the checks *)
(* ===================================================================== *)

Lemma append_empty_r (a : string) : a ++ "" = a.
Proof. induction a as [|c a IH]; cbn; [reflexivity | now rewrite IH]. Qed.

Lemma prefix_app (p x : string) : String.prefix p (p ++ x) = true.
Proof.
  induction p as [|c p IH]; cbn; [now destruct x|].
  destruct (ascii_dec c c) as [_|n]; [exact IH | now elim n].
Qed.

Lemma prefix_split (p h : string) :
  String.prefix p h = true -> exists x, h = p ++ x.
Proof.
  revert h. induction p as [|c p IH]; intros h.
  - intros _. now exists h.
  - destruct h as [|d h]; cbn; [discriminate|].
    destruct (ascii_dec c d) as [->|]; [|discriminate].
    intros H. destruct (IH h H) as [x ->]. now exists x.
Qed.

Lemma includes_space_app (a b : string) :
  JS.includes " " (a ++ b) = (JS.includes " " a || JS.includes " " b)%bool.
Proof.
  induction a as [|c a IH]; cbn [String.append].
  - destruct b; reflexivity.
  - rewrite !includes_char_cons, IH. now rewrite orb_assoc.
Qed.

(** The first piece of a split on spaces: the text before the first
    space. *)
Lemma split_first (x : string) :
  exists tok ps,
    JS.split " " x = tok :: ps /\ JS.includes " " tok = false /\
    ((x = tok /\ ps = []) \/ exists rest, x = tok ++ " " ++ rest).
Proof.
  induction x as [|c x [tok [ps [E [N D]]]]].
  - exists "", []. repeat split. now left.
  - cbn [JS.split]. destruct (Ascii.eqb_spec c " ") as [->|Hc].
    + exists "", (JS.split " " x). repeat split. right. now exists x.
    + rewrite E. exists (String c tok), ps. repeat split.
      * rewrite includes_char_cons, N.
        destruct (Ascii.eqb_spec c " "); [contradiction | reflexivity].
      * destruct D as [[-> ->] | [rest ->]]; [now left|]. right. now exists rest.
Qed.

Lemma split_token (tok rest : string) :
  JS.includes " " tok = false ->
  rest = "" \/ (exists rest', rest = " " ++ rest') ->
  exists ps, JS.split " " (tok ++ rest) = tok :: ps.
Proof.
  intros N D. induction tok as [|c tok IH].
  - cbn [String.append]. destruct D as [-> | [rest' ->]].
    + now exists [].
    + cbn. now eexists.
  - rewrite includes_char_cons in N. apply orb_false_iff in N. destruct N as [Nc N].
    destruct (IH N) as [ps E]. cbn [String.append JS.split]. rewrite Nc, E. now eexists.
Qed.

Section Order.
Context {P : Platform}.

(** X15. The bearer value both middlewares verify is the text between
    "Bearer " at the head of the Authorization header and the next space
    or the end: it is not empty, holds no space, and whatever follows a
    second space is ignored. A header of that shape always yields that
    value, and no other header yields one. *)
Theorem bearer_is_second_word (req : request) (tok : string) :
  Auth.bearer req = Some tok <->
  exists rest,
    authorization req = Some ("Bearer " ++ tok ++ rest) /\
    tok <> "" /\ JS.includes " " tok = false /\
    (rest = "" \/ exists rest', rest = " " ++ rest').
Proof.
  split.
  - intros B. apply bearer_some in B. destruct B as [B1 [B2 [_ B4]]].
    unfold Auth.noBearer in B1. apply orb_false_iff in B1. destruct B1 as [T S].
    apply negb_false_iff in T. apply negb_false_iff in S.
    destruct (authorization req) as [h|]; [|discriminate T]. cbn [str] in *.
    apply prefix_split in S. destruct S as [x ->].
    unfold Auth.tokenOf in B2. cbn in B2.
    destruct (split_first x) as [t [ps [E [N D]]]]. rewrite E in B2. cbn in B2. inv B2.
    destruct D as [[-> ->] | [rest ->]].
    + exists "". repeat split; auto.
      * now rewrite append_empty_r.
      * intros ->. discriminate B4.
    + exists (" " ++ rest). repeat split; auto.
      * intros ->. discriminate B4.
      * right. now exists rest.
  - intros [rest [H [Hne [N D]]]]. unfold Auth.bearer, Auth.noBearer. rewrite H.
    cbn [str]. unfold JS.startsWith. rewrite prefix_app.
    replace (truthyStr (Some ("Bearer " ++ tok ++ rest))) with true by reflexivity.
    cbn [negb orb]. unfold Auth.tokenOf.
    destruct (split_token tok rest N D) as [ps E].
    assert (S : JS.split " " ("Bearer " ++ tok ++ rest) = "Bearer" :: tok :: ps)
      by (cbn; now rewrite E).
    rewrite S. cbn [nth_error].
    destruct tok as [|c tok]; [congruence | reflexivity].
Qed.

(** X16. The checks of a route come in a fixed order. On the routes with
    an id, an id that is not a positive number is answered with 400
    whatever the credentials; on every protected route (with a valid id
    where there is one), a request mandatory resolution answers gets that
    answer, the handler is not run and the store is not written. *)
Theorem checks_come_in_order (now : Z) (route : Routes.route) (req : request) (s : db) :
  (postController.notPositive (JS.parseInt (params_id req)) = true ->
   match route with
   | Routes.GET_posts_id | Routes.PUT_posts_id | Routes.DELETE_posts_id =>
       Routes.handle now route req s =
       (Ok (errorResponse 400 "Invalid post ID" "Post ID must be a positive number"), s)
   | _ => True
   end) /\
  (forall r,
      Auth.authenticateToken now req s = (Ok (Respond r), s) ->
      match route with
      | Routes.GET_auth_me | Routes.POST_auth_logout | Routes.POST_auth_refresh
      | Routes.GET_posts_my | Routes.POST_posts =>
          Routes.handle now route req s = (Ok r, s)
      | Routes.PUT_posts_id | Routes.DELETE_posts_id =>
          postController.notPositive (JS.parseInt (params_id req)) = false ->
          Routes.handle now route req s = (Ok r, s)
      | _ => True
      end).
Proof.
  split.
  - intros Hbad. destruct route; try exact I;
      cbn [Routes.handle]; unfold Routes.withParamId; rewrite Hbad; reflexivity.
  - intros r A. destruct route; try exact I; cbn [Routes.handle];
      try (intros Hok; unfold Routes.withParamId; rewrite Hok);
      unfold Routes.protected, bind; rewrite A; reflexivity.
Qed.

End Order.

(* ===================================================================== *)
(** ** Rejected input, a failing store, and the handlers' own guards *)
(* ===================================================================== *)

Section Degraded.
Context {P : Platform}.

(** X18. A registration without email or password, with an email the
    pattern refuses, or with a password shorter than 6 characters (and an
    email the pattern can be tested on) is answered with 400 and writes
    nothing, whatever the store holds. *)
Theorem register_rejects_bad_input (now : Z) (req : request) (s s' : db)
        (r : result response) :
  truthy (body_email req) = false \/
  truthy (body_password req) = false \/
  authController.emailRegex_testOn (body_email req) = Ok false \/
  ((exists fits, authController.emailRegex_testOn (body_email req) = Ok fits) /\
   authController.lengthBelow (body_password req) 6 = Ok true) ->
  authController.register now req s = (r, s') ->
  s' = s /\ exists err details, r = Ok (errorResponse 400 err details).
Proof.
  intros Hbad. unfold authController.register. cbv zeta. unfold try_catch at 1.
  intros Hrun.
  destruct (truthy (body_email req)) eqn:E;
    [|inv Hrun; split; [reflexivity | repeat eexists]].
  destruct (truthy (body_password req)) eqn:W;
    [|inv Hrun; split; [reflexivity | repeat eexists]].
  cbn [negb orb] in Hrun. unfold bind at 1 in Hrun.
  destruct (authController.emailRegex_testOn (body_email req)) as [fits|e] eqn:R.
  - cbn [lift ret] in Hrun. destruct fits; cbn [negb] in Hrun;
      [|inv Hrun; split; [reflexivity | repeat eexists]].
    unfold bind at 1 in Hrun.
    destruct (authController.lengthBelow (body_password req) 6) as [[|]|e] eqn:L.
    + cbn [lift ret] in Hrun. inv Hrun. split; [reflexivity | repeat eexists].
    + destruct Hbad as [B|[B|[B|[_ B]]]]; discriminate B.
    + destruct Hbad as [B|[B|[B|[_ B]]]]; discriminate B.
  - destruct Hbad as [B|[B|[B|[[fits B] _]]]]; discriminate B.
Qed.

(** A model call that returns has found the store in working order. *)
Lemma User_findById_working (id : option JS.number) (s s' : db) (x : option User.t) :
  User.findById id s = (Ok x, s') -> fault s = None.
Proof.
  unfold User.findById. intros H. handler_cases H; reflexivity.
Qed.

Lemma User_findByEmail_working (e : string) (s s' : db) (x : option User.t) :
  User.findByEmail e s = (Ok x, s') -> fault s = None.
Proof.
  unfold User.findByEmail. intros H. handler_cases H; reflexivity.
Qed.

Lemma Post_findById_working (i : JS.number) (s s' : db) (x : option Post.t) :
  Post.findById i s = (Ok x, s') -> fault s = None.
Proof.
  unfold Post.findById. intros H. handler_cases H; reflexivity.
Qed.

Lemma Post_findAll_working (a : option JS.number) (s s' : db) (x : list Post.t) :
  Post.findAll a s = (Ok x, s') -> fault s = None.
Proof.
  unfold Post.findAll. intros H. handler_cases H; reflexivity.
Qed.

Lemma User_create_working (now : Z) (email : string) (password : option value) (s s' : db)
      (x : option User.t) :
  User.create now email password s = (Ok x, s') -> fault s = None.
Proof.
  unfold User.create. intros H. handler_cases H.
  all: match goal with
       | F : User.findByEmail _ _ = (Ok _, _) |- _ =>
           exact (User_findByEmail_working _ _ _ _ F)
       end.
Qed.

Ltac working :=
  match goal with
  | Hf : fault ?s = Some _, F : User.findById _ ?s = (Ok _, _) |- _ =>
      apply User_findById_working in F; congruence
  | Hf : fault ?s = Some _, F : User.findByEmail _ ?s = (Ok _, _) |- _ =>
      apply User_findByEmail_working in F; congruence
  | Hf : fault ?s = Some _, F : Post.findById _ ?s = (Ok _, _) |- _ =>
      apply Post_findById_working in F; congruence
  | Hf : fault ?s = Some _, F : Post.findAll _ ?s = (Ok _, _) |- _ =>
      apply Post_findAll_working in F; congruence
  | Hf : fault ?s = Some _, F : User.create _ _ _ ?s = (Ok _, _) |- _ =>
      apply User_create_working in F; congruence
  end.

Ltac refused := split; [reflexivity | cbn; lia].

Lemma User_create_fails_clean (now : Z) (email : string) (password : option value) (s s' : db)
      (e : error) (msg : string) :
  fault s = Some msg ->
  User.create now email password s = (Throw e, s') -> s' = s.
Proof.
  intros Hf. unfold User.create. intros H.
  handler_cases H; reads_done; try reflexivity; try working; congruence.
Qed.

Lemma register_degraded (now : Z) (req : request) (s s' : db) (r : response)
      (msg : string) :
  fault s = Some msg ->
  authController.register now req s = (Ok r, s') -> s' = s /\ 400 <= status r.
Proof.
  intros Hf. unfold authController.register, authController.deref. intros H.
  handler_cases H; try working; try refused.
  all: match goal with
       | C : User.create _ _ _ _ = (Throw _, _) |- _ =>
           apply (User_create_fails_clean _ _ _ _ _ _ _ Hf) in C; subst
       end; refused.
Qed.

Lemma login_degraded (now : Z) (req : request) (s s' : db) (r : response)
      (msg : string) :
  fault s = Some msg ->
  authController.login now req s = (Ok r, s') -> s' = s /\ 400 <= status r.
Proof.
  intros Hf. unfold authController.login. intros H.
  handler_cases H; try working; reads_done; refused.
Qed.

Lemma getAllPosts_degraded (req : request) (s s' : db) (r : response) (msg : string) :
  fault s = Some msg ->
  postController.getAllPosts req s = (Ok r, s') -> s' = s /\ 400 <= status r.
Proof.
  intros Hf. unfold postController.getAllPosts. cbv zeta. intros H.
  handler_cases H; try working; reads_done; refused.
Qed.

Lemma getPostById_degraded (req : request) (s s' : db) (r : response) (msg : string) :
  fault s = Some msg ->
  postController.getPostById req s = (Ok r, s') -> s' = s /\ 400 <= status r.
Proof.
  intros Hf. unfold postController.getPostById. intros H.
  handler_cases H; try working; reads_done; refused.
Qed.

Lemma getPostStats_degraded (now : Z) (req : request) (s s' : db) (r : response)
      (msg : string) :
  fault s = Some msg ->
  postController.getPostStats now req s = (Ok r, s') -> s' = s /\ 400 <= status r.
Proof.
  intros Hf. unfold postController.getPostStats. cbv zeta. unfold try_catch, bind.
  destruct (Post.findAll None s) as [[found|e] s1] eqn:F; intros H.
  - apply Post_findAll_working in F. congruence.
  - apply Post_findAll_reads in F. inv H. split; [reflexivity | cbn; lia].
Qed.

Lemma protected_degraded (now : Z) (h : request -> M response) (req : request)
      (s s' : db) (r : response) (msg : string) :
  fault s = Some msg ->
  Routes.protected now h req s = (Ok r, s') -> s' = s /\ 400 <= status r.
Proof.
  intros Hf. unfold Routes.protected, bind.
  destruct (Auth.authenticateToken now req s) as [[[resp|req']|e] s1] eqn:A;
    intros H; [| |discriminate H].
  - inv H. destruct (authenticateToken_answers _ _ _ _ _ A) as [-> _].
    apply authenticateToken_answer_status in A.
    split; [reflexivity | destruct A as [-> | ->]; lia].
  - exfalso. unfold Auth.authenticateToken in A. handler_cases A; working.
Qed.

(** X19. While the store fails, no route answers with a success and no
    route writes: every answer is an error of status 400 or above, and the
    store is left as it was. *)
Theorem failing_store_never_succeeds (now : Z) (route : Routes.route) (req : request)
        (s s' : db) (r : response) (msg : string) :
  fault s = Some msg ->
  Routes.handle now route req s = (Ok r, s') ->
  s' = s /\ 400 <= status r.
Proof.
  intros Hf H.
  assert (Hid : forall h,
             (Routes.withParamId h req s = (Ok r, s')) ->
             (h req s = (Ok r, s') -> s' = s /\ 400 <= status r) ->
             s' = s /\ 400 <= status r).
  { intros h Hw Hh. unfold Routes.withParamId in Hw.
    destruct (postController.notPositive (JS.parseInt (params_id req))); [|auto].
    inv Hw. split; [reflexivity | cbn; lia]. }
  destruct route; cbn [Routes.handle] in H.
  - eapply register_degraded; eassumption.
  - eapply login_degraded; eassumption.
  - eapply protected_degraded; eassumption.
  - eapply protected_degraded; eassumption.
  - eapply protected_degraded; eassumption.
  - eapply getAllPosts_degraded; eassumption.
  - eapply getPostStats_degraded; eassumption.
  - eapply protected_degraded; eassumption.
  - eapply protected_degraded; eassumption.
  - eapply Hid; [exact H|]. intros H'. eapply getPostById_degraded; eassumption.
  - eapply Hid; [exact H|]. intros H'. eapply protected_degraded; eassumption.
  - eapply Hid; [exact H|]. intros H'. eapply protected_degraded; eassumption.
Qed.

(** The answers of the handlers that never hold their own guard's error. *)
Ltac not_guard :=
  cbn; try (intros [X|[X|[]]]; discriminate X); try (intros []).

Lemma authenticateToken_error_names (now : Z) (req : request) (s s' : db) (r : response) :
  Auth.authenticateToken now req s = (Ok (Respond r), s') ->
  ~ In (bodyField "error" r)
       [Some (JStr "Authentication required"); Some (JStr "Not authenticated")].
Proof.
  unfold Auth.authenticateToken. intros H. handler_cases H; not_guard.
Qed.

Lemma behind_middleware (now : Z) (h : request -> M response) (req : request)
      (s s' : db) (r : response) :
  (forall u, In u (users s) -> user_id u <> 0) ->
  (forall j i s1, i <> 0 -> h (attach req (Val j) (Val i)) s = (Ok r, s1) ->
                  ~ In (bodyField "error" r)
                       [Some (JStr "Authentication required");
                        Some (JStr "Not authenticated")]) ->
  Routes.protected now h req s = (Ok r, s') ->
  ~ In (bodyField "error" r)
       [Some (JStr "Authentication required"); Some (JStr "Not authenticated")].
Proof.
  intros Hid Hh. unfold Routes.protected, bind.
  destruct (Auth.authenticateToken now req s) as [[[resp|req']|e] s1] eqn:A;
    intros H; [| |discriminate H].
  - inv H. eapply authenticateToken_error_names; eassumption.
  - apply authenticateToken_attaches in A. destruct A as [-> [u [Hin ->]]].
    eapply Hh; [apply Hid; exact Hin | exact H].
Qed.

(** X20. Behind the middleware the handlers' own authentication guards
    are never the answer: as long as no user has the id 0, no route
    answers with the error "Authentication required" or "Not
    authenticated"; a request without a valid identity is answered by the
    middleware, in its own words. *)
Theorem handlers_own_guards_unreachable (now : Z) (route : Routes.route) (req : request)
        (s s' : db) (r : response) :
  (forall u, In u (users s) -> user_id u <> 0) ->
  Routes.handle now route req s = (Ok r, s') ->
  ~ In (bodyField "error" r)
       [Some (JStr "Authentication required"); Some (JStr "Not authenticated")].
Proof.
  intros Hid H.
  assert (Hparam : forall h,
             Routes.withParamId h req s = (Ok r, s') ->
             (h req s = (Ok r, s') ->
              ~ In (bodyField "error" r)
                   [Some (JStr "Authentication required");
                    Some (JStr "Not authenticated")]) ->
             ~ In (bodyField "error" r)
                  [Some (JStr "Authentication required");
                   Some (JStr "Not authenticated")]).
  { intros h Hw Hh. unfold Routes.withParamId in Hw.
    destruct (postController.notPositive (JS.parseInt (params_id req))); [|auto].
    inv Hw. not_guard. }
  destruct route; cbn [Routes.handle] in H.
  - unfold authController.register, authController.deref in H.
    handler_cases H; not_guard.
  - unfold authController.login in H. handler_cases H; not_guard.
  - eapply behind_middleware; [exact Hid | | exact H]. intros j i s1 Hi G.
    unfold authController.getCurrentUser in G. cbn [req_user attach] in G.
    handler_cases G; not_guard.
  - eapply behind_middleware; [exact Hid | | exact H]. intros j i s1 Hi G.
    unfold authController.logout in G. handler_cases G; not_guard.
  - eapply behind_middleware; [exact Hid | | exact H]. intros j i s1 Hi G.
    unfold authController.refreshToken in G. cbn [req_userId attach] in G.
    apply Z.eqb_neq in Hi. rewrite Hi in G. handler_cases G; not_guard.
  - unfold postController.getAllPosts in H. cbv zeta in H.
    handler_cases H; not_guard.
  - unfold postController.getPostStats in H. cbv zeta in H.
    unfold try_catch, bind, ret in H.
    destruct (Post.findAll None s) as [[found|e] s1]; inv H; not_guard.
  - eapply behind_middleware; [exact Hid | | exact H]. intros j i s1 Hi G.
    unfold postController.getMyPosts in G. cbn [req_userId attach] in G.
    apply Z.eqb_neq in Hi. rewrite Hi in G. handler_cases G; not_guard.
  - eapply behind_middleware; [exact Hid | | exact H]. intros j i s1 Hi G.
    unfold postController.createPost, postController.deref in G.
    cbn [req_userId attach truthyId] in G.
    apply Z.eqb_neq in Hi. rewrite Hi in G. cbn [negb] in G.
    handler_cases G; not_guard.
  - eapply Hparam; [exact H|]. intros G.
    unfold postController.getPostById in G. handler_cases G; not_guard.
  - eapply Hparam; [exact H|]. intros H'.
    eapply behind_middleware; [exact Hid | | exact H']. intros j i s1 Hi G.
    unfold postController.updatePost, postController.onUpdateError in G.
    cbn [req_userId attach truthyId] in G.
    apply Z.eqb_neq in Hi. rewrite Hi in G. cbn [negb] in G.
    handler_cases G; not_guard.
  - eapply Hparam; [exact H|]. intros H'.
    eapply behind_middleware; [exact Hid | | exact H']. intros j i s1 Hi G.
    unfold postController.deletePost, postController.onDeleteError in G.
    cbn [req_userId attach truthyId] in G.
    apply Z.eqb_neq in Hi. rewrite Hi in G. cbn [negb] in G.
    handler_cases G; not_guard.
Qed.

End Degraded.

(* ===================================================================== *)
(** ** The email pattern *)
(* ===================================================================== *)

Lemma split_nonempty (sep : ascii) (s : string) : JS.split sep s <> [].
Proof.
  destruct s as [|c s]; cbn; [discriminate|].
  destruct (Ascii.eqb c sep); [discriminate|].
  destruct (JS.split sep s); discriminate.
Qed.

Lemma split_single (sep : ascii) (s : string) :
  (forall c, In c (list_ascii_of_string s) -> c <> sep) -> JS.split sep s = [s].
Proof.
  induction s as [|a s IH]; cbn [JS.split list_ascii_of_string]; intros H.
  - reflexivity.
  - destruct (Ascii.eqb_spec a sep) as [E|E].
    + exfalso. apply (H a); [now left | exact E].
    + rewrite IH; [reflexivity|]. intros c Hc. apply H. now right.
Qed.

Lemma split_single_inv (sep : ascii) (s p : string) :
  JS.split sep s = [p] ->
  s = p /\ forall c, In c (list_ascii_of_string p) -> c <> sep.
Proof.
  revert p. induction s as [|a s IH]; cbn [JS.split]; intros p H.
  - inv H. split; [reflexivity | intros c []].
  - destruct (Ascii.eqb_spec a sep) as [E|E].
    + inv H. exfalso. eapply split_nonempty; eassumption.
    + destruct (JS.split sep s) as [|q qs] eqn:S;
        [exfalso; eapply split_nonempty; eassumption|].
      inv H. destruct (IH q eq_refl) as [-> Hq].
      split; [reflexivity|]. intros c [<-|Hc]; [exact E | now apply Hq].
Qed.

Lemma split_two (sep : ascii) (l d : string) :
  (forall c, In c (list_ascii_of_string l) -> c <> sep) ->
  (forall c, In c (list_ascii_of_string d) -> c <> sep) ->
  JS.split sep (l ++ String sep d) = [l; d].
Proof.
  intros Hl Hd. induction l as [|a l IH]; cbn [String.append JS.split].
  - rewrite Ascii.eqb_refl. now rewrite split_single.
  - destruct (Ascii.eqb_spec a sep) as [E|E].
    + exfalso. apply (Hl a); [now left | exact E].
    + rewrite IH; [reflexivity|]. intros c Hc. apply Hl. now right.
Qed.

Lemma split_two_inv (sep : ascii) (s l d : string) :
  JS.split sep s = [l; d] ->
  s = l ++ String sep d /\
  (forall c, In c (list_ascii_of_string l) -> c <> sep) /\
  (forall c, In c (list_ascii_of_string d) -> c <> sep).
Proof.
  revert l. induction s as [|a s IH]; cbn [JS.split]; intros l H.
  - discriminate H.
  - destruct (Ascii.eqb_spec a sep) as [E|E].
    + inv H. match goal with S : JS.split _ _ = [_] |- _ =>
                 apply split_single_inv in S; destruct S as [-> Hd] end.
      split; [reflexivity|]. split; [intros c [] | exact Hd].
    + destruct (JS.split sep s) as [|q qs] eqn:S; [discriminate H|].
      inv H. destruct (IH q eq_refl) as [-> [Hq Hd]].
      split; [reflexivity|]. split; [|exact Hd].
      intros c [<-|Hc]; [exact E | now apply Hq].
Qed.

Lemma noSpace_spec (s : string) :
  authController.noSpace s = true <->
  forall c, In c (list_ascii_of_string s) -> JS.isSpace c = false.
Proof.
  induction s as [|a s IH]; cbn [authController.noSpace list_ascii_of_string].
  - split; [intros _ c [] | reflexivity].
  - rewrite andb_true_iff, negb_true_iff, IH. split.
    + intros [Ha Hs] c [<-|Hc]; [exact Ha | now apply Hs].
    + intros H. split; [apply H; now left | intros c Hc; apply H; now right].
Qed.

Lemma dotThenMore_spec (s : string) :
  authController.dotThenMore s = true <->
  exists x b, s = x ++ String "." b /\ b <> "".
Proof.
  induction s as [|a s IH]; cbn [authController.dotThenMore].
  - split; [discriminate|]. intros [x [b [E _]]]. destruct x; discriminate E.
  - rewrite orb_true_iff, andb_true_iff, negb_true_iff, IH. split.
    + intros [[Ha Hs]|[x [b [-> Hb]]]].
      * apply Ascii.eqb_eq in Ha. subst a. exists "", s. split; [reflexivity|].
        destruct s; [discriminate Hs | discriminate].
      * exists (String a x), b. split; [reflexivity | exact Hb].
    + intros [x [b [E Hb]]]. destruct x as [|c x]; cbn [String.append] in E.
      * inv E. left. split; [apply Ascii.eqb_refl|]. now destruct b.
      * inv E. right. exists x, b. split; [reflexivity | exact Hb].
Qed.

Lemma in_string_app (c : ascii) (a b : string) :
  In c (list_ascii_of_string (a ++ b)) <->
  In c (list_ascii_of_string a) \/ In c (list_ascii_of_string b).
Proof.
  induction a as [|x a IH]; cbn [String.append list_ascii_of_string In].
  - tauto.
  - rewrite IH. tauto.
Qed.

(** X22. The test of the email pattern accepts exactly the strings the
    regular expression [^[^\s@]+@[^\s@]+\.[^\s@]+$] describes: a non-empty
    piece, [@], a non-empty piece, a dot and a non-empty piece, the pieces
    free of white space and of [@]. *)
Theorem emailRegex_accepts_the_pattern (email : string) :
  authController.emailRegex_test email = true <->
  authController.matchesEmailPattern email.
Proof.
  unfold authController.emailRegex_test, authController.matchesEmailPattern,
    authController.classRun.
  split.
  - destruct (JS.split "@" email) as [|l [|d [|x xs]]] eqn:S; try discriminate.
    apply split_two_inv in S. destruct S as [-> [Hl Hd]].
    rewrite !andb_true_iff, negb_true_iff, !noSpace_spec.
    intros [[[Ne Sl] Sd] Dot].
    destruct d as [|c d']; [discriminate Dot|].
    apply dotThenMore_spec in Dot. destruct Dot as [x [b [-> Hb]]].
    exists l, (String c x), b. split; [reflexivity|].
    split; [|split].
    + split; [now destruct l|]. intros k Hk. split; [now apply Sl | now apply Hl].
    + split; [discriminate|]. intros k Hk.
      assert (In k (list_ascii_of_string (String c (x ++ String "." b)))).
      { destruct Hk as [<-|Hk]; [now left | right].
        apply in_string_app. now left. }
      split; [now apply Sd | now apply Hd].
    + split; [exact Hb|]. intros k Hk.
      assert (In k (list_ascii_of_string (String c (x ++ String "." b)))).
      { right. apply in_string_app. right. now right. }
      split; [now apply Sd | now apply Hd].
  - intros [l [a [b [-> [[Nl Hl] [[Na Ha] [Nb Hb]]]]]]].
    assert (Hd : forall k, In k (list_ascii_of_string (a ++ "." ++ b)) ->
                           JS.isSpace k = false /\ k <> "@"%char).
    { intros k Hk. apply in_string_app in Hk. destruct Hk as [Hk|[<-|Hk]].
      - now apply Ha.
      - split; [reflexivity | discriminate].
      - now apply Hb. }
    change (l ++ "@" ++ a ++ "." ++ b) with (l ++ String "@" (a ++ "." ++ b)).
    rewrite split_two; [|intros k Hk; now apply Hl | intros k Hk; now apply Hd].
    rewrite !andb_true_iff, negb_true_iff. repeat split.
    + now destruct l.
    + apply noSpace_spec. intros k Hk. now apply Hl.
    + apply noSpace_spec. intros k Hk. now apply Hd.
    + destruct a as [|c x]; [congruence|]. cbn [String.append].
      apply dotThenMore_spec. exists x, b. split; [reflexivity | exact Nb].
Qed.

(* ===================================================================== *)
(** ** Where the answers 500 come from *)
(* ===================================================================== *)

Section Causes.
Context {P : Platform}.

Lemma authenticateToken_working (now : Z) (req : request) (s s' : db) (r : response) :
  fault s = None ->
  Auth.authenticateToken now req s = (Ok (Respond r), s') -> status r = 401.
Proof.
  intros Hf. rewrite authenticateToken_eq. intros H.
  destruct (Auth.bearer req) as [tok|].
  - destruct (Jwt.verify now tok JWT_SECRET noOptions) as [p|e].
    + rewrite User_findById_eq, Hf in H. cbn [fst] in H.
      destruct (Database.selectUserById (option_map JS.Int (userId p)) s); inv H. reflexivity.
    + inv H. apply onJwtError_401.
  - destruct (Auth.noBearer (authorization req)); inv H; reflexivity.
Qed.

Lemma protected_working (now : Z) (h : request -> M response) (req : request)
      (s s' : db) (r : response) :
  fault s = None ->
  Routes.protected now h req s = (Ok r, s') ->
  status r = 401 \/
  exists u, In u (users s) /\
            h (attach req (Val (User.toSafeObject u)) (Val (user_id u))) s = (Ok r, s').
Proof.
  intros Hf. unfold Routes.protected, bind.
  destruct (Auth.authenticateToken now req s) as [[[resp|req']|e] s1] eqn:A;
    intros H; [| |discriminate H].
  - inv H. left. eapply authenticateToken_working; eassumption.
  - apply authenticateToken_attaches in A. destruct A as [-> [u [Hin ->]]].
    right. exists u. split; [exact Hin | exact H].
Qed.

Lemma getAllPosts_500 (req : request) (s s' : db) (r : response) :
  fault s = None ->
  postController.getAllPosts req s = (Ok r, s') -> status r = 500 ->
  exists e, toStringOpt (query_author req) = Throw e.
Proof.
  intros Hf. unfold postController.getAllPosts, postController.authorIdOf,
    Post.findAll, User.findById. cbv zeta.
  intros H Hst. handler_cases H; cbn in *; try congruence; eauto.
Qed.

Lemma getPostStats_no_500 (now : Z) (req : request) (s s' : db) (r : response) :
  fault s = None ->
  postController.getPostStats now req s = (Ok r, s') -> status r <> 500.
Proof.
  intros Hf. unfold postController.getPostStats. cbv zeta. unfold try_catch, bind, ret.
  rewrite Post_findAll_eq, Hf. intros H. inv H. cbn. discriminate.
Qed.

Lemma getMyPosts_no_500 (req : request) (s s' : db) (r : response) :
  fault s = None ->
  postController.getMyPosts req s = (Ok r, s') -> status r <> 500.
Proof.
  intros Hf. unfold postController.getMyPosts, Post.findByAuthor, Post.findAll.
  intros H. handler_cases H; cbn; congruence.
Qed.

Lemma getPostById_no_500 (req : request) (s s' : db) (r : response) :
  fault s = None ->
  postController.getPostById req s = (Ok r, s') -> status r <> 500.
Proof.
  intros Hf. unfold postController.getPostById, Post.findById.
  intros H. handler_cases H; cbn; congruence.
Qed.

Lemma option_map_some {A B} (f : A -> B) (x : option A) (y : B) :
  option_map f x = Some y -> exists a, x = Some a /\ y = f a.
Proof. destruct x as [a|]; intros H; inv H. now exists a. Qed.

Lemma find_new_post (ps : list postRow) (seq : Z) (row : postRow) :
  post_id row = Database.nextId seq (map post_id ps) ->
  find (fun p => post_id p =? post_id row) (ps ++ [row])%list = Some row.
Proof.
  intros E. apply find_app_last; [|apply Z.eqb_refl].
  intros y Hy. apply Z.eqb_neq. rewrite E.
  pose proof (proj2 (nextId_above seq (map post_id ps)) (post_id y)
                (in_map post_id _ _ Hy)). lia.
Qed.

Lemma createPost_500 (now : Z) (req : request) (s s' : db) (r : response) :
  fault s = None ->
  postController.createPost now req s = (Ok r, s') -> status r = 500 ->
  (forall title, body_title req <> Some (VStr title)) \/
  (forall content, body_content req <> Some (VStr content)).
Proof.
  intros Hf H Hst.
  destruct (body_title req) as [[| | |ti| |]|] eqn:Et; try (left; intros ?; discriminate).
  destruct (body_content req) as [[| | |co| |]|] eqn:Ec; try (right; intros ?; discriminate).
  exfalso. revert H.
  unfold postController.createPost, postController.deref, Post.create,
    Post.findById, Database.insertPost, Post.blank, trimOf, callOnString.
  rewrite Et, Ec. intros H.
  handler_cases H; cbn in *; try congruence.
  all: try (match goal with
            | A : (?x <? _) = false, B : (?x =? 0) = true |- _ =>
                apply Z.ltb_ge in A; apply Z.eqb_eq in B; lia
            end).
  - match goal with B : negb (negb ?b) = false, B' : ?b = true |- _ =>
                      rewrite B' in B; discriminate B end.
  - match goal with
    | S : option_map _ (find ?f (?ps ++ [?row])%list) = None |- _ =>
        rewrite (find_app_last f ps row) in S;
        [discriminate S | | cbn; apply Z.eqb_refl]
    end.
    intros y Hy. apply Z.eqb_neq.
    pose proof (proj2 (nextId_above (posts_seq s) (map post_id (posts s))) (post_id y)
                  (in_map post_id _ _ Hy)). lia.
Qed.

Lemma deletePost_no_500 (req : request) (s s' : db) (r : response) :
  fault s = None ->
  postController.deletePost req s = (Ok r, s') -> status r <> 500.
Proof.
  intros Hf. unfold postController.deletePost, postController.onDeleteError,
    Post.delete, Post.findById, Database.deletePost.
  intros H. handler_cases H; cbn in *; try congruence.
  exfalso.
  match goal with
  | S : Database.selectPostById ?n _ = Some _ |- _ =>
      unfold Database.selectPostById in S;
      destruct n; try discriminate S;
      apply option_map_some in S; destruct S as [row [F ->]]
  end.
  apply find_some in F. destruct F as [Hin _].
  pose proof (filter_shorter (fun p0 => negb (Z.eqb (post_id p0) (post_id row)))
                (posts s) row Hin) as L.
  cbv beta in L. rewrite Z.eqb_refl in L. specialize (L eq_refl).
  unfold Database.joinAuthor in *. cbn [fst] in *.
  match goal with
  | C : Z.eqb _ 0 = true |- _ => apply Z.eqb_eq in C; lia
  end.
Qed.

Lemma updatePost_500 (req : request) (s s' : db) (r : response) :
  fault s = None ->
  postController.updatePost req s = (Ok r, s') -> status r = 500 ->
  Post.blank "title" (body_title req) <> Ok false \/
  Post.blank "content" (body_content req) <> Ok false.
Proof.
  intros Hf H Hst.
  destruct (Post.blank "title" (body_title req)) as [[|]|e] eqn:Bt;
    try (left; discriminate).
  destruct (Post.blank "content" (body_content req)) as [[|]|e] eqn:Bc;
    try (right; discriminate).
  exfalso.
  destruct (blank_false _ _ Bt) as [ti [Et _]].
  destruct (blank_false _ _ Bc) as [co [Ec _]].
  revert H.
  unfold postController.updatePost, postController.onUpdateError,
    Post.update, Post.findById, Database.updatePost.
  rewrite Bt, Bc, Et, Ec. intros H.
  handler_cases H; cbn in *; congruence.
Qed.

Lemma refreshToken_500 (now : Z) (req : request) (s s' : db) (r : response) :
  authController.refreshToken now req s = (Ok r, s') -> status r = 500 ->
  exists uid e, Auth.generateToken now uid Auth.defaultTtl = Throw e.
Proof.
  unfold authController.refreshToken.
  intros H Hst. handler_cases H; cbn in *; try congruence; eauto.
Qed.

Lemma login_500 (now : Z) (req : request) (s s' : db) (r : response) :
  fault s = None ->
  authController.login now req s = (Ok r, s') -> status r = 500 ->
  (forall email, body_email req <> Some (VStr email)) \/
  (exists h e, Bcrypt.compare (body_password req) h = Throw e) \/
  (exists uid e, Auth.generateToken now uid Auth.defaultTtl = Throw e).
Proof.
  intros Hf H Hst.
  destruct (body_email req) as [[| | |email| |]|] eqn:Ee; try (left; intros ?; discriminate).
  right. revert H.
  unfold authController.login, User.findByEmail, User.verifyPassword,
    toLowerCaseOf, callOnString.
  rewrite Ee. intros H. handler_cases H; cbn in *; try congruence; eauto.
Qed.

Lemma register_500 (now : Z) (req : request) (s s' : db) (r : response) :
  fault s = None ->
  authController.register now req s = (Ok r, s') -> status r = 500 ->
  (exists e, authController.emailRegex_testOn (body_email req) = Throw e) \/
  (exists e, authController.lengthBelow (body_password req) 6 = Throw e) \/
  (forall email, body_email req <> Some (VStr email)) \/
  (exists e, Bcrypt.hash (body_password req) 12 = Throw e) \/
  (exists uid e, Auth.generateToken now uid Auth.defaultTtl = Throw e).
Proof.
  intros Hf H Hst.
  destruct (authController.emailRegex_testOn (body_email req)) as [fits|e] eqn:R;
    [|left; eauto].
  destruct (authController.lengthBelow (body_password req) 6) as [short|e] eqn:L;
    [|right; left; eauto].
  destruct (body_email req) as [[| | |email| |]|] eqn:Ee;
    try (right; right; left; intros ?; discriminate).
  destruct (Bcrypt.hash (body_password req) 12) as [h|e] eqn:B;
    [|right; right; right; left; eauto].
  right. right. right. right.
  unfold Bcrypt.hash in B.
  destruct (body_password req) as [[| | |password| |]|] eqn:Ep; try discriminate B.
  unfold authController.register, authController.deref in H.
  rewrite Ee, Ep in H. cbv zeta in H. unfold try_catch at 1 in H.
  destruct (negb (truthy (Some (VStr email))) || negb (truthy (Some (VStr password))))%bool;
    [inv H; discriminate Hst|].
  unfold bind at 1 in H. rewrite R in H. cbn [lift ret] in H.
  destruct fits; cbn [negb] in H; [|inv H; discriminate Hst].
  unfold bind at 1 in H. rewrite L in H. cbn [lift ret] in H.
  destruct short; [inv H; discriminate Hst|].
  unfold bind at 1 in H. cbn [toLowerCaseOf callOnString lift ret] in H.
  unfold bind at 1 in H.
  destruct (Database.selectUserByEmail (JS.trim (JS.toLowerCase email)) s) as [u|] eqn:E.
  - rewrite (User_create_known _ _ _ _ _ Hf E) in H. inv H. discriminate Hst.
  - rewrite (User_create_new _ _ _ _ _ Hf E B) in H.
    handler_cases H; cbn in *; try congruence; eauto.
Qed.

(** X23. Every answer 500 of a working store has a cause outside the
    store. On registration the email or the [length] of the password
    cannot be read, the email is no string, the hashing of the password
    failed (as it does for a password that is no string), or the issuing
    of the token failed; on login the email is no string, the comparison
    of the password failed (as it does for a password that is no string),
    or the issuing of the token failed; on refresh the issuing of the
    token failed; on the list of all posts the author filter cannot be
    printed; on create the title or the content is no string; on update
    the title or the content is not a string with something left after
    trimming. The other routes, the statistics among them, never answer
    500 while the store works. *)
Theorem server_errors_have_causes (now : Z) (route : Routes.route) (req : request)
        (s s' : db) (r : response) :
  fault s = None ->
  Routes.handle now route req s = (Ok r, s') -> status r = 500 ->
  match route with
  | Routes.POST_auth_register =>
      (exists e, authController.emailRegex_testOn (body_email req) = Throw e) \/
      (exists e, authController.lengthBelow (body_password req) 6 = Throw e) \/
      (forall email, body_email req <> Some (VStr email)) \/
      (exists e, Bcrypt.hash (body_password req) 12 = Throw e) \/
      (exists uid e, Auth.generateToken now uid Auth.defaultTtl = Throw e)
  | Routes.POST_auth_login =>
      (forall email, body_email req <> Some (VStr email)) \/
      (exists h e, Bcrypt.compare (body_password req) h = Throw e) \/
      (exists uid e, Auth.generateToken now uid Auth.defaultTtl = Throw e)
  | Routes.POST_auth_refresh =>
      exists uid e, Auth.generateToken now uid Auth.defaultTtl = Throw e
  | Routes.GET_posts =>
      exists e, toStringOpt (query_author req) = Throw e
  | Routes.POST_posts =>
      (forall title, body_title req <> Some (VStr title)) \/
      (forall content, body_content req <> Some (VStr content))
  | Routes.PUT_posts_id =>
      Post.blank "title" (body_title req) <> Ok false \/
      Post.blank "content" (body_content req) <> Ok false
  | _ => False
  end.
Proof.
  intros Hf H Hst.
  assert (Hprot : forall h,
             Routes.protected now h req s = (Ok r, s') ->
             exists u, h (attach req (Val (User.toSafeObject u)) (Val (user_id u))) s
                       = (Ok r, s')).
  { intros h Hp. apply (protected_working _ _ _ _ _ _ Hf) in Hp.
    destruct Hp as [Hp | [u [_ Hp]]]; [rewrite Hp in Hst; discriminate Hst|].
    now exists u. }
  assert (Hparam : forall h,
             Routes.withParamId h req s = (Ok r, s') -> h req s = (Ok r, s')).
  { intros h Hw. unfold Routes.withParamId in Hw.
    destruct (postController.notPositive (JS.parseInt (params_id req))); [|exact Hw].
    inv Hw. discriminate Hst. }
  destruct route; cbn [Routes.handle] in H.
  - eapply register_500; eassumption.
  - eapply login_500; eassumption.
  - apply Hprot in H. destruct H as [u H].
    unfold authController.getCurrentUser in H. cbn [req_user attach] in H.
    inv H. discriminate Hst.
  - apply Hprot in H. destruct H as [u H]. inv H. discriminate Hst.
  - apply Hprot in H. destruct H as [u H]. eapply refreshToken_500; eassumption.
  - eapply getAllPosts_500; eassumption.
  - eapply getPostStats_no_500; eassumption.
  - apply Hprot in H. destruct H as [u H]. eapply getMyPosts_no_500; eassumption.
  - apply Hprot in H. destruct H as [u H].
    exact (createPost_500 _ _ _ _ _ Hf H Hst).
  - apply Hparam in H. eapply getPostById_no_500; eassumption.
  - apply Hparam in H. apply Hprot in H. destruct H as [u H].
    exact (updatePost_500 _ _ _ _ Hf H Hst).
  - apply Hparam in H. apply Hprot in H. destruct H as [u H].
    eapply deletePost_no_500; eassumption.
Qed.

End Causes.
(* ===================================================================== *)
(** ** Which answers carry posts, and in which form *)
(* ===================================================================== *)

Section Views.
Context {P : Platform}.

(** An error payload carries neither a list of posts nor a post. *)
Lemma errorResponse_bare (code : Z) (err details : string) :
  bodyField "posts" (errorResponse code err details) = None /\
  bodyField "post" (errorResponse code err details) = None.
Proof. split; reflexivity. Qed.

Ltac bare H := handler_cases H; split; reflexivity.

Lemma register_bare (now : Z) (req : request) (s s' : db) (r : response) :
  authController.register now req s = (Ok r, s') ->
  bodyField "posts" r = None /\ bodyField "post" r = None.
Proof. unfold authController.register, authController.deref. intros H. bare H. Qed.

Lemma login_bare (now : Z) (req : request) (s s' : db) (r : response) :
  authController.login now req s = (Ok r, s') ->
  bodyField "posts" r = None /\ bodyField "post" r = None.
Proof. unfold authController.login. intros H. bare H. Qed.

Lemma getCurrentUser_bare (req : request) (s s' : db) (r : response) :
  authController.getCurrentUser req s = (Ok r, s') ->
  bodyField "posts" r = None /\ bodyField "post" r = None.
Proof. unfold authController.getCurrentUser. intros H. bare H. Qed.

Lemma logout_bare (req : request) (s s' : db) (r : response) :
  authController.logout req s = (Ok r, s') ->
  bodyField "posts" r = None /\ bodyField "post" r = None.
Proof. unfold authController.logout. intros H. bare H. Qed.

Lemma refreshToken_bare (now : Z) (req : request) (s s' : db) (r : response) :
  authController.refreshToken now req s = (Ok r, s') ->
  bodyField "posts" r = None /\ bodyField "post" r = None.
Proof. unfold authController.refreshToken. intros H. bare H. Qed.

Lemma getPostStats_bare (now : Z) (req : request) (s s' : db) (r : response) :
  postController.getPostStats now req s = (Ok r, s') ->
  bodyField "posts" r = None /\ bodyField "post" r = None.
Proof.
  unfold postController.getPostStats. cbv zeta. unfold try_catch, bind, ret.
  destruct (Post.findAll None s) as [[found|e] s1]; intros H; inv H; split; reflexivity.
Qed.

Lemma deletePost_bare (req : request) (s s' : db) (r : response) :
  postController.deletePost req s = (Ok r, s') ->
  bodyField "posts" r = None /\ bodyField "post" r = None.
Proof.
  unfold postController.deletePost, postController.onDeleteError. intros H. bare H.
Qed.

(** The list handlers answer with summaries, and with no single post. *)
Lemma getAllPosts_summaries (req : request) (s s' : db) (r : response) :
  postController.getAllPosts req s = (Ok r, s') ->
  bodyField "post" r = None /\
  forall j, bodyField "posts" r = Some j ->
            exists found, j = JArr (map (Post.toSummary 200) found).
Proof.
  unfold postController.getAllPosts. cbv zeta. intros H.
  handler_cases H; (split; [reflexivity|]); intros j Hj; cbn in Hj;
    try discriminate Hj; injection Hj as <-; eauto.
Qed.

Lemma getMyPosts_summaries (req : request) (s s' : db) (r : response) :
  postController.getMyPosts req s = (Ok r, s') ->
  bodyField "post" r = None /\
  forall j, bodyField "posts" r = Some j ->
            exists found, j = JArr (map (Post.toSummary 200) found).
Proof.
  unfold postController.getMyPosts. intros H.
  handler_cases H; (split; [reflexivity|]); intros j Hj; cbn in Hj;
    try discriminate Hj; injection Hj as <-; eauto.
Qed.

(** The handlers of one post answer with the whole post, and with no
    list. *)
Lemma createPost_whole (now : Z) (req : request) (s s' : db) (r : response) :
  postController.createPost now req s = (Ok r, s') ->
  bodyField "posts" r = None /\
  forall j, bodyField "post" r = Some j -> exists post, j = Post.toObject post.
Proof.
  unfold postController.createPost, postController.deref. intros H.
  handler_cases H; (split; [reflexivity|]); intros j Hj; cbn in Hj;
    try discriminate Hj; injection Hj as <-; eauto.
Qed.

Lemma getPostById_whole (req : request) (s s' : db) (r : response) :
  postController.getPostById req s = (Ok r, s') ->
  bodyField "posts" r = None /\
  forall j, bodyField "post" r = Some j -> exists post, j = Post.toObject post.
Proof.
  unfold postController.getPostById. intros H.
  handler_cases H; (split; [reflexivity|]); intros j Hj; cbn in Hj;
    try discriminate Hj; injection Hj as <-; eauto.
Qed.

Lemma updatePost_whole (req : request) (s s' : db) (r : response) :
  postController.updatePost req s = (Ok r, s') ->
  bodyField "posts" r = None /\
  forall j, bodyField "post" r = Some j -> exists post, j = Post.toObject post.
Proof.
  unfold postController.updatePost, postController.onUpdateError. intros H.
  handler_cases H; (split; [reflexivity|]); intros j Hj; cbn in Hj;
    try discriminate Hj; injection Hj as <-; eauto.
Qed.

(** What a protected route answers is the middleware's error payload or
    an answer of its handler. *)
Lemma protected_carries (now : Z) (h : request -> M response) (req : request)
      (s s' : db) (r : response) (Q : response -> Prop) :
  (forall code err details, Q (errorResponse code err details)) ->
  (forall req0 s1, h req0 s = (Ok r, s1) -> Q r) ->
  Routes.protected now h req s = (Ok r, s') -> Q r.
Proof.
  intros He Hh Hp. apply protected_inv in Hp.
  destruct Hp as [[_ [code [err [details ->]]]] | [u [_ Hp]]]; [apply He|].
  eapply Hh; exact Hp.
Qed.

Lemma withParamId_carries (h : request -> M response) (req : request)
      (s s' : db) (r : response) (Q : response -> Prop) :
  (forall code err details, Q (errorResponse code err details)) ->
  (h req s = (Ok r, s') -> Q r) ->
  Routes.withParamId h req s = (Ok r, s') -> Q r.
Proof.
  intros He Hh Hp. apply withParamId_inv in Hp.
  destruct Hp as [[_ [code [err [details ->]]]] | Hp]; [apply He | now apply Hh].
Qed.

(** The runs of the list handlers and of the read by id on a working
    store. *)
Lemma getAllPosts_unfiltered_run (req : request) (s : db) :
  fault s = None -> truthy (query_author req) = false ->
  exists r,
    postController.getAllPosts req s = (Ok r, s) /\ status r = 200 /\
    bodyField "posts" r =
    Some (JArr (map (Post.toSummary 200)
                    (map Post.ofRow (Database.selectPosts None s)))).
Proof.
  intros Hf T. unfold postController.getAllPosts, postController.authorIdOf.
  cbv zeta. rewrite T. unfold try_catch, bind. cbn [lift ret andb].
  rewrite Post_findAll_eq, Hf. cbn [truthyNum]. unfold ret.
  eexists. split; [reflexivity|]. split; reflexivity.
Qed.

Lemma getAllPosts_filtered_run (req : request) (s : db) (shown : string) (a : Z)
      (u : userRow) :
  fault s = None -> truthy (query_author req) = true ->
  toStringOpt (query_author req) = Ok shown ->
  JS.parseInt shown = Some (JS.Int a) -> 0 < a ->
  Database.selectUserById (Some (JS.Int a)) s = Some u ->
  exists r,
    postController.getAllPosts req s = (Ok r, s) /\ status r = 200 /\
    bodyField "posts" r =
    Some (JArr (map (Post.toSummary 200)
                    (map Post.ofRow (Database.selectPosts (Some (JS.Int a)) s)))).
Proof.
  intros Hf T Sh Pa Hpos U. unfold postController.getAllPosts, postController.authorIdOf.
  cbv zeta. rewrite T, Sh. unfold try_catch. unfold bind at 1. cbn [lift ret].
  rewrite Pa. cbn [postController.notPositive JS.nonPositive truthyNum].
  destruct (Z.leb_spec a 0) as [|_]; [lia|].
  destruct (Z.eqb_spec a 0) as [|_]; [lia|]. cbn [andb negb].
  unfold bind. rewrite User_findById_eq, Hf, U.
  rewrite Post_findAll_eq, Hf. cbn [truthyNum].
  destruct (Z.eqb_spec a 0) as [|_]; [lia|]. cbn [negb]. unfold ret.
  eexists. split; [reflexivity|]. split; reflexivity.
Qed.

Lemma getMyPosts_run (req : request) (s : db) (uid : Z) :
  fault s = None -> req_userId req = Val uid -> uid <> 0 ->
  exists r,
    postController.getMyPosts req s = (Ok r, s) /\ status r = 200 /\
    bodyField "posts" r =
    Some (JArr (map (Post.toSummary 200)
                    (map Post.ofRow (Database.selectPosts (Some (JS.Int uid)) s)))).
Proof.
  intros Hf Hu Hnz. unfold postController.getMyPosts, Post.findByAuthor.
  rewrite Hu. destruct (Z.eqb_spec uid 0) as [|_]; [contradiction|].
  unfold try_catch, bind. rewrite Post_findAll_eq, Hf. cbn [truthyNum].
  destruct (Z.eqb_spec uid 0) as [|_]; [contradiction|]. cbn [negb]. unfold ret.
  eexists. split; [reflexivity|]. split; reflexivity.
Qed.

Lemma getPostById_run (req : request) (s : db) (i : Z) (row : postRow * option string) :
  fault s = None -> JS.parseInt (params_id req) = Some (JS.Int i) -> 0 < i ->
  Database.selectPostById (JS.Int i) s = Some row ->
  postController.getPostById req s =
  (Ok (respond 200 [("message", JStr "Post retrieved successfully");
                    ("post", Post.toObject (Post.ofRow row))]), s).
Proof.
  intros Hf Pi Hpos Hrow. unfold postController.getPostById. cbv zeta.
  rewrite Pi. cbn [JS.nonPositive]. destruct (Z.leb_spec i 0) as [|_]; [lia|].
  unfold try_catch, bind. rewrite Post_findById_eq, Hf, Hrow. reflexivity.
Qed.

(** C10. The list views (all posts, posts of an author, the current
    user's posts behind the middleware) answer a working store with 200
    and [toSummary] of every post found, newest first: for a post whose content is longer than 200
    characters the listed content is the first 200 characters cut at their
    last space with the ellipsis appended (the ellipsis alone when they
    hold no space), never the full content, and at most 202 characters
    with the ellipsis. Reading a post by id answers with [toObject], whose
    content is the full content. On every route a list of posts in the
    answer is a list of summaries and comes from a list view, and a single
    post in the answer is a [toObject] and comes from create, read by id
    or update. *)
Theorem list_views_cut_long_content (now : Z) (req : request) (s : db) :
  fault s = None ->
  (forall this : Post.t,
      200 < JS.length (Post.content this) ->
      exists preview,
        Post.contentOf (Post.toSummary 200 this) = Some preview /\
        Post.cutAtLastSpace (Post.content this) preview /\
        preview <> Post.content this /\
        JS.length preview <= 202) /\
  (truthy (query_author req) = false ->
   exists r,
     Routes.handle now Routes.GET_posts req s = (Ok r, s) /\ status r = 200 /\
     bodyField "posts" r =
     Some (JArr (map (Post.toSummary 200)
                     (map Post.ofRow (Database.selectPosts None s))))) /\
  (forall shown a u,
      truthy (query_author req) = true ->
      toStringOpt (query_author req) = Ok shown ->
      JS.parseInt shown = Some (JS.Int a) -> 0 < a ->
      Database.selectUserById (Some (JS.Int a)) s = Some u ->
      exists r,
        Routes.handle now Routes.GET_posts req s = (Ok r, s) /\ status r = 200 /\
        bodyField "posts" r =
        Some (JArr (map (Post.toSummary 200)
                        (map Post.ofRow (Database.selectPosts (Some (JS.Int a)) s))))) /\
  (forall req' uid,
      Auth.authenticateToken now req s = (Ok (Next req'), s) ->
      req_userId req' = Val uid -> uid <> 0 ->
      exists r,
        Routes.handle now Routes.GET_posts_my req s = (Ok r, s) /\ status r = 200 /\
        bodyField "posts" r =
        Some (JArr (map (Post.toSummary 200)
                        (map Post.ofRow (Database.selectPosts (Some (JS.Int uid)) s))))) /\
  (forall i row,
      JS.parseInt (params_id req) = Some (JS.Int i) -> 0 < i ->
      Database.selectPostById (JS.Int i) s = Some row ->
      exists r,
        Routes.handle now Routes.GET_posts_id req s = (Ok r, s) /\ status r = 200 /\
        bodyField "post" r = Some (Post.toObject (Post.ofRow row)) /\
        Post.contentOf (Post.toObject (Post.ofRow row)) = Some (post_content (fst row))) /\
  (forall route r s',
      Routes.handle now route req s = (Ok r, s') ->
      (forall j, bodyField "posts" r = Some j ->
                 (route = Routes.GET_posts \/ route = Routes.GET_posts_my) /\
                 exists found, j = JArr (map (Post.toSummary 200) found)) /\
      (forall j, bodyField "post" r = Some j ->
                 (route = Routes.POST_posts \/ route = Routes.GET_posts_id \/
                  route = Routes.PUT_posts_id) /\
                 exists post, j = Post.toObject post)).
Proof.
  intros Hf. split; [|split; [|split; [|split; [|split]]]].
  - intros this Hlen. exists (Post.summary 200 (Post.content this)).
    split; [reflexivity|].
    pose proof (summary_long _ Hlen) as Hcut.
    split; [exact Hcut|]. now apply cutAtLastSpace_bounds.
  - intros T. exact (getAllPosts_unfiltered_run req s Hf T).
  - intros shown a u T Sh Pa Hpos U.
    exact (getAllPosts_filtered_run req s shown a u Hf T Sh Pa Hpos U).
  - intros req' uid A Hu Hnz. cbn [Routes.handle]. unfold Routes.protected, bind.
    rewrite A. exact (getMyPosts_run req' s uid Hf Hu Hnz).
  - intros i row Pi Hpos Hrow. eexists. cbn [Routes.handle]. unfold Routes.withParamId.
    rewrite Pi. cbn [postController.notPositive JS.nonPositive].
    destruct (Z.leb_spec i 0) as [|_]; [lia|].
    split; [exact (getPostById_run req s i row Hf Pi Hpos Hrow)|].
    repeat split; reflexivity.
  - intros route r s' H.
    set (none := fun x : response =>
                   bodyField "posts" x = None /\ bodyField "post" x = None).
    set (lists := fun x : response =>
                    bodyField "post" x = None /\
                    forall j, bodyField "posts" x = Some j ->
                              exists found, j = JArr (map (Post.toSummary 200) found)).
    set (whole := fun x : response =>
                    bodyField "posts" x = None /\
                    forall j, bodyField "post" x = Some j ->
                              exists post, j = Post.toObject post).
    assert (Enone : forall code err details, none (errorResponse code err details))
      by (intros; split; reflexivity).
    assert (Elists : forall code err details, lists (errorResponse code err details))
      by (intros; split; [reflexivity | intros j Hj; discriminate Hj]).
    assert (Ewhole : forall code err details, whole (errorResponse code err details))
      by (intros; split; [reflexivity | intros j Hj; discriminate Hj]).
    assert (Fnone : none r -> forall A B : json -> Prop,
                 (forall j : json, bodyField "posts" r = Some j -> A j) /\
                 (forall j : json, bodyField "post" r = Some j -> B j)).
    { intros [N1 N2] A B. split; intros j Hj; congruence. }
    destruct route; cbn [Routes.handle] in H.
    + apply (fun N => Fnone N (fun j => _ /\ _) (fun j => _ /\ _)). eapply register_bare; exact H.
    + apply (fun N => Fnone N (fun j => _ /\ _) (fun j => _ /\ _)). eapply login_bare; exact H.
    + apply (fun N => Fnone N (fun j => _ /\ _) (fun j => _ /\ _)). eapply (protected_carries _ _ _ _ _ _ none Enone); [|exact H].
      intros req0 s1. apply getCurrentUser_bare.
    + apply (fun N => Fnone N (fun j => _ /\ _) (fun j => _ /\ _)). eapply (protected_carries _ _ _ _ _ _ none Enone); [|exact H].
      intros req0 s1. apply logout_bare.
    + apply (fun N => Fnone N (fun j => _ /\ _) (fun j => _ /\ _)). eapply (protected_carries _ _ _ _ _ _ none Enone); [|exact H].
      intros req0 s1. apply refreshToken_bare.
    + apply getAllPosts_summaries in H. destruct H as [N L].
      split; intros j Hj; [split; [now left | now apply L] | congruence].
    + apply (fun N => Fnone N (fun j => _ /\ _) (fun j => _ /\ _)). eapply getPostStats_bare; exact H.
    + assert (L : lists r).
      { eapply (protected_carries _ _ _ _ _ _ lists Elists); [|exact H].
        intros req0 s1. apply getMyPosts_summaries. }
      destruct L as [N L].
      split; intros j Hj; [split; [now right | now apply L] | congruence].
    + assert (W : whole r).
      { eapply (protected_carries _ _ _ _ _ _ whole Ewhole); [|exact H].
        intros req0 s1. apply createPost_whole. }
      destruct W as [N W].
      split; intros j Hj; [congruence | split; [now left | now apply W]].
    + assert (W : whole r).
      { eapply (withParamId_carries _ _ _ _ _ whole Ewhole); [|exact H].
        apply getPostById_whole. }
      destruct W as [N W].
      split; intros j Hj; [congruence | split; [now right; left | now apply W]].
    + assert (W : whole r).
      { eapply (withParamId_carries _ _ _ _ _ whole Ewhole); [|exact H].
        intros H'. eapply (protected_carries _ _ _ _ _ _ whole Ewhole); [|exact H'].
        intros req0 s1. apply updatePost_whole. }
      destruct W as [N W].
      split; intros j Hj; [congruence | split; [now right; right | now apply W]].
    + apply (fun N => Fnone N (fun j => _ /\ _) (fun j => _ /\ _)). eapply (withParamId_carries _ _ _ _ _ none Enone); [|exact H].
      intros H'. eapply (protected_carries _ _ _ _ _ _ none Enone); [|exact H'].
      intros req0 s1. apply deletePost_bare.
Qed.

End Views.
(* ===================================================================== *)
(** ** The claims at concrete requests *)
(* ===================================================================== *)

Lemma signature_and_expiry_gate_witness :
  (exists r,
      Auth.authenticateToken (P := Demo.platform) 2000
        (Demo.withHeader (Some "Bearer forged.jwt")) Demo.store
      = (Ok (Respond r), Demo.store) /\ status r = 401) /\
  (exists r,
      Auth.authenticateToken (P := Demo.platform) 605800
        (Demo.withHeader (Some "Bearer alice.7d.jwt")) Demo.store
      = (Ok (Respond r), Demo.store) /\ status r = 401).
Proof.
  split.
  - apply (proj1 (@signature_and_expiry_gate Demo.platform 2000
                    (Demo.withHeader (Some "Bearer forged.jwt")) Demo.store)
             "forged.jwt" eq_refl).
    right. eexists. split; [reflexivity|]. left. discriminate.
  - apply (proj1 (@signature_and_expiry_gate Demo.platform 605800
                    (Demo.withHeader (Some "Bearer alice.7d.jwt")) Demo.store)
             "alice.7d.jwt" eq_refl).
    right. eexists. split; [reflexivity|]. right. exists 605800. split; [reflexivity | lia].
Defined.

Lemma non_owner_is_forbidden_witness :
  Post.authorId (Post.ofRow (Database.joinAuthor Demo.store Demo.hello)) <> 2 /\
  postController.deletePost
    (Demo.attached (Demo.onPost "Bearer bob.7d.jwt" "1" (Some "Mine now") (Some "Taken over"))
                   Demo.bob) Demo.store
  = (Ok (errorResponse 403 "Permission denied" "You can only delete your own posts"),
     Demo.store) /\
  postController.updatePost
    (Demo.attached (Demo.onPost "Bearer bob.7d.jwt" "1" (Some "Mine now") (Some "Taken over"))
                   Demo.bob) Demo.store
  = (Ok (errorResponse 403 "Permission denied" "You can only edit your own posts"),
     Demo.store).
Proof.
  assert (N : Post.authorId (Post.ofRow (Database.joinAuthor Demo.store Demo.hello)) <> 2)
    by (cbn; lia).
  split; [exact N|].
  destruct (proj2 (proj2 (@non_owner_is_forbidden _ 2 Demo.store N))
              (Demo.attached
                 (Demo.onPost "Bearer bob.7d.jwt" "1" (Some "Mine now") (Some "Taken over"))
                 Demo.bob)
              eq_refl ltac:(lia) eq_refl ltac:(cbn; lia) eq_refl) as [D U].
  split; [exact D | exact (U eq_refl eq_refl)].
Defined.

Lemma mandatory_resolution_cases_witness :
  exists o,
    Auth.authenticateToken (P := Demo.platform) 2000
      (Demo.withHeader (Some "Bearer alice.7d.jwt")) Demo.store = (Ok o, Demo.store) /\
    exists req',
      o = Next req' /\
      req_user req' = Val (JObj [("id", JNum 1); ("email", JStr "a@x.com");
                                 ("createdAt", JNum 900)]) /\
      req_userId req' = Val 1 /\
      authorization req' = Some "Bearer alice.7d.jwt" /\
      params_id req' = "" /\
      query_author req' = None /\
      body_email req' = None /\
      body_password req' = None /\
      body_title req' = None /\
      body_content req' = None.
Proof.
  exact (@mandatory_resolution_cases Demo.platform 2000
           (Demo.withHeader (Some "Bearer alice.7d.jwt")) Demo.store).
Defined.

(** The five cases are not all: on a store that fails, a token that
    verifies is answered with 500. *)
Lemma resolution_has_more_answers :
  ~ (forall (P : Platform) (now : Z) (req : request) (s : db),
        exists o,
          Auth.authenticateToken now req s = (Ok o, s) /\
          ((exists err details,
               o = Respond (errorResponse 401 err details) /\
               JS.startsWith "Access denied." err = true) \/
           o = Respond (errorResponse 401 "Token has expired"
                          "Please log in again to get a new token") \/
           o = Respond (errorResponse 401 "Invalid token"
                          "The provided token is malformed or invalid") \/
           o = Respond (errorResponse 401 "User no longer exists"
                          "The account associated with this token has been removed") \/
           exists req', o = Next req')).
Proof.
  intros H.
  destruct (H Demo.platform 2000 (Demo.withHeader (Some "Bearer alice.7d.jwt")) Demo.locked)
    as [o [R C]].
  vm_compute in R. injection R as <-.
  destruct C as [[err [details [C _]]] | [C | [C | [C | [req' C]]]]]; discriminate C.
Qed.

(** The two answers outside the five cases: a token that is not active
    yet is refused in words of its own, and a lookup that fails is
    answered with 500. *)
Example resolution_other_answers :
  Auth.authenticateToken (P := Demo.platform) 2000
    (Demo.withHeader (Some "Bearer early.jwt")) Demo.store
  = (Ok (Respond (errorResponse 401 "Token verification failed" "jwt not active")),
     Demo.store) /\
  Auth.authenticateToken (P := Demo.platform) 2000
    (Demo.withHeader (Some "Bearer alice.7d.jwt")) Demo.locked
  = (Ok (Respond (errorResponse 500 "Internal server error during authentication"
                    "Please try again later")), Demo.locked).
Proof. split; vm_compute; reflexivity. Qed.

(** Optional resolution on the same requests: it goes on without an
    identity. *)
Example optional_resolution_goes_on :
  Auth.optionalAuth (P := Demo.platform) 2000
    (Demo.withHeader (Some "Bearer early.jwt")) Demo.store
  = (Ok (Next (attach (Demo.withHeader (Some "Bearer early.jwt")) Null Null)), Demo.store) /\
  Auth.optionalAuth (P := Demo.platform) 2000
    (Demo.withHeader (Some "Bearer alice.7d.jwt")) Demo.locked
  = (Ok (Next (attach (Demo.withHeader (Some "Bearer alice.7d.jwt")) Null Null)),
     Demo.locked).
Proof. split; vm_compute; reflexivity. Qed.

Lemma login_tells_known_emails_apart_witness :
  authController.login (P := Demo.platform) 2000
    (Demo.numericPassword "a@x.com" "12345678")
    (mkDb [Demo.bob] [Demo.hello] 2 1 None)
  = (Ok (errorResponse 401 "Invalid credentials" "Email or password is incorrect"),
     mkDb [Demo.bob] [Demo.hello] 2 1 None) /\
  authController.login (P := Demo.platform) 2000
    (Demo.numericPassword "a@x.com" "12345678") Demo.store
  = (Ok (errorResponse 500 "Login failed"
           "An unexpected error occurred. Please try again later."), Demo.store).
Proof.
  apply (@login_tells_known_emails_apart Demo.platform 2000
           (Demo.numericPassword "a@x.com" "12345678")
           (mkDb [Demo.bob] [Demo.hello] 2 1 None) Demo.store Demo.alice "a@x.com");
    first [reflexivity | discriminate | intros password; discriminate].
Defined.

Lemma update_keeps_id_owner_created_witness :
  sameIdentity Demo.store
    (snd (Post.update
            (Post.ofRow (Database.joinAuthor Demo.store Demo.hello))
            (Some (VStr "A new title")) (Some (VStr "A new content, long enough"))
            (Val 1) Demo.store)).
Proof.
  apply (proj2 update_keeps_id_owner_created).
  eapply updates_model; [apply updates_none|].
  apply surjective_pairing.
Defined.

Lemma identity_leaves_as_safe_view_witness :
  exists u,
    In u (users (snd (Routes.handle (P := Demo.platform) 2000 Routes.POST_auth_register
                        (Demo.credentials "c@x.com" "secret3") Demo.store))) /\
    JObj [("id", JNum 3); ("email", JStr "c@x.com"); ("createdAt", JNum 2000)]
    = JObj [("id", JNum (user_id u)); ("email", JStr (user_email u));
            ("createdAt", JNum (user_createdAt u))].
Proof.
  eapply (proj1 (@identity_leaves_as_safe_view Demo.platform 2000)
            Routes.POST_auth_register (Demo.credentials "c@x.com" "secret3") Demo.store).
  - vm_compute. reflexivity.
  - reflexivity.
Defined.

Lemma issue_then_verify_witness :
  Auth.generateToken (P := Demo.platform) 1000 1 Auth.defaultTtl = Ok "alice.7d.jwt" /\
  (forall t, t < 605800 ->
     exists p, Jwt.verify (P := Demo.platform) t "alice.7d.jwt" Demo.secret noOptions = Ok p /\
               userId p = Some 1) /\
  (forall t, 605800 <= t ->
     Jwt.verify (P := Demo.platform) t "alice.7d.jwt" Demo.secret noOptions
     = Throw Jwt.TokenExpiredError).
Proof.
  destruct (@issue_then_verify Demo.platform 1000 1 Auth.defaultTtl 605800)
    as [G [V [E _]]].
  - reflexivity.
  - discriminate.
  - reflexivity.
  - reflexivity.
  - reflexivity.
  - split; [exact G|]. split; [exact V | exact E].
Defined.

Lemma list_views_cut_long_content_witness :
  (exists r,
      Routes.handle (P := Demo.platform) 2000 Routes.GET_posts (Demo.reading "7") Demo.wordy
      = (Ok r, Demo.wordy) /\ status r = 200 /\
      bodyField "posts" r =
      Some (JArr (map (Post.toSummary 200)
                      (map Post.ofRow (Database.selectPosts None Demo.wordy))))) /\
  (exists r,
      Routes.handle (P := Demo.platform) 2000 Routes.GET_posts_id (Demo.reading "7")
        Demo.wordy
      = (Ok r, Demo.wordy) /\ status r = 200 /\
      bodyField "post" r =
      Some (Post.toObject (Post.ofRow (Database.joinAuthor Demo.wordy Demo.longRead))) /\
      Post.contentOf (Post.toObject (Post.ofRow (Database.joinAuthor Demo.wordy Demo.longRead)))
      = Some Demo.longText) /\
  (exists r,
      Routes.handle (P := Demo.platform) 2000 Routes.GET_posts_my
        (Demo.withHeader (Some "Bearer alice.7d.jwt")) Demo.wordy
      = (Ok r, Demo.wordy) /\ status r = 200 /\
      bodyField "posts" r =
      Some (JArr (map (Post.toSummary 200)
                      (map Post.ofRow
                           (Database.selectPosts (Some (JS.Int 1)) Demo.wordy))))).
Proof.
  destruct (@list_views_cut_long_content Demo.platform 2000 (Demo.reading "7") Demo.wordy
              eq_refl) as [_ [A [_ [_ [R _]]]]].
  split; [exact (A eq_refl)|].
  split; [exact (R 7 (Database.joinAuthor Demo.wordy Demo.longRead)
                   eq_refl eq_refl eq_refl)|].
  destruct (@list_views_cut_long_content Demo.platform 2000
              (Demo.withHeader (Some "Bearer alice.7d.jwt")) Demo.wordy
              eq_refl) as [_ [_ [_ [M _]]]].
  exact (M (Demo.attached (Demo.withHeader (Some "Bearer alice.7d.jwt")) Demo.alice) 1
           eq_refl eq_refl ltac:(discriminate)).
Defined.

(** What the first list view shows of the long post of the example: the
    199 characters before the space and the ellipsis. *)
Example long_post_listed_cut :
  map Post.contentOf
      (map (Post.toSummary 200) (map Post.ofRow (Database.selectPosts None Demo.wordy)))
  = [Some (Demo.repeat "a" 199 ++ "..."); Some "This is long enough"].
Proof. vm_compute. reflexivity. Qed.

(** The answer to a create carries the whole content of the post just
    written, however long: the read by id is not the only route that
    returns a full content. *)
Lemma full_content_also_on_create :
  ~ (forall (P : Platform) (now : Z) (route : Routes.route) (req : request)
            (s s' : db) (r : response) (j : json) (c : string),
        Routes.handle now route req s = (Ok r, s') ->
        bodyField "post" r = Some j ->
        Post.contentOf j = Some c -> 200 < JS.length c ->
        route = Routes.GET_posts_id).
Proof.
  intros H.
  assert (E : Routes.handle (P := Demo.platform) 2000 Routes.POST_posts
                (Demo.onPost "Bearer alice.7d.jwt" "" (Some "A long read")
                             (Some Demo.longText)) Demo.store
              = (Ok (respond 201
                       [("message", JStr "Post created successfully");
                        ("post", Post.toObject (Post.mk 2 "A long read" Demo.longText 1 2000
                                                        (Some "a@x.com")))]),
                 mkDb [Demo.alice; Demo.bob]
                      [Demo.hello; mkPostRow 2 "A long read" Demo.longText 1 2000] 2 2 None))
    by (vm_compute; reflexivity).
  assert (L : 200 < JS.length Demo.longText) by (vm_compute; reflexivity).
  discriminate (H _ _ _ _ _ _ _ _ Demo.longText E eq_refl eq_refl L).
Qed.

(* ===================================================================== *)
(** ** The further properties at concrete requests *)
(* ===================================================================== *)

Lemma createPost_stores_and_returns_witness :
  posts (snd (postController.createPost 2000
                (Demo.attached
                   (Demo.onPost "Bearer alice.7d.jwt" "" (Some "  A title ")
                                (Some "Content long enough"))
                   Demo.alice)
                Demo.store))
  = (posts Demo.store ++ [mkPostRow 2 "A title" "Content long enough" 1 2000])%list.
Proof.
  edestruct (createPost_stores_and_returns 2000
               (Demo.attached
                  (Demo.onPost "Bearer alice.7d.jwt" "" (Some "  A title ")
                               (Some "Content long enough"))
                  Demo.alice)
               Demo.store) as [uid [ti [co [Hu [_ [Ht [Hc [_ [_ H]]]]]]]]].
  - vm_compute. reflexivity.
  - reflexivity.
  - injection Hu as <-. injection Ht as <-. injection Hc as <-. exact (proj1 H).
Defined.

Lemma register_then_login_witness :
  exists u tok,
    user_email u = "c@x.com" /\
    authController.login (P := Demo.platform) 3000 (Demo.credentials "C@X.com" "secret3")
      (snd (authController.register (P := Demo.platform) 2000
              (Demo.credentials "C@X.com" "secret3") Demo.store))
    = (Ok (respond 200 [("message", JStr "Login successful");
                        ("user", User.toSafeObject u);
                        ("token", JStr tok)]),
       snd (authController.register (P := Demo.platform) 2000
              (Demo.credentials "C@X.com" "secret3") Demo.store)).
Proof.
  edestruct (@register_then_login Demo.platform 2000 3000
               (Demo.credentials "C@X.com" "secret3") Demo.store)
    as [email [password [u [tok [Ee [_ [_ [He [_ [_ HL]]]]]]]]]].
  - vm_compute. reflexivity.
  - reflexivity.
  - intros password h Hp Hh. injection Hp as <-. injection Hh as <-. reflexivity.
  - injection Ee as <-. exists u, tok. split; [exact He | exact HL].
Defined.

Lemma register_known_email_conflicts_witness :
  authController.register (P := Demo.platform) 2000
    (Demo.credentials "A@x.com" "secret9") Demo.store
  = (Ok (errorResponse 409 "Email already registered"
           "An account with this email already exists. Try logging in instead."),
     Demo.store).
Proof.
  apply (@register_known_email_conflicts Demo.platform 2000
           (Demo.credentials "A@x.com" "secret9") Demo.store Demo.alice "A@x.com");
    try reflexivity.
  left. exists "secret9". split; [reflexivity | vm_compute; discriminate].
Defined.

Lemma register_without_secret_keeps_account_witness :
  authController.register (P := Demo.unconfigured) 2000
    (Demo.credentials "c@x.com" "secret3") Demo.store
  = (Ok (errorResponse 500 "Registration failed"
           "An unexpected error occurred. Please try again later."),
     mkDb [Demo.alice; Demo.bob; mkUserRow 3 "c@x.com" (Demo.digest "secret3") 2000]
          [Demo.hello] 3 1 None) /\
  authController.register (P := Demo.unconfigured) 3000
    (Demo.credentials "c@x.com" "secret3")
    (mkDb [Demo.alice; Demo.bob; mkUserRow 3 "c@x.com" (Demo.digest "secret3") 2000]
          [Demo.hello] 3 1 None)
  = (Ok (errorResponse 409 "Email already registered"
           "An account with this email already exists. Try logging in instead."),
     mkDb [Demo.alice; Demo.bob; mkUserRow 3 "c@x.com" (Demo.digest "secret3") 2000]
          [Demo.hello] 3 1 None).
Proof.
  apply (@register_without_secret_keeps_account Demo.unconfigured 2000 3000
           (Demo.credentials "c@x.com" "secret3") Demo.store
           "c@x.com" "secret3" (Demo.digest "secret3"));
    first [reflexivity | vm_compute; discriminate].
Defined.

Lemma routes_write_only_their_rows_witness :
  users (snd (Routes.handle (P := Demo.platform) 2001 Routes.DELETE_posts_id
                (Demo.onPost "Bearer alice.7d.jwt" "1" None None) Demo.store))
  = users Demo.store /\
  snd (Routes.handle (P := Demo.platform) 2001 Routes.GET_posts_stats
         (Demo.withHeader None) Demo.busy)
  = Demo.busy.
Proof.
  split.
  - apply (proj1 (proj2 (@routes_write_only_their_rows Demo.platform 2001
                           Routes.DELETE_posts_id
                           (Demo.onPost "Bearer alice.7d.jwt" "1" None None)
                           Demo.store _ _ (surjective_pairing _)))).
    discriminate.
  - exact (proj2 (proj2 (@routes_write_only_their_rows Demo.platform 2001
                           Routes.GET_posts_stats (Demo.withHeader None)
                           Demo.busy _ _ (surjective_pairing _)))).
Defined.

Lemma keys_stay_unique_witness :
  keysUnique Demo.store /\
  keysUnique (snd (Routes.handle (P := Demo.platform) 2000 Routes.POST_auth_register
                     (Demo.credentials "c@x.com" "secret3") Demo.store)).
Proof.
  assert (K : keysUnique Demo.store).
  { repeat split; cbn; repeat constructor; cbn; intuition discriminate. }
  split; [exact K|].
  exact (@keys_stay_unique Demo.platform 2000 Routes.POST_auth_register
           (Demo.credentials "c@x.com" "secret3") Demo.store _ _ K
           (surjective_pairing _)).
Defined.

Lemma owner_update_round_trip_witness :
  postController.updatePost
    (Demo.attached
       (Demo.onPost "Bearer alice.7d.jwt" "1" (Some " New title ") (Some "New content"))
       Demo.alice)
    Demo.store
  = (Ok (respond 200
           [("message", JStr "Post updated successfully");
            ("post", Post.toObject (Post.mk 1 "New title" "New content" 1 1000
                                            (Some "a@x.com")))]),
     mkDb [Demo.alice; Demo.bob] [mkPostRow 1 "New title" "New content" 1 1000] 2 1 None).
Proof.
  apply (proj1 (owner_update_round_trip
                  (Demo.attached
                     (Demo.onPost "Bearer alice.7d.jwt" "1" (Some " New title ")
                                  (Some "New content"))
                     Demo.alice)
                  Demo.store 1 1 Demo.hello " New title " "New content"
                  eq_refl ltac:(discriminate) eq_refl eq_refl eq_refl
                  ltac:(vm_compute; discriminate) eq_refl ltac:(vm_compute; discriminate)
                  eq_refl eq_refl eq_refl)).
Defined.

Lemma owner_delete_removes_witness :
  postController.deletePost
    (Demo.attached (Demo.onPost "Bearer alice.7d.jwt" "1" None None) Demo.alice)
    Demo.store
  = (Ok (mkResponse 204 None), mkDb [Demo.alice; Demo.bob] [] 2 1 None) /\
  postController.getPostById
    (Demo.attached (Demo.onPost "Bearer alice.7d.jwt" "1" None None) Demo.alice)
    (mkDb [Demo.alice; Demo.bob] [] 2 1 None)
  = (Ok (postController.postNotFound (JS.Int 1)), mkDb [Demo.alice; Demo.bob] [] 2 1 None).
Proof.
  pose proof (owner_delete_removes
                (Demo.attached (Demo.onPost "Bearer alice.7d.jwt" "1" None None)
                               Demo.alice)
                Demo.store 1 1 Demo.hello
                eq_refl ltac:(discriminate) eq_refl eq_refl eq_refl eq_refl eq_refl)
    as H.
  cbv zeta in H. destruct H as [D [_ [G _]]].
  split; [exact D | exact G].
Defined.

Lemma findAll_newest_first_witness :
  exists rows,
    Post.findAll None Demo.busy
    = (Ok (map (fun r => Post.ofRow (Database.joinAuthor Demo.busy r)) rows), Demo.busy) /\
    Sorted (fun p q => post_createdAt q <= post_createdAt p) rows /\
    Permutation rows (posts Demo.busy).
Proof.
  edestruct (findAll_newest_first None Demo.busy) as [rows [E [S [Pm _]]]].
  - vm_compute. reflexivity.
  - exists rows. split; [|split; [exact S | exact Pm]].
    rewrite <- E. vm_compute. reflexivity.
Defined.

Lemma getAllPosts_filters_by_author_witness :
  exists r,
    postController.getAllPosts (Demo.byAuthor "99") Demo.store = (Ok r, Demo.store) /\
    r = errorResponse 404 "Author not found" "No user found with ID 99".
Proof.
  eexists. split.
  - vm_compute. reflexivity.
  - edestruct (getAllPosts_filters_by_author (Demo.byAuthor "99") Demo.store)
      as [_ [H _]].
    + vm_compute. reflexivity.
    + destruct (H "99" (JS.Int 99) eq_refl eq_refl eq_refl eq_refl) as [H4 _].
      exact (H4 eq_refl eq_refl).
Defined.

Lemma login_success_is_earned_witness :
  exists u,
    In u (users Demo.store) /\
    user_email u = "a@x.com" /\
    bcrypt_compare (Platform := Demo.platform) "secret1" (user_passwordHash u) = Ok true.
Proof.
  edestruct (@login_success_is_earned Demo.platform 2000
               (Demo.credentials "a@x.com" "secret1") Demo.store)
    as [email [password [u [tok [Ee [Ep [Hin [He [Hc _]]]]]]]]].
  - vm_compute. reflexivity.
  - reflexivity.
  - injection Ee as <-. injection Ep as <-.
    exists u. split; [exact Hin | split; [exact He | exact Hc]].
Defined.

Lemma getUserIdFromToken_sound_witness :
  exists j,
    jws_decode (Platform := Demo.platform) "alice.7d.jwt" = Some j /\
    signedWith j = Some (@JWT_SECRET Demo.platform) /\
    userId (claims j) = Some 1 /\
    (forall e, exp (claims j) = Some e -> 2000 < e).
Proof.
  apply (proj1 (@getUserIdFromToken_sound Demo.platform 2000 "alice.7d.jwt") 1);
    reflexivity.
Defined.

Lemma refresh_reissues_for_same_subject_witness :
  exists u tok,
    In u (users Demo.store) /\
    Auth.authenticateToken (P := Demo.platform) 2000
      (Demo.withHeader (Some "Bearer alice.7d.jwt")) Demo.store
    = (Ok (Next (attach (Demo.withHeader (Some "Bearer alice.7d.jwt"))
                        (Val (User.toSafeObject u)) (Val (user_id u)))), Demo.store) /\
    Auth.generateToken (P := Demo.platform) 2000 (user_id u) (Span "7d") = Ok tok.
Proof.
  edestruct (@refresh_reissues_for_same_subject Demo.platform 2000
               (Demo.withHeader (Some "Bearer alice.7d.jwt")) Demo.store)
    as [u [tok [Hin [A [G _]]]]].
  - vm_compute. reflexivity.
  - reflexivity.
  - exists u, tok. split; [exact Hin | split; [exact A | exact G]].
Defined.

Lemma bearer_is_second_word_witness :
  Auth.bearer (Demo.withHeader (Some "Bearer abc def")) = Some "abc".
Proof.
  apply (proj2 (bearer_is_second_word (Demo.withHeader (Some "Bearer abc def")) "abc")).
  exists " def". split; [reflexivity|]. split; [discriminate|].
  split; [reflexivity|]. right. exists "def". reflexivity.
Defined.

Lemma checks_come_in_order_witness :
  Routes.handle (P := Demo.platform) 2000 Routes.PUT_posts_id
    (Demo.onPost "Bearer forged.jwt" "abc" (Some "A title") (Some "Some content"))
    Demo.store
  = (Ok (errorResponse 400 "Invalid post ID" "Post ID must be a positive number"),
     Demo.store).
Proof.
  exact (proj1 (@checks_come_in_order Demo.platform 2000 Routes.PUT_posts_id
                  (Demo.onPost "Bearer forged.jwt" "abc" (Some "A title")
                               (Some "Some content"))
                  Demo.store) eq_refl).
Defined.

Lemma register_rejects_bad_input_witness :
  snd (authController.register (P := Demo.platform) 2000
         (Demo.credentials "not-an-email" "secret3") Demo.store)
  = Demo.store /\
  snd (authController.register (P := Demo.platform) 2000
         (Demo.credentials "c@x.com" "12345") Demo.store)
  = Demo.store.
Proof.
  split.
  - refine (proj1 (@register_rejects_bad_input Demo.platform 2000
                     (Demo.credentials "not-an-email" "secret3") Demo.store _ _ _
                     (surjective_pairing _))).
    right. right. left. reflexivity.
  - refine (proj1 (@register_rejects_bad_input Demo.platform 2000
                     (Demo.credentials "c@x.com" "12345") Demo.store _ _ _
                     (surjective_pairing _))).
    right. right. right. split; [exists true; reflexivity | reflexivity].
Defined.

Lemma failing_store_never_succeeds_witness :
  (exists r,
      Routes.handle (P := Demo.platform) 2000 Routes.GET_posts (Demo.withHeader None)
        Demo.locked = (Ok r, Demo.locked) /\
      400 <= status r) /\
  (exists r,
      Routes.handle (P := Demo.platform) 2000 Routes.GET_posts_stats (Demo.withHeader None)
        Demo.locked = (Ok r, Demo.locked) /\
      400 <= status r).
Proof.
  split; eexists; (split; [vm_compute; reflexivity|]).
  - apply (@failing_store_never_succeeds Demo.platform 2000 Routes.GET_posts
             (Demo.withHeader None) Demo.locked Demo.locked _
             "SQLITE_BUSY: database is locked" eq_refl eq_refl).
  - apply (@failing_store_never_succeeds Demo.platform 2000 Routes.GET_posts_stats
             (Demo.withHeader None) Demo.locked Demo.locked _
             "SQLITE_BUSY: database is locked" eq_refl eq_refl).
Defined.

Lemma handlers_own_guards_unreachable_witness :
  ~ In (bodyField "error"
          (errorResponse 401 "Access denied. No valid token provided."
             "Please include a valid JWT token in the Authorization header"))
       [Some (JStr "Authentication required"); Some (JStr "Not authenticated")].
Proof.
  assert (Hid : forall u, In u (users Demo.store) -> user_id u <> 0)
    by (intros u [<-|[<-|[]]]; discriminate).
  exact (@handlers_own_guards_unreachable Demo.platform 2000 Routes.GET_auth_me
           (Demo.withHeader None) Demo.store Demo.store _ Hid eq_refl).
Defined.

Lemma createPost_rejects_short_witness :
  snd (postController.createPost 2000
         (Demo.attached (Demo.onPost "Bearer alice.7d.jwt" "" (Some " ab ")
                                     (Some "Content long enough"))
                        Demo.alice)
         Demo.store)
  = Demo.store.
Proof.
  refine (proj1 (createPost_rejects_short 2000
                   (Demo.attached (Demo.onPost "Bearer alice.7d.jwt" "" (Some " ab ")
                                               (Some "Content long enough"))
                                  Demo.alice)
                   Demo.store _ _ " ab " eq_refl _ (surjective_pairing _))).
  left. vm_compute. reflexivity.
Defined.

Lemma generateToken_outcomes_witness :
  name (Error "Failed to generate token: secretOrPrivateKey must have a value") = "Error" /\
  JS.startsWith "Failed to generate token: "
    (message (Error "Failed to generate token: secretOrPrivateKey must have a value"))
  = true.
Proof.
  exact (proj2 (@generateToken_outcomes Demo.unconfigured 2000 1 (Span "7d"))
           (Error "Failed to generate token: secretOrPrivateKey must have a value")
           eq_refl).
Defined.

Lemma emailRegex_accepts_the_pattern_witness :
  authController.emailRegex_test "a@b.c" = true.
Proof.
  apply (proj2 (emailRegex_accepts_the_pattern "a@b.c")).
  exists "a", "b", "c". split; [reflexivity|].
  repeat split; try discriminate;
    match goal with H : In _ _ |- _ => destruct H as [<-|[]] end;
    reflexivity || discriminate.
Defined.

Lemma server_errors_have_causes_witness :
  (Post.blank "title"
     (body_title (Demo.onPost "Bearer alice.7d.jwt" "1" (Some "   ") (Some "short")))
   <> Ok false \/
   Post.blank "content"
     (body_content (Demo.onPost "Bearer alice.7d.jwt" "1" (Some "   ") (Some "short")))
   <> Ok false) /\
  ((forall email, body_email (Demo.numericPassword "a@x.com" "12345678")
                  <> Some (VStr email)) \/
   (exists h e, Bcrypt.compare (P := Demo.platform)
                  (body_password (Demo.numericPassword "a@x.com" "12345678")) h = Throw e) \/
   (exists uid e, Auth.generateToken (P := Demo.platform) 2000 uid Auth.defaultTtl
                  = Throw e)).
Proof.
  split.
  - exact (@server_errors_have_causes Demo.platform 2000 Routes.PUT_posts_id
             (Demo.onPost "Bearer alice.7d.jwt" "1" (Some "   ") (Some "short"))
             Demo.store Demo.store
             (errorResponse 500 "Failed to update post"
                "An unexpected error occurred. Please try again later.")
             eq_refl eq_refl eq_refl).
  - exact (@server_errors_have_causes Demo.platform 2000 Routes.POST_auth_login
             (Demo.numericPassword "a@x.com" "12345678")
             Demo.store Demo.store
             (errorResponse 500 "Login failed"
                "An unexpected error occurred. Please try again later.")
             eq_refl eq_refl eq_refl).
Defined.

Lemma login_failures_alike_on_strings_witness :
  authController.login (P := Demo.platform) 2000
    (Demo.credentials "nobody@x.com" "secret1") Demo.store
  = (Ok (errorResponse 401 "Invalid credentials" "Email or password is incorrect"), Demo.store) /\
  authController.login (P := Demo.platform) 2000
    (Demo.credentials "a@x.com" "wrong-password") Demo.store
  = (Ok (errorResponse 401 "Invalid credentials" "Email or password is incorrect"), Demo.store).
Proof.
  apply (@login_failures_alike_on_strings Demo.platform 2000
           (Demo.credentials "nobody@x.com" "secret1")
           (Demo.credentials "a@x.com" "wrong-password")
           Demo.store Demo.store Demo.alice
           "nobody@x.com" "secret1" "a@x.com" "wrong-password");
    first [reflexivity | discriminate].
Defined.
